(** * geoApi symbology: renderers, legends, icons and zoom levels

    A shallow embedding of the symbology module of geoApi (the functions
    [enhanceRenderer], [searchRenderer], [getGraphicIcon],
    [getGraphicSymbol], the SVG icon drawer, [symbolToLegend],
    [scrapeListRenderer], [rendererToLegend] and [getZoomLevel]), of the
    functions of the layer records that work on scale ranges, visible
    children and attribute fields ([isOffScale], [findZoomScale],
    [setVisibility], [getVisibility], [aliasedFieldNameDirect] and
    [unAliasAttribs]), and the properties stated and proved about them.

    Conventions of the embedding:
    - renderers, symbols, legends and levels are records of the ESRI JSON
      shapes, a property that may be absent being an [option]; feature
      attributes are a finite map from field names to scalar values;
    - a JavaScript number is an IEEE-754 double, written as the decimal that
      JavaScript prints for it (or NaN, or one of the two infinities); sums,
      differences and halves are rounded to the nearest double; the sign of
      zero, which the module never observes, is not represented;
    - reading a property of an attribute object answers the members that
      every object inherits from [Object.prototype] as well as its own;
    - an exception is a [Throw] completion, [console] output is a list of log
      lines returned beside the completion;
    - an object that the code mutates in place is passed in and returned;
    - a loop that JavaScript may run for ever takes a fuel argument;
    - what the language leaves to the engine (the reading of a numeric
      string, the text of a built-in function) is a section variable. *)

From Stdlib Require Import ZArith QArith Qminmax Qpower Qround String Ascii List Lia Lqa
  DecimalString.
From stdpp Require Import base option list strings gmap.

Local Open Scope string_scope.
Local Open Scope Z_scope.
Set Warnings "-register-all".

(** ** Numbers *)

Module Num.

(** A JavaScript number is an IEEE-754 double.  It is represented by the
    decimal that [Number::toString] prints for it, the shortest one that
    reads back as the same double: [Fin m e] is the decimal [m / 10^e].
    Comparisons are those of the decimals, which are ordered like the
    doubles they stand for; arithmetic goes through the exact value of the
    doubles and rounds its result ([add], [sub] and [half] below). *)
Inductive number : Type :=
| NaN
| PosInf
| NegInf
| Fin (m : Z) (e : nat).

Definition pow10 (e : nat) : Z := 10 ^ Z.of_nat e.

Definition of_Z (z : Z) : number := Fin z 0.

Definition is_NaN (a : number) : bool :=
  match a with NaN => true | _ => false end.

(** The JavaScript relational operators on numbers: every comparison with
    NaN is false. *)
Definition lt (a b : number) : bool :=
  match a, b with
  | NaN, _ | _, NaN => false
  | PosInf, _ => false
  | _, PosInf => true
  | _, NegInf => false
  | NegInf, _ => true
  | Fin m1 e1, Fin m2 e2 => m1 * pow10 e2 <? m2 * pow10 e1
  end.

Definition gt (a b : number) : bool := lt b a.

Definition le (a b : number) : bool :=
  negb (is_NaN a) && negb (is_NaN b) && negb (lt b a).

Definition ge (a b : number) : bool := le b a.

(** [a === b] on numbers. *)
Definition eq (a b : number) : bool :=
  match a, b with
  | PosInf, PosInf | NegInf, NegInf => true
  | Fin m1 e1, Fin m2 e2 => m1 * pow10 e2 =? m2 * pow10 e1
  | _, _ => false
  end.

Definition opp (a : number) : number :=
  match a with
  | NaN => NaN
  | PosInf => NegInf
  | NegInf => PosInf
  | Fin m e => Fin (- m) e
  end.

(** [Math.min(a, b)]. *)
Definition min (a b : number) : number :=
  match a, b with
  | NaN, _ | _, NaN => NaN
  | _, _ => if lt b a then b else a
  end.

(** ToBoolean on a number: zero and NaN are falsy. *)
Definition truthy (a : number) : bool :=
  match a with
  | NaN => false
  | Fin m _ => negb (m =? 0)
  | _ => true
  end.

(** *** Number::toString

    The decimal digits of the value without trailing zeros are [s], there
    are [k] of them, and the value is [0.s * 10^n]. *)

Definition digits_of (p : Z) : string := NilZero.string_of_uint (N.to_uint (Z.to_N p)).

Fixpoint drop_zeros (s : list ascii) : list ascii :=
  match s with
  | "0"%char :: s' => drop_zeros s'
  | _ => s
  end.

Definition strip_trailing_zeros (s : string) : string :=
  string_of_list_ascii (rev (drop_zeros (rev (list_ascii_of_string s)))).

Fixpoint zeros (n : nat) : string :=
  match n with
  | O => ""
  | S n' => String "0" (zeros n')
  end.

Definition positive_to_string (m : Z) (e : nat) : string :=
  let all := digits_of m in
  let n := Z.of_nat (String.length all) - Z.of_nat e in
  let s := strip_trailing_zeros all in
  let k := Z.of_nat (String.length s) in
  if (k <=? n) && (n <=? 21) then
    s +:+ zeros (Z.to_nat (n - k))
  else if (0 <? n) && (n <=? 21) then
    substring 0 (Z.to_nat n) s +:+ "." +:+
    substring (Z.to_nat n) (Z.to_nat (k - n)) s
  else if (-6 <? n) && (n <=? 0) then
    "0." +:+ zeros (Z.to_nat (- n)) +:+ s
  else
    let x := n - 1 in
    let mant := if k =? 1 then s
                else substring 0 1 s +:+ "." +:+ substring 1 (Z.to_nat (k - 1)) s in
    mant +:+ "e" +:+ (if x <? 0 then "-" else "+") +:+ digits_of (Z.abs x).

Definition to_string (a : number) : string :=
  match a with
  | NaN => "NaN"
  | PosInf => "Infinity"
  | NegInf => "-Infinity"
  | Fin m e =>
      if m =? 0 then "0"
      else if m <? 0 then "-" +:+ positive_to_string (- m) e
      else positive_to_string m e
  end.

(** *** The rational value of a finite number *)

Definition finite (a : number) : Prop :=
  match a with
  | Fin _ _ => True
  | _ => False
  end.

Definition toQ (a : number) : Q :=
  match a with
  | Fin m e => m # Z.to_pos (pow10 e)
  | _ => 0%Q
  end.

(** *** Arithmetic on doubles *)

Definition pow2 (k : Z) : Q := (2 ^ k)%Q.

Definition pow10Q (x : Z) : Q := (10 ^ x)%Q.

(** [m * 2^k] *)
Definition dyadic (m k : Z) : Q := (inject_Z m * pow2 k)%Q.

(** [floor (log2 x)] for a positive [x]: the quotient of two integers of
    [a + 1] and [b + 1] bits lies between [2^(a - b - 1)] and
    [2^(a - b + 1)]. *)
Definition log2_floor (x : Q) : Z :=
  let l := Z.log2 (Qnum x) - Z.log2 (Z.pos (Qden x)) in
  if Qle_bool (pow2 l) x then l else l - 1.

(** The integer nearest to [x], the even one of two that are equally
    near. *)
Definition round_even (x : Q) : Z :=
  let f := Qfloor x in
  match (x - inject_Z f ?= 1 # 2)%Q with
  | Lt => f
  | Gt => f + 1
  | Eq => if Z.even f then f else f + 1
  end.

(** The double nearest to a positive rational [x] (round to nearest, ties
    to even), as its mantissa [m] of at most 53 bits and its exponent [k]:
    the double is [m * 2^k], and the exponent of a subnormal is -1074.
    [None]: the nearest double is Infinity. *)
Definition nearest (x : Q) : option (Z * Z) :=
  let k := Z.max (log2_floor x - 52) (-1074) in
  let m := round_even (x * pow2 (- k)) in
  let k' := if m =? 2 ^ 53 then k + 1 else k in
  let m' := if m =? 2 ^ 53 then 2 ^ 52 else m in
  if 971 <? k' then None else Some (m', k').

Definition digits (p : Z) : Z := Z.of_nat (String.length (digits_of p)).

(** [floor (log10 x)] for a positive [x]. *)
Definition log10_floor (x : Q) : Z :=
  let l := digits (Qnum x) - digits (Z.pos (Qden x)) in
  if Qle_bool (pow10Q l) x then l else l - 1.

(** The two multiples of [10^x] next to [v], in units of [10^x], the
    nearer one first. *)
Definition neighbours (v : Q) (x : Z) : list Z :=
  let y := (v * pow10Q (- x))%Q in
  let lo := Qfloor y in
  match (y - inject_Z lo ?= 1 # 2)%Q with
  | Lt => [lo; lo + 1]
  | Gt => [lo + 1; lo]
  | Eq => if Z.even lo then [lo; lo + 1] else [lo + 1; lo]
  end.

(** The decimal [s * 10^x] reads as the double [m * 2^k]. *)
Definition reads_as (m k s x : Z) : bool :=
  match nearest (inject_Z s * pow10Q x) with
  | Some (m', k') => (m' =? m) && (k' =? k)
  | None => false
  end.

(** The digits of a double, all of them. *)
Definition all_digits (m k : Z) : Z * Z :=
  if 0 <=? k then (m * 2 ^ k, 0) else (m * 5 ^ (- k), k).

(** The digits [Number::toString] prints for the double [m * 2^k]: the
    shortest decimal [s * 10^x] that reads as that double, and the nearest
    to it among those of that length.  Decimals of [j], [j + 1], ...
    digits are tried in turn; 17 digits tell any two doubles apart. *)
Fixpoint shortest_from (tries : nat) (j m k t : Z) : Z * Z :=
  match tries with
  | O => all_digits m k
  | S tries =>
      let x := t + 1 - j in
      match List.find (fun s => reads_as m k s x) (neighbours (dyadic m k) x) with
      | Some s => (s, x)
      | None => shortest_from tries (j + 1) m k t
      end
  end.

Definition shortest (m k : Z) : Z * Z :=
  shortest_from 17 1 m k (log10_floor (dyadic m k)).

(** The number [s * 10^x]. *)
Definition decimal (s x : Z) : number :=
  if 0 <=? x then Fin (s * 10 ^ x) 0
  else if s mod 10 =? 0 then Fin (s / 10) (Z.to_nat (- x - 1))
  else Fin s (Z.to_nat (- x)).

(** A double: NaN, an infinity, or a finite double by its exact value. *)
Inductive double : Type :=
| DNaN
| DInf (negative : bool)
| DVal (v : Q).

(** The double nearest to a rational. *)
Definition round (v : Q) : double :=
  match (v ?= 0)%Q with
  | Eq => DVal 0
  | Gt =>
      match nearest v with
      | Some (m, k) => DVal (dyadic m k)
      | None => DInf false
      end
  | Lt =>
      match nearest (- v) with
      | Some (m, k) => DVal (- dyadic m k)
      | None => DInf true
      end
  end.

(** The double a number stands for. *)
Definition to_double (a : number) : double :=
  match a with
  | NaN => DNaN
  | PosInf => DInf false
  | NegInf => DInf true
  | Fin _ _ => round (toQ a)
  end.

Definition print_positive (v : Q) : number :=
  match nearest v with
  | Some (m, k) => if m =? 0 then Fin 0 0 else decimal (shortest m k).1 (shortest m k).2
  | None => PosInf
  end.

(** The number that stands for a double. *)
Definition of_double (d : double) : number :=
  match d with
  | DNaN => NaN
  | DInf false => PosInf
  | DInf true => NegInf
  | DVal v =>
      match (v ?= 0)%Q with
      | Eq => Fin 0 0
      | Gt => print_positive v
      | Lt => opp (print_positive (- v))
      end
  end.

Definition double_add (a b : double) : double :=
  match a, b with
  | DNaN, _ | _, DNaN => DNaN
  | DInf s, DInf s' => if Bool.eqb s s' then DInf s else DNaN
  | DInf s, _ | _, DInf s => DInf s
  | DVal v, DVal w => round (v + w)
  end.

Definition double_half (a : double) : double :=
  match a with
  | DVal v => round (v / 2)
  | _ => a
  end.

(** [a + b] *)
Definition add (a b : number) : number :=
  of_double (double_add (to_double a) (to_double b)).

(** [a - b] *)
Definition sub (a b : number) : number := add a (opp b).

(** [a / 2] *)
Definition half (a : number) : number := of_double (double_half (to_double a)).

(** *** Vocabulary of the rounding lemmas *)




End Num.

Abbreviation number := Num.number.

(** ** Values, completions and console output *)

(** The scalar values a feature attribute can hold. *)
Inductive value : Type :=
| VUndefined
| VNull
| VBool (b : bool)
| VNum (n : number)
| VStr (s : string).

(** ToString, as string concatenation and template literals apply it. *)
Definition ToString (v : value) : string :=
  match v with
  | VUndefined => "undefined"
  | VNull => "null"
  | VBool true => "true"
  | VBool false => "false"
  | VNum n => Num.to_string n
  | VStr s => s
  end.

(** A property that may be absent: [None] reads as [undefined]. *)
Definition str (o : option string) : string := default "undefined" o.

Definition num_str (o : option number) : string :=
  match o with
  | Some n => Num.to_string n
  | None => "undefined"
  end.

(** ToBoolean on an optional string: [undefined] and [''] are falsy. *)
Definition truthy (o : option string) : bool :=
  match o with
  | Some s => negb (s =? "")%string
  | None => false
  end.

Definition is_str (o : option string) (s : string) : bool :=
  match o with
  | Some t => (t =? s)%string
  | None => false
  end.

Inductive exn : Type :=
| TypeError
| Error (msg : string).

Inductive completion (A : Type) : Type :=
| Normal (a : A)
| Throw (e : exn).
Arguments Normal {A} a.
Arguments Throw {A} e.

#[global] Instance completion_ret : MRet completion := fun A a => Normal a.

#[global] Instance completion_bind : MBind completion := fun A B k c =>
  match c with
  | Normal a => k a
  | Throw e => Throw e
  end.

#[global] Instance completion_fmap : FMap completion := fun A B f c =>
  match c with
  | Normal a => Normal (f a)
  | Throw e => Throw e
  end.

(** A line of [console.warn] or [console.error] output. *)
Inductive log : Type :=
| Warn (msg : string)
| LogError (msg : string) (detail : option exn).

(** ** Data model *)

(** An ESRI symbol in server JSON form.  [s_color] is the optional colour
    array; [s_size] and [s_angle] hold NaN when the property is absent (both
    are only used in arithmetic, where [undefined] converts to NaN). *)
Inductive Symbol : Type := mkSymbol {
  s_type : option string;
  s_style : option string;
  s_color : option (list number);
  s_width : option number;
  s_size : number;
  s_angle : number;
  s_path : option string;
  s_outline : option Symbol;
  s_imageData : option string;
  s_contentType : option string
}.

(** The object literal [{}]. *)
Definition empty_object : Symbol :=
  {| s_type := None; s_style := None; s_color := None; s_width := None;
     s_size := Num.NaN; s_angle := Num.NaN; s_path := None; s_outline := None;
     s_imageData := None; s_contentType := None |}.

(** The values of an [imageUrl] property: [undefined], a string (a data
    URL read from the label lookup of [enhanceRenderer]), or a member the
    lookup object inherits from [Object.prototype]. *)
Inductive image : Type :=
| NoImage
| Image (url : string)
| Inherited (name : string).

Record UniqueValueInfo : Type := {
  uvi_value : value;
  uvi_label : option string;
  uvi_symbol : option Symbol;
  uvi_imageUrl : image
}.

Record ClassBreakInfo : Type := {
  cbi_maxValue : number;
  cbi_label : option string;
  cbi_symbol : option Symbol;
  cbi_imageUrl : image
}.

(** An ESRI renderer in server JSON form.  A renderer of type [uniqueValue]
    carries the array [uniqueValueInfos] and one of type [classBreaks] the
    array [classBreakInfos]; the code reads each only for a renderer of that
    type.  [minValue] holds NaN when absent (it is only compared and
    subtracted from).  [r_imageUrl], [defaultImageUrl] and the entries'
    [imageUrl] are [NoImage] until [enhanceRenderer] sets them. *)
Record Renderer : Type := {
  r_type : option string;
  r_symbol : option Symbol;
  r_label : option string;
  r_imageUrl : image;
  field1 : option string;
  field2 : option string;
  field3 : option string;
  uniqueValueInfos : list UniqueValueInfo;
  field : option string;
  minValue : number;
  classBreakInfos : list ClassBreakInfo;
  defaultSymbol : option Symbol;
  defaultLabel : option string;
  defaultImageUrl : image
}.

Record LegendItem : Type := {
  label : option string;
  imageData : option string;
  contentType : option string;
  base : string
}.

Record LegendLayer : Type := {
  layerId : Z;
  legend : list LegendItem
}.

Record Legend : Type := {
  layers : list LegendLayer
}.

(** A level of detail; [scale] holds NaN when absent (it is only compared). *)
Record LOD : Type := { scale : number }.

(** size of images to output *)
Definition maxW : number := Num.of_Z 32.
Definition maxH : number := Num.of_Z 32.

(** layer symbology types *)
Definition SIMPLE : string := "simple".
Definition UNIQUE_VALUE : string := "uniqueValue".
Definition CLASS_BREAKS : string := "classBreaks".

Definition emptySVG : string :=
  "<svg xmlns='http://www.w3.org/2000/svg' width='32' height='32'></svg>".

(** The own property names of [Object.prototype], which every object
    literal inherits. *)
Definition object_prototype_names : list string :=
  ["constructor"; "hasOwnProperty"; "isPrototypeOf"; "propertyIsEnumerable";
   "toLocaleString"; "toString"; "valueOf"; "__proto__";
   "__defineGetter__"; "__defineSetter__"; "__lookupGetter__"; "__lookupSetter__"].

Definition inherited (key : string) : bool :=
  bool_decide (key ∈ object_prototype_names).

(** ** The renderer enhancer *)

(** [data:${legItem.contentType}${legItem.base},${legItem.imageData}] *)
Definition dataUrl (legItem : LegendItem) : string :=
  "data:" +:+ str (contentType legItem) +:+ base legItem +:+ "," +:+
  str (imageData legItem).

(** [legendLookup[key] = url] on an object literal: the assignment creates
    an own property, except for [__proto__], whose inherited setter ignores
    a string. *)
Definition lookup_set (key url : string) (legendLookup : gmap string string)
  : gmap string string :=
  if (key =? "__proto__")%string then legendLookup else <[key := url]> legendLookup.

(** [legendLookup[key]]: the own property when there is one, else what
    [Object.prototype] has under that name. *)
Definition lookup_get (legendLookup : gmap string string) (key : string) : image :=
  match legendLookup !! key with
  | Some url => Image url
  | None => if inherited key then Inherited key else NoImage
  end.

(** quick lookup object of legend names to data URLs *)
Definition make_legendLookup (items : list LegendItem) : gmap string string :=
  foldl (fun legendLookup legItem =>
           lookup_set (str (label legItem)) (dataUrl legItem) legendLookup)
        ∅ items.

Definition set_uvi_imageUrl (i : image) (uvi : UniqueValueInfo) : UniqueValueInfo :=
  {| uvi_value := uvi_value uvi; uvi_label := uvi_label uvi;
     uvi_symbol := uvi_symbol uvi; uvi_imageUrl := i |}.

Definition set_cbi_imageUrl (i : image) (cbi : ClassBreakInfo) : ClassBreakInfo :=
  {| cbi_maxValue := cbi_maxValue cbi; cbi_label := cbi_label cbi;
     cbi_symbol := cbi_symbol cbi; cbi_imageUrl := i |}.

Definition set_imageUrl (i : image) (r : Renderer) : Renderer :=
  {| r_type := r_type r; r_symbol := r_symbol r; r_label := r_label r;
     r_imageUrl := i;
     field1 := field1 r; field2 := field2 r; field3 := field3 r;
     uniqueValueInfos := uniqueValueInfos r;
     field := field r; minValue := minValue r;
     classBreakInfos := classBreakInfos r;
     defaultSymbol := defaultSymbol r; defaultLabel := defaultLabel r;
     defaultImageUrl := defaultImageUrl r |}.

Definition set_defaultImageUrl (i : image) (r : Renderer) : Renderer :=
  {| r_type := r_type r; r_symbol := r_symbol r; r_label := r_label r;
     r_imageUrl := r_imageUrl r;
     field1 := field1 r; field2 := field2 r; field3 := field3 r;
     uniqueValueInfos := uniqueValueInfos r;
     field := field r; minValue := minValue r;
     classBreakInfos := classBreakInfos r;
     defaultSymbol := defaultSymbol r; defaultLabel := defaultLabel r;
     defaultImageUrl := i |}.

Definition set_uniqueValueInfos (l : list UniqueValueInfo) (r : Renderer) : Renderer :=
  {| r_type := r_type r; r_symbol := r_symbol r; r_label := r_label r;
     r_imageUrl := r_imageUrl r;
     field1 := field1 r; field2 := field2 r; field3 := field3 r;
     uniqueValueInfos := l;
     field := field r; minValue := minValue r;
     classBreakInfos := classBreakInfos r;
     defaultSymbol := defaultSymbol r; defaultLabel := defaultLabel r;
     defaultImageUrl := defaultImageUrl r |}.

Definition set_classBreakInfos (l : list ClassBreakInfo) (r : Renderer) : Renderer :=
  {| r_type := r_type r; r_symbol := r_symbol r; r_label := r_label r;
     r_imageUrl := r_imageUrl r;
     field1 := field1 r; field2 := field2 r; field3 := field3 r;
     uniqueValueInfos := uniqueValueInfos r;
     field := field r; minValue := minValue r;
     classBreakInfos := l;
     defaultSymbol := defaultSymbol r; defaultLabel := defaultLabel r;
     defaultImageUrl := defaultImageUrl r |}.

(** [if (renderer.defaultLabel) renderer.defaultImageUrl = legendLookup[...]] *)
Definition enhance_default (legendLookup : gmap string string) (r : Renderer) : Renderer :=
  if truthy (defaultLabel r)
  then set_defaultImageUrl (lookup_get legendLookup (str (defaultLabel r))) r
  else r.

(** [enhanceRenderer(renderer, legend)]: the renderer as the call leaves it,
    with what was logged.  The call throws only when the legend has no layer
    0, before anything is assigned. *)
Definition enhanceRenderer (renderer : Renderer) (legendObject : Legend)
  : list log * completion Renderer :=
  match layers legendObject !! 0%nat with
  | None => ([], Throw TypeError)
  | Some layer0 =>
      let legendLookup := make_legendLookup (legend layer0) in
      if is_str (r_type renderer) SIMPLE then
        ([], Normal (set_imageUrl (lookup_get legendLookup (str (r_label renderer)))
                                  renderer))
      else if is_str (r_type renderer) UNIQUE_VALUE then
        let renderer := enhance_default legendLookup renderer in
        ([], Normal (set_uniqueValueInfos
                       (map (fun uvi =>
                               set_uvi_imageUrl
                                 (lookup_get legendLookup (str (uvi_label uvi))) uvi)
                            (uniqueValueInfos renderer))
                       renderer))
      else if is_str (r_type renderer) CLASS_BREAKS then
        let renderer := enhance_default legendLookup renderer in
        ([], Normal (set_classBreakInfos
                       (map (fun cbi =>
                               set_cbi_imageUrl
                                 (lookup_get legendLookup (str (cbi_label cbi))) cbi)
                            (classBreakInfos renderer))
                       renderer))
      else
        ([Warn ("encountered unsupported renderer type: " +:+ str (r_type renderer))],
         Normal renderer)
  end.

(** ** The renderer classifier *)

(** What reading a property of an object literal or of a parsed JSON
    object gives: a scalar, or the member of that name that the object
    inherits from [Object.prototype]. *)
Inductive property : Type :=
| Scalar (v : value)
| Member (name : string).

(** [attribs[key]], inherited members included. *)
Definition read (attribs : gmap string value) (key : string) : property :=
  match attribs !! key with
  | Some v => Scalar v
  | None => if inherited key then Member key else Scalar VUndefined
  end.

Record RenderInfo : Type := {
  imageUrl : image;
  symbol : option Symbol
}.

(** [array.find((item, index) => test)] *)
Fixpoint find_from {A : Type} (test : A -> nat -> bool) (index : nat) (l : list A)
  : option A :=
  match l with
  | [] => None
  | x :: l' => if test x index then Some x else find_from test (S index) l'
  end.

Definition find {A : Type} (test : A -> nat -> bool) (l : list A) : option A :=
  find_from test 0%nat l.

(** [uvi.value === graphicKey], [graphicKey] a string. *)
Definition strict_eq_string (v : value) (graphicKey : string) : bool :=
  match v with
  | VStr s => (s =? graphicKey)%string
  | _ => false
  end.

Section Classifier.

(** ToNumber on a string (the reading of a numeric literal), left to the
    engine. *)
Variable string_to_number : string -> number.

(** The text that the engine gives for a member of [Object.prototype]: the
    source text of a built-in function, [[object Object]] for the prototype
    itself. *)
Variable inherited_text : string -> string.

(** [graphicKey.toString()] for a [graphicKey] that is not a string:
    [undefined] and [null] have no method to call. *)
Definition toString_method (graphicKey : property) : completion string :=
  match graphicKey with
  | Scalar VUndefined | Scalar VNull => Throw TypeError
  | Scalar v => Normal (ToString v)
  | Member name => Normal (inherited_text name)
  end.

(** ToString on what a property read gives, as [+] on a string applies
    it. *)
Definition text_of (p : property) : string :=
  match p with
  | Scalar v => ToString v
  | Member name => inherited_text name
  end.

Definition ToNumber (v : value) : number :=
  match v with
  | VUndefined => Num.NaN
  | VNull => Num.of_Z 0
  | VBool true => Num.of_Z 1
  | VBool false => Num.of_Z 0
  | VNum n => n
  | VStr s => string_to_number s
  end.

(** ToNumber on what a property read gives, as a comparison with a number
    applies it: the text of an inherited member is no numeric literal. *)
Definition number_of (p : property) : number :=
  match p with
  | Scalar v => ToNumber v
  | Member _ => Num.NaN
  end.

(** [minSplits[index]], [undefined] past the end. *)
Definition at_index (minSplits : list number) (index : nat) : number :=
  default Num.NaN (minSplits !! index).

Definition searchRenderer (attributes : gmap string value) (renderer : Renderer)
  : list log * completion RenderInfo :=
  if is_str (r_type renderer) SIMPLE then
    ([], Normal {| imageUrl := r_imageUrl renderer; symbol := r_symbol renderer |})
  else if is_str (r_type renderer) UNIQUE_VALUE then
    let graphicKey := read attributes (str (field1 renderer)) in
    ([],
     graphicKey ←
       match graphicKey with
       | Scalar (VStr s) => Normal s
       | _ => toString_method graphicKey
       end;
     let graphicKey :=
       if truthy (field2 renderer) then
         let graphicKey :=
           (graphicKey +:+ ", ") +:+ text_of (read attributes (str (field2 renderer))) in
         if truthy (field3 renderer) then
           (graphicKey +:+ ", ") +:+ text_of (read attributes (str (field3 renderer)))
         else graphicKey
       else graphicKey in
     match find (fun uvi _ => strict_eq_string (uvi_value uvi) graphicKey)
                (uniqueValueInfos renderer) with
     | Some uvi =>
         Normal {| imageUrl := uvi_imageUrl uvi; symbol := uvi_symbol uvi |}
     | None =>
         Normal {| imageUrl := defaultImageUrl renderer;
                   symbol := defaultSymbol renderer |}
     end)
  else if is_str (r_type renderer) CLASS_BREAKS then
    (* every use of gVal compares it with a number, which converts it *)
    let gVal := number_of (read attributes (str (field renderer))) in
    let lower := minValue renderer in
    let default_info :=
      {| imageUrl := defaultImageUrl renderer; symbol := defaultSymbol renderer |} in
    if Num.lt gVal lower then ([], Normal default_info)
    else
      let minSplits :=
        Num.sub lower (Num.of_Z 1) :: map cbi_maxValue (classBreakInfos renderer) in
      match find (fun cbi index =>
                    Num.gt gVal (at_index minSplits index)
                    && Num.le gVal (cbi_maxValue cbi))
                 (classBreakInfos renderer) with
      | None => ([], Normal default_info)
      | Some cbi =>
          ([], Normal {| imageUrl := cbi_imageUrl cbi; symbol := cbi_symbol cbi |})
      end
  else
    ([Warn ("Unknown renderer type encountered - " +:+ str (r_type renderer))],
     Normal {| imageUrl := Image ""; symbol := Some empty_object |}).

Definition getGraphicIcon (attributes : gmap string value) (renderer : Renderer)
  : list log * completion image :=
  let renderInfo := searchRenderer attributes renderer in
  (renderInfo.1, imageUrl <$> renderInfo.2).

Definition getGraphicSymbol (attributes : gmap string value) (renderer : Renderer)
  : list log * completion (option Symbol) :=
  let renderInfo := searchRenderer attributes renderer in
  (renderInfo.1, symbol <$> renderInfo.2).

End Classifier.

(** ** The icon drawer *)

Definition dquote : string := String (ascii_of_nat 34) "".

(** The final [replace] of [makeSVG]: every double quote becomes a single
    quote. *)
Fixpoint single_quoted (s : string) : string :=
  match s with
  | EmptyString => EmptyString
  | String c s' =>
      String (if Ascii.eqb c (ascii_of_nat 34) then "'"%char else c) (single_quoted s')
  end.

(** The value of an SVG property before it is printed. *)
Inductive propval : Type :=
| PString (s : string)
| PUndefined
| PInherited (name : string).

Record SVG : Type := {
  props : list (string * propval);
  svg_type : string
}.

Definition newSVG (type : string) : SVG := {| props := []; svg_type := type |}.

Definition addProp (name : string) (v : propval) (mySVG : SVG) : SVG :=
  {| props := (props mySVG ++ [(name, v)])%list; svg_type := svg_type mySVG |}.

(** [c[i]] inside a template literal. *)
Definition component (c : list number) (i : nat) : string := num_str (c !! i).

Definition colourToRgb (c : option (list number)) : string :=
  match c with
  | Some c =>
      "rgb(" +:+ component c 0 +:+ "," +:+ component c 1 +:+ "," +:+
      component c 2 +:+ ")"
  | None => "none"
  end.

Definition colourToOpacity (c : option (list number)) : completion string :=
  match c with
  | Some c =>
      match c !! 3%nat with
      | Some a => Normal (Num.to_string a)
      | None => Throw TypeError
      end
  | None => Normal "0"
  end.

Definition dashMap : list (string * string) :=
  [("esriSLSSolid", "none");
   ("esriSLSDash", "5.333,4");
   ("esriSLSDashDot", "5.333,4,1.333,4");
   ("esriSLSLongDashDotDot", "10.666,4,1.333,4,1.333,4");
   ("esriSLSDot", "1.333,4");
   ("esriSLSLongDash", "10.666,4");
   ("esriSLSLongDashDot", "10.666,4,1.333,4");
   ("esriSLSShortDash", "5.333,1.333");
   ("esriSLSShortDashDot", "5.333,1.333,1.333,1.333");
   ("esriSLSShortDashDotDot", "5.333,1.333,1.333,1.333,1.333,1.333");
   ("esriSLSShortDot", "1.333,1.333");
   ("esriSLSNull", "none")].

Fixpoint assoc (key : string) (table : list (string * string)) : option string :=
  match table with
  | [] => None
  | (k, v) :: table' => if (k =? key)%string then Some v else assoc key table'
  end.

(** [dashMap[style]] *)
Definition dash_of (style : option string) : propval :=
  match assoc (str style) dashMap with
  | Some d => PString d
  | None => if inherited (str style) then PInherited (str style) else PUndefined
  end.

Definition applyFill (symbol : Symbol) (svg : SVG) : completion SVG :=
  let fill :=
    if is_str (s_type symbol) "esriSFS" && negb (is_str (s_style symbol) "esriSFSSolid")
    then "none" else colourToRgb (s_color symbol) in
  let svg := addProp "fill" (PString fill) svg in
  opacity ← colourToOpacity (s_color symbol);
  let svg := addProp "fill-opacity" (PString opacity) svg in
  Normal (addProp "fill-rule" (PString "evenodd") svg).

Definition applyLine (lineSymbol : option Symbol) (svg : SVG) : completion SVG :=
  match lineSymbol with
  | None => Throw TypeError
  | Some lineSymbol =>
      let stroke :=
        if is_str (s_style lineSymbol) "esriSLSNull" then "none"
        else colourToRgb (s_color lineSymbol) in
      let svg := addProp "stroke" (PString stroke) svg in
      opacity ← colourToOpacity (s_color lineSymbol);
      let svg := addProp "stroke-opacity" (PString opacity) svg in
      match s_width lineSymbol with
      | None => Throw TypeError
      | Some width =>
          let svg := addProp "stroke-width" (PString (Num.to_string width)) svg in
          let svg := addProp "stroke-linecap" (PString "butt") svg in
          let svg := addProp "stroke-linejoin" (PString "miter") svg in
          let svg := addProp "stroke-miterlimit" (PString "4") svg in
          Normal (addProp "stroke-dasharray" (dash_of (s_style lineSymbol)) svg)
      end
  end.

Definition applyRotation (symbol : Symbol) (svg : SVG) : SVG :=
  let angle := if Num.truthy (s_angle symbol) then s_angle symbol else Num.of_Z 0 in
  addProp "transform"
          (PString ("rotate(" +:+ Num.to_string angle +:+ "," +:+
                    Num.to_string (Num.half maxW) +:+ "," +:+
                    Num.to_string (Num.half maxH) +:+ ")"))
          svg.

(** radius. size is diameter. cap at max image size *)
Definition circle_radius (size : number) : number :=
  Num.min (Num.half size) (Num.half (Num.sub maxW (Num.of_Z 4))).

Definition makeCircleSVG (symbol : Symbol) : SVG :=
  let circleSVG := newSVG "circle" in
  let circleSVG :=
    addProp "r" (PString (Num.to_string (circle_radius (s_size symbol)))) circleSVG in
  let circleSVG := addProp "cx" (PString (Num.to_string (Num.half maxW))) circleSVG in
  addProp "cy" (PString (Num.to_string (Num.half maxH))) circleSVG.

Record Corners : Type := {
  upLeft : number;
  loRite : number;
  middle : number
}.

Definition getGlyphCorners (size : number) : Corners :=
  let trimSize := Num.min size (Num.sub maxW (Num.of_Z 4)) in
  let offset := Num.half trimSize in
  let middle := Num.half maxW in
  {| upLeft := Num.sub middle offset;
     loRite := Num.add middle offset;
     middle := middle |}.

(** One point [x,y] of a path. *)
Definition pt (x y : number) : string := Num.to_string x +:+ "," +:+ Num.to_string y.

Definition makeGlyphSVG (symbol : Symbol) : SVG :=
  let glyphSVG := newSVG "path" in
  let path :=
    if is_str (s_style symbol) "esriSMSPath" then
      match s_path symbol with
      | Some p => PString p
      | None => PUndefined
      end
    else
      let c := getGlyphCorners (s_size symbol) in
      let u := upLeft c in
      let l := loRite c in
      let m := middle c in
      if is_str (s_style symbol) "esriSMSCross" then
        PString ("M " +:+ pt u m +:+ " " +:+ pt l m +:+ " M " +:+ pt m l +:+ " " +:+ pt m u)
      else if is_str (s_style symbol) "esriSMSDiamond" then
        PString ("M " +:+ pt u m +:+ " " +:+ pt m l +:+ " " +:+ pt l m +:+ " " +:+
                 pt m u +:+ " Z")
      else if is_str (s_style symbol) "esriSMSSquare" then
        PString ("M " +:+ pt u u +:+ " " +:+ pt u l +:+ " " +:+ pt l l +:+ " " +:+
                 pt l u +:+ " Z")
      else if is_str (s_style symbol) "esriSMSX" then
        PString ("M " +:+ pt u u +:+ " " +:+ pt l l +:+ " M " +:+ pt u l +:+ " " +:+ pt l u)
      else if is_str (s_style symbol) "esriSMSTriangle" then
        PString ("M " +:+ pt u l +:+ " " +:+ pt m u +:+ " " +:+ pt l l +:+ " Z")
      else PUndefined in
  addProp "d" path glyphSVG.

Definition makeMarkerSVG (symbol : Symbol) : completion SVG :=
  let svg :=
    if is_str (s_style symbol) "esriSMSCircle" then makeCircleSVG symbol
    else makeGlyphSVG symbol in
  svg ← applyLine (s_outline symbol) svg;
  svg ← applyFill symbol svg;
  Normal (applyRotation symbol svg).

Definition makePolySVG (symbol : Symbol) : completion SVG :=
  let polySVG := newSVG "rect" in
  let polySVG := addProp "x" (PString "4") polySVG in
  let polySVG := addProp "y" (PString "4") polySVG in
  let polySVG :=
    addProp "width" (PString (Num.to_string (Num.sub maxW (Num.of_Z 8)))) polySVG in
  let polySVG :=
    addProp "height" (PString (Num.to_string (Num.sub maxH (Num.of_Z 8)))) polySVG in
  polySVG ← applyFill symbol polySVG;
  applyLine (s_outline symbol) polySVG.

Definition makeLineSVG (symbol : Symbol) : completion SVG :=
  let lineSVG := newSVG "path" in
  let lineSVG :=
    addProp "d" (PString ("M 4,4 " +:+ pt (Num.sub maxW (Num.of_Z 4))
                                          (Num.sub maxH (Num.of_Z 4)))) lineSVG in
  applyLine (Some symbol) lineSVG.

Section Drawer.

(** The text an engine prints for the member of [Object.prototype] of a
    given name (for a function, its implementation-defined source text). *)
Variable inherited_text : string -> string.

Definition print (v : propval) : string :=
  match v with
  | PString s => s
  | PUndefined => "undefined"
  | PInherited name => inherited_text name
  end.

(** output the svg tag as string *)
Definition belch (mySVG : SVG) : string :=
  "<" +:+ svg_type mySVG +:+
  foldl (fun prev curr =>
           prev +:+ " " +:+ curr.1 +:+ "=" +:+ dquote +:+ print curr.2 +:+ dquote)
        "" (props mySVG) +:+
  " />".

(** [makeSVG(symbol)], called for the four simple symbol types only. *)
Definition makeSVG (symbol : Symbol) : completion string :=
  let head :=
    "<svg xmlns=" +:+ dquote +:+ "http://www.w3.org/2000/svg" +:+ dquote +:+
    " width=" +:+ dquote +:+ Num.to_string maxW +:+ dquote +:+
    " height=" +:+ dquote +:+ Num.to_string maxH +:+ dquote +:+ ">" in
  let foot := "</svg>" in
  svg ←
    (if is_str (s_type symbol) "esriSMS" then makeMarkerSVG symbol
     else if is_str (s_type symbol) "esriSFS" then makePolySVG symbol
     else if is_str (s_type symbol) "esriSLS" || is_str (s_type symbol) "esriCLS"
          then makeLineSVG symbol
     else Throw TypeError);
  Normal (single_quoted (head +:+ belch svg +:+ foot)).

(** ** The legend builder *)

(** The three variables [symbolToLegend] assigns in its [try] block. *)
Record Picture : Type := {
  p_imageData : option string;
  p_contentType : option string;
  p_base : string
}.

Definition is_simple_symbol (type : option string) : bool :=
  is_str type "esriSMS" || is_str type "esriSLS" || is_str type "esriSFS"
  || is_str type "esriCLS".

Definition is_picture_symbol (type : option string) : bool :=
  is_str type "esriPMS" || is_str type "esriPFS".

(** The [try] block of [symbolToLegend]: the three variables when it
    completes, or the exception it raises (none of them assigned then). *)
Definition convert (symbol : option Symbol) (initial : Picture) : completion Picture :=
  match symbol with
  | None => Throw TypeError
  | Some symbol =>
      if is_simple_symbol (s_type symbol) then
        imageData ← makeSVG symbol;
        Normal {| p_imageData := Some imageData;
                  p_contentType := p_contentType initial;
                  p_base := p_base initial |}
      else if is_picture_symbol (s_type symbol) then
        Normal {| p_imageData := s_imageData symbol;
                  p_contentType := s_contentType symbol;
                  p_base := ";base64" |}
      else if is_str (s_type symbol) "esriTS" then
        Throw (Error "no support for feature service legend of text symbols")
      else Normal initial
  end.

(** [let imageData = emptySVG; let contentType = 'image/svg+xml';
    let base = '';] *)
Definition blank : Picture :=
  {| p_imageData := Some emptySVG; p_contentType := Some "image/svg+xml";
     p_base := "" |}.

Definition symbolToLegend (symbol : option Symbol) (label : option string)
  : list log * LegendItem :=
  let initial := blank in
  match convert symbol initial with
  | Normal p =>
      ([], {| label := label; imageData := p_imageData p;
              contentType := p_contentType p; base := p_base p |})
  | Throw e =>
      ([LogError "Issue encountered when converting symbol to legend image" (Some e)],
       {| label := Some "Error!"; imageData := p_imageData initial;
          contentType := p_contentType initial; base := p_base initial |})
  end.

(** The children of a list renderer: unique-value and class-breaks entries. *)
Class Child (A : Type) : Type := {
  child_symbol : A -> option Symbol;
  child_label : A -> option string
}.

#[global] Instance uvi_child : Child UniqueValueInfo :=
  {| child_symbol := uvi_symbol; child_label := uvi_label |}.

#[global] Instance cbi_child : Child ClassBreakInfo :=
  {| child_symbol := cbi_symbol; child_label := cbi_label |}.

(** [renderer.defaultLabel || ''] *)
Definition defaultLabel_or_empty (renderer : Renderer) : string :=
  if truthy (defaultLabel renderer) then str (defaultLabel renderer) else "".

Definition scrapeListRenderer {A : Type} `{Child A} (renderer : Renderer)
    (childList : list A) : list log * list LegendItem :=
  let legend :=
    map (fun child => symbolToLegend (child_symbol child) (child_label child))
        childList in
  let logged := concat (map fst legend) in
  let legend := map snd legend in
  match defaultSymbol renderer with
  | Some symbol =>
      let item := symbolToLegend (Some symbol) (Some (defaultLabel_or_empty renderer)) in
      ((logged ++ item.1)%list, (legend ++ [item.2])%list)
  | None => (logged, legend)
  end.

Definition one_layer (index : Z) (items : list LegendItem) : Legend :=
  {| layers := [{| layerId := index; legend := items |}] |}.

Definition rendererToLegend (renderer : Renderer) (index : Z) : list log * Legend :=
  if is_str (r_type renderer) SIMPLE then
    let item := symbolToLegend (r_symbol renderer) (r_label renderer) in
    (item.1, one_layer index ([] ++ [item.2])%list)
  else if is_str (r_type renderer) UNIQUE_VALUE then
    let items := scrapeListRenderer renderer (uniqueValueInfos renderer) in
    (items.1, one_layer index items.2)
  else if is_str (r_type renderer) CLASS_BREAKS then
    let items := scrapeListRenderer renderer (classBreakInfos renderer) in
    (items.1, one_layer index items.2)
  else
    ([LogError ("encountered unsupported renderer legend type: " +:+
                str (r_type renderer)) None],
     one_layer index []).

End Drawer.

(** ** The scale-level resolver *)

Inductive run (A : Type) : Type :=
| Returns (a : A)
| Throws (e : exn)
| OutOfFuel.
Arguments Returns {A} a.
Arguments Throws {A} e.
Arguments OutOfFuel {A}.

(** [lods[i]] *)
Definition lod_at (lods : list LOD) (i : Z) : option LOD :=
  if i <? 0 then None else lods !! Z.to_nat i.

(** The [while (!found)] loop, one iteration per unit of fuel. *)
Fixpoint binary_search (fuel : nat) (lods : list LOD) (scaleLimit : number)
    (currentLod lowLod highLod : Z) : run Z :=
  match fuel with
  | O => OutOfFuel
  | S fuel =>
      match lod_at lods currentLod with
      | None => Throws TypeError
      | Some lod =>
          let lowLod := if Num.ge (scale lod) scaleLimit then currentLod else lowLod in
          let highLod := if Num.ge (scale lod) scaleLimit then highLod else currentLod in
          let currentLod := (highLod + lowLod) / 2 in
          if highLod =? lowLod + 1 then Returns currentLod
          else binary_search fuel lods scaleLimit currentLod lowLod highLod
      end
  end.

(** [Math.ceil(lods.length / 2)] is [(length + 1) / 2] in integers. *)
Definition getZoomLevel (fuel : nat) (lods : list LOD) (maxScale : number) : run Z :=
  let scaleLimit := maxScale in
  let currentLod := (Z.of_nat (length lods) + 1) / 2 in
  let lowLod := 0 in
  let highLod := Z.of_nat (length lods) - 1 in
  if Num.eq maxScale (Num.of_Z 0) then Returns (Z.of_nat (length lods) - 1)
  else binary_search fuel lods scaleLimit currentLod lowLod highLod.

(** * Layer records

    The functions of the layer records that work on scales, on the list of
    visible children and on attribute fields, and that feed the classifier
    (module [layerRecord]: classes [BasicFC], [LayerRecord], [DynamicFC] and
    [AttribFC]).  A promise is represented by the value it resolves with. *)

(** ** Scale ranges and zoom targets *)

(** The scale range of a layer, as [getScaleSet] resolves it: zooming out
    beyond [minScale] or in past [maxScale] hides the layer; 0 stands for no
    limit, NaN for an absent property. *)
Record ScaleSet : Type := {
  minScale : number;
  maxScale : number
}.

Record OffScale : Type := {
  offScale : bool;
  zoomIn : bool
}.

Module BasicFC.

(** [isOffScale(mapScale)]: what the promise resolves with, given the scale
    set that [getScaleSet] resolved with. *)
Definition isOffScale (scaleSet : ScaleSet) (mapScale : number) : OffScale :=
  if Num.lt mapScale (maxScale scaleSet)
     && negb (Num.eq (maxScale scaleSet) (Num.of_Z 0))
  then {| offScale := true; zoomIn := false |}
  else if Num.gt mapScale (minScale scaleSet)
          && negb (Num.eq (minScale scaleSet) (Num.of_Z 0))
  then {| offScale := true; zoomIn := true |}
  else {| offScale := false; zoomIn := false |}.

End BasicFC.

Module LayerRecord.

(** [findZoomScale(lods, scaleSet, zoomIn, zoomGraphic = false)]; [None]
    is the [undefined] that [find] returns when no level passes. *)
Definition findZoomScale (lods : list LOD) (scaleSet : ScaleSet)
    (zoomIn zoomGraphic : bool) : option LOD :=
  let zoomIn := if zoomGraphic then false else zoomIn in
  let modLods := if zoomIn then lods else reverse lods in
  find (fun currentLod _ =>
          if zoomIn then Num.lt (scale currentLod) (minScale scaleSet)
          else Num.gt (scale currentLod) (maxScale scaleSet))
       modLods.

End LayerRecord.

(** ** The visible children of a dynamic layer *)

(** [array.indexOf(x)] on an array of numbers: the first index whose
    element is strictly equal to [x], or -1. *)
Fixpoint indexOf_from (x : number) (index : Z) (l : list number) : Z :=
  match l with
  | [] => -1
  | y :: l' => if Num.eq y x then index else indexOf_from x (index + 1) l'
  end.

Definition indexOf (l : list number) (x : number) : Z := indexOf_from x 0 l.

Module DynamicFC.

Section Visibility.

(** [parseInt], which reads the child's index out of the string [_idx]. *)
Variable parseInt : string -> number.

(** [setVisibility(val)]: the parent's array [visibleLayers] as the call
    leaves it. *)
Definition setVisibility (visibleLayers : list number) (_idx : string) (val : bool)
  : list number :=
  let vLayers := visibleLayers in
  let intIdx := parseInt _idx in
  let vIdx := indexOf vLayers intIdx in
  if val && (vIdx =? -1) then (vLayers ++ [intIdx])%list
  else if negb val && (-1 <? vIdx) then delete (Z.to_nat vIdx) vLayers
  else vLayers.

Definition getVisibility (visibleLayers : list number) (_idx : string) : bool :=
  -1 <? indexOf visibleLayers (parseInt _idx).

End Visibility.

End DynamicFC.

(** ** Attribute fields and their aliases *)

(** A field definition of a layer, in server JSON form. *)
Record Field : Type := {
  f_name : option string;
  f_alias : option string;
  f_type : option string
}.

(** [attribs.hasOwnProperty(key)]: the method is the one [attribs]
    inherits, unless it has a property of that name of its own, which as a
    scalar cannot be called. *)
Definition hasOwnProperty (attribs : gmap string value) (key : string) : completion bool :=
  match attribs !! "hasOwnProperty" with
  | Some _ => Throw TypeError
  | None => Normal (bool_decide (is_Some (attribs !! key)))
  end.

(** [newA[key] = v] on an object literal.  The assignment creates or
    overwrites an own property, except under the key [__proto__], where it
    reaches the inherited setter: that one ignores a scalar other than
    [null], and replaces the prototype of [newA] by [null] or by an object,
    which is [None] here unless the object is [Object.prototype] itself
    ([Member "__proto__"]), the prototype [newA] has already. *)
Definition assign (newA : gmap string property) (key : string) (v : property)
  : option (gmap string property) :=
  if (key =? "__proto__")%string then
    match v with
    | Scalar VNull => None
    | Scalar _ => Some newA
    | Member m => if (m =? "__proto__")%string then Some newA else None
    end
  else Some (<[key := v]> newA).

(** How a call of [unAliasAttribs] ends: with the object it built, with an
    exception, or with the prototype of the object under construction
    replaced, after which the embedding does not follow the call. *)
Inductive unaliased : Type :=
| Attributes (newA : gmap string property)
| Raised (e : exn)
| Reparented.

Module AttribFC.

Definition aliasedFieldNameDirect (attribName : string) (fields : option (list Field))
  : string :=
  match fields with
  | Some fields =>
      match find (fun field _ => is_str (f_name field) attribName) fields with
      | Some attribField =>
          if truthy (f_alias attribField)
             && (0 <? Z.of_nat (String.length (str (f_alias attribField))))
          then str (f_alias attribField)
          else attribName
      | None => attribName
      end
  | None => attribName
  end.

(** The callback that [unAliasAttribs] runs on each field, on the object
    [newA] built so far. *)
Definition unAlias_field (attribs : gmap string value) (newA : unaliased) (field : Field)
  : unaliased :=
  match newA with
  | Attributes newA =>
      match hasOwnProperty attribs (str (f_name field)) with
      | Throw e => Raised e
      | Normal own =>
          let v := if own then read attribs (str (f_name field))
                   else read attribs (str (f_alias field)) in
          match assign newA (str (f_name field)) v with
          | Some newA => Attributes newA
          | None => Reparented
          end
      end
  | _ => newA
  end.

Definition unAliasAttribs (attribs : gmap string value) (fields : list Field) : unaliased :=
  foldl (unAlias_field attribs) (Attributes ∅) fields.

End AttribFC.

(** * Vocabulary of the properties

    The notions in which the properties are stated (the composite key, the
    bounds of a break, the branches of a renderer, ...), written after the
    specification's words; the theorems relate them to the embedding
    above. *)

(** A renderer of one of the three types the module handles. *)
Definition supported (r : Renderer) : Prop :=
  r_type r = Some SIMPLE \/ r_type r = Some UNIQUE_VALUE \/ r_type r = Some CLASS_BREAKS.

Definition default_info (r : Renderer) : RenderInfo :=
  {| imageUrl := defaultImageUrl r; symbol := defaultSymbol r |}.

Definition uvi_info (uvi : UniqueValueInfo) : RenderInfo :=
  {| imageUrl := uvi_imageUrl uvi; symbol := uvi_symbol uvi |}.

Definition cbi_info (cbi : ClassBreakInfo) : RenderInfo :=
  {| imageUrl := cbi_imageUrl cbi; symbol := cbi_symbol cbi |}.

(** What an attribute reads as is there: it is neither [undefined] (the
    object has no such property, of its own or inherited) nor [null]. *)
Definition present (p : property) : Prop := p <> Scalar VUndefined /\ p <> Scalar VNull.

(** The composite key of a unique-value lookup: [field1]'s value as a
    string, then [', '] and [field2]'s value when [field2] is configured,
    then [', '] and [field3]'s value when [field3] is configured as well. *)
Definition composite_key (inherited_text : string -> string)
    (attributes : gmap string value) (r : Renderer) : string :=
  text_of inherited_text (read attributes (str (field1 r))) +:+
  (if truthy (field2 r) then
     ", " +:+ text_of inherited_text (read attributes (str (field2 r))) +:+
     (if truthy (field3 r) then
        ", " +:+ text_of inherited_text (read attributes (str (field3 r)))
      else "")
   else "").

Definition upperBounds (r : Renderer) : list number :=
  map cbi_maxValue (classBreakInfos r).

(** [minimum - 1], as double arithmetic computes it, then every upper bound
    except the last. *)
Definition lowerBounds (r : Renderer) : list number :=
  Num.sub (minValue r) (Num.of_Z 1) :: removelast (upperBounds r).

(** [lowerBound[i] < v <= upperBound[i]] *)
Definition in_break (r : Renderer) (v : number) (i : nat) : bool :=
  Num.lt (at_index (lowerBounds r) i) v && Num.le v (at_index (upperBounds r) i).

Definition same_uvi_data (u u' : UniqueValueInfo) : Prop :=
  uvi_value u' = uvi_value u /\ uvi_label u' = uvi_label u
  /\ uvi_symbol u' = uvi_symbol u.

Definition same_cbi_data (c c' : ClassBreakInfo) : Prop :=
  cbi_maxValue c' = cbi_maxValue c /\ cbi_label c' = cbi_label c
  /\ cbi_symbol c' = cbi_symbol c.

(** Every property of the renderer and of its entries other than
    [imageUrl] and [defaultImageUrl] is the same in [r'] as in [r]. *)
Definition same_renderer_data (r r' : Renderer) : Prop :=
  r_type r' = r_type r /\ r_symbol r' = r_symbol r /\ r_label r' = r_label r
  /\ field1 r' = field1 r /\ field2 r' = field2 r /\ field3 r' = field3 r
  /\ field r' = field r /\ minValue r' = minValue r
  /\ defaultSymbol r' = defaultSymbol r /\ defaultLabel r' = defaultLabel r
  /\ Forall2 same_uvi_data (uniqueValueInfos r) (uniqueValueInfos r')
  /\ Forall2 same_cbi_data (classBreakInfos r) (classBreakInfos r').

(** The entry [symbolToLegend] returns whenever the conversion fails. *)
Definition error_item : LegendItem :=
  {| label := Some "Error!"; imageData := Some emptySVG;
     contentType := Some "image/svg+xml"; base := "" |}.

(** The branches of a renderer, as [rendererToLegend] walks them: the one
    symbol of a simple renderer; the entries of a unique-value or
    class-breaks renderer, followed by the default symbol when there is
    one, labelled [defaultLabel || '']. *)
Definition default_branch (r : Renderer) : list (option Symbol * option string) :=
  match defaultSymbol r with
  | Some s => [(Some s, Some (defaultLabel_or_empty r))]
  | None => []
  end.

Definition children {A : Type} `{Child A} (l : list A)
  : list (option Symbol * option string) :=
  map (fun child => (child_symbol child, child_label child)) l.

Definition branches (r : Renderer) : list (option Symbol * option string) :=
  if is_str (r_type r) SIMPLE then [(r_symbol r, r_label r)]
  else if is_str (r_type r) UNIQUE_VALUE then
    (children (uniqueValueInfos r) ++ default_branch r)%list
  else if is_str (r_type r) CLASS_BREAKS then
    (children (classBreakInfos r) ++ default_branch r)%list
  else [].

Definition item_key (legItem : LegendItem) : string := str (label legItem).

(** The property keys under which the branches' labels are looked up. *)
Definition branch_keys (r : Renderer) : list string :=
  map (fun b : option Symbol * option string => str b.2) (branches r).

(** The branch's symbol converts without an exception. *)
Definition converts (inherited_text : string -> string)
    (b : option Symbol * option string) : Prop :=
  exists p, convert inherited_text b.1 blank = Normal p.

(** Every branch after the one at index [i] converts. *)
Definition no_later_failure (inherited_text : string -> string) (r : Renderer) (i : nat)
  : Prop :=
  forall j b, (i < j)%nat -> branches r !! j = Some b -> converts inherited_text b.

(** A branch, at index [i], whose icon comes back from the legend: its
    symbol converts, its label is not [__proto__], and is not ['Error!']
    unless every later branch converts as well. *)
Definition round_trips (inherited_text : string -> string) (r : Renderer) (i : nat)
    (b : option Symbol * option string) : Prop :=
  converts inherited_text b
  /\ str b.2 <> "__proto__"
  /\ (str b.2 = "Error!" -> no_later_failure inherited_text r i).

(** ** Levels and thresholds *)

(** The level at index [i] has a scale at or above the threshold. *)
Definition at_or_above (lods : list LOD) (scaleLimit : number) (i : Z) : bool :=
  match lod_at lods i with
  | Some lod => Num.ge (scale lod) scaleLimit
  | None => false
  end.

(** Two lists of levels that differ at most in their first and in their
    last level. *)
Definition same_inner_levels (lods lods' : list LOD) : Prop :=
  length lods' = length lods
  /\ forall i, 0 < i < Z.of_nat (length lods) - 1 -> lod_at lods' i = lod_at lods i.

(** Levels listed from the smallest-scale map to the largest-scale one: no
    level has a greater scale than the one before it. *)
Fixpoint descending (lods : list LOD) : bool :=
  match lods with
  | a :: rest =>
      match rest with
      | b :: _ => Num.ge (scale a) (scale b) && descending rest
      | [] => true
      end
  | [] => true
  end.

(** ** Renderer entries and icons *)

(** The value of a unique-value entry is a string. *)
Definition is_string_value (v : value) : bool :=
  match v with
  | VStr _ => true
  | _ => false
  end.

(** What reading a name that the label lookup does not own gives:
    [undefined], or the member of that name it inherits. *)
Definition not_own (key : string) : image :=
  if inherited key then Inherited key else NoImage.

(** The data URL of the legend entry made for a symbol; the entry's label
    is no part of it. *)
Definition legend_image (inherited_text : string -> string) (symbol : option Symbol)
  : string :=
  dataUrl (symbolToLegend inherited_text symbol None).2.

(** ** Symbols that can be drawn *)

(** The colour array, when there is one, has a fourth (alpha) component. *)
Definition has_alpha (c : option (list number)) : bool :=
  match c with
  | Some c =>
      match c !! 3%nat with
      | Some _ => true
      | None => false
      end
  | None => true
  end.

(** A line symbol is there, with a width and, if it has a colour, with the
    alpha component of that colour. *)
Definition line_drawable (lineSymbol : option Symbol) : bool :=
  match lineSymbol with
  | Some l =>
      has_alpha (s_color l)
      && match s_width l with
         | Some _ => true
         | None => false
         end
  | None => false
  end.

(** A simple symbol that the drawer can draw: a marker or a fill with a
    drawable outline and a usable colour of its own, or a drawable line. *)
Definition drawable (s : Symbol) : bool :=
  if is_str (s_type s) "esriSMS" || is_str (s_type s) "esriSFS" then
    line_drawable (s_outline s) && has_alpha (s_color s)
  else if is_str (s_type s) "esriSLS" || is_str (s_type s) "esriCLS" then
    line_drawable (Some s)
  else false.

(** The symbols that get a legend entry under their own label: a drawable
    simple symbol, and a symbol of any type that is neither simple nor
    text. *)
Definition legend_ready (symbol : option Symbol) : bool :=
  match symbol with
  | Some s =>
      if is_simple_symbol (s_type s) then drawable s
      else negb (is_str (s_type s) "esriTS")
  | None => false
  end.

(** The line logged for a branch whose symbol does not convert. *)
Definition failure_log (inherited_text : string -> string)
    (b : option Symbol * option string) : list log :=
  match convert inherited_text b.1 blank with
  | Normal _ => []
  | Throw e => [LogError "Issue encountered when converting symbol to legend image" (Some e)]
  end.

(** The character [c] occurs in [s]. *)
Fixpoint occurs (c : ascii) (s : string) : bool :=
  match s with
  | EmptyString => false
  | String c' s' => Ascii.eqb c' c || occurs c s'
  end.

(** The opening tag of the 32 by 32 SVG document, in single quotes. *)
Definition svg_head : string :=
  "<svg xmlns='http://www.w3.org/2000/svg' width='32' height='32'>".

(** ** Scale ranges *)

(** The layer is drawn at the scale of this level. *)
Definition on_scale (scaleSet : ScaleSet) (lod : LOD) : Prop :=
  offScale (BasicFC.isOffScale scaleSet (scale lod)) = false.

(** The test a level passes to be the zoom target in the given direction. *)
Definition zoom_target (scaleSet : ScaleSet) (zoomIn : bool) (lod : LOD) : bool :=
  if zoomIn then Num.lt (scale lod) (minScale scaleSet)
  else Num.gt (scale lod) (maxScale scaleSet).

(** ** Lists of visible children *)

(** The number [x] is one of the array's elements. *)
Definition listed (l : list number) (x : number) : bool :=
  existsb (fun y => Num.eq y x) l.

(** No number is listed twice. *)
Fixpoint listed_once (l : list number) : bool :=
  match l with
  | [] => true
  | y :: l' => negb (listed l' y) && listed_once l'
  end.

(** ** Fields *)

Definition field_names (fields : list Field) : list string :=
  map (fun field => str (f_name field)) fields.

(** The value [unAliasAttribs] takes for a field: the attribute under the
    field's name when [attribs] has one, else the one under its alias. *)
Definition picked (attribs : gmap string value) (field : Field) : property :=
  if bool_decide (is_Some (attribs !! str (f_name field)))
  then read attribs (str (f_name field))
  else read attribs (str (f_alias field)).

(** The last field of the list that has the given name. *)
Definition last_named (key : string) (fields : list Field) : option Field :=
  last (List.filter (fun field => (str (f_name field) =? key)%string) fields).

(** The name under which a field is shown. *)
Definition shown_name (fields : list Field) (field : Field) : string :=
  AttribFC.aliasedFieldNameDirect (str (f_name field)) (Some fields).

Definition shown_names (fields : list Field) : list string :=
  map (shown_name fields) fields.

(** A field is shown by its own name, or by a name that no field has. *)
Definition shown_apart (fields : list Field) (field : Field) : bool :=
  (shown_name fields field =? str (f_name field))%string
  || negb (bool_decide (shown_name fields field ∈ field_names fields)).

(** The value a feature has under a name, [undefined] when it has none. *)
Definition own_value (attributes : gmap string value) (key : string) : value :=
  default VUndefined (attributes !! key).

(** The attributes of a feature as a service reports them: the value of each
    field, under the name the field is shown by. *)
Definition aliased (attributes : gmap string value) (fields : list Field)
  : gmap string value :=
  list_to_map (map (fun field => (shown_name fields field,
                                  own_value attributes (str (f_name field)))) fields).

(** The attributes the classifier reads for a renderer. *)
Definition fields_read (r : Renderer) : list string :=
  if is_str (r_type r) SIMPLE then []
  else if is_str (r_type r) UNIQUE_VALUE then
    str (field1 r)
    :: (if truthy (field2 r) then
          str (field2 r) :: (if truthy (field3 r) then [str (field3 r)] else [])
        else [])
  else if is_str (r_type r) CLASS_BREAKS then [str (field r)]
  else [].

(** * Sample inputs

    Concrete renderers, symbols, legends and levels for the closed examples. *)

Definition lods_1000_100 : list LOD :=
  [{| scale := Num.of_Z 1000 |}; {| scale := Num.of_Z 100 |}].

Definition five_levels : list LOD :=
  map (fun z => {| scale := Num.of_Z z |}) [9000; 7000; 5000; 3000; 1000].

(** A reading of numeric strings for the closed examples; none of them
    depends on the choice. *)
Definition no_numeric_strings : string -> number := fun _ => Num.NaN.

(** The text of inherited members for the closed examples; none of them
    prints one. *)
Definition some_inherited_text : string -> string := fun name => "[object " +:+ name +:+ "]".

(** A unique-value renderer on the field [kind], with one entry. *)
Definition uv_kind_renderer : Renderer :=
  {| r_type := Some UNIQUE_VALUE; r_symbol := None; r_label := None;
     r_imageUrl := NoImage;
     field1 := Some "kind"; field2 := None; field3 := None;
     uniqueValueInfos :=
       [{| uvi_value := VStr "road"; uvi_label := Some "Road";
           uvi_symbol := None; uvi_imageUrl := Image "data:road" |}];
     field := None; minValue := Num.NaN; classBreakInfos := [];
     defaultSymbol := None; defaultLabel := None; defaultImageUrl := NoImage |}.

Definition entry_A_B : UniqueValueInfo :=
  {| uvi_value := VStr "A, B"; uvi_label := Some "A and B";
     uvi_symbol := None; uvi_imageUrl := Image "data:a-b" |}.

(** A unique-value renderer keyed on two fields, with the one entry
    ['A, B']. *)
Definition two_field_renderer : Renderer :=
  {| r_type := Some UNIQUE_VALUE; r_symbol := None; r_label := None;
     r_imageUrl := NoImage;
     field1 := Some "field1"; field2 := Some "field2"; field3 := None;
     uniqueValueInfos := [entry_A_B];
     field := None; minValue := Num.NaN; classBreakInfos := [];
     defaultSymbol := None; defaultLabel := None;
     defaultImageUrl := Image "data:default" |}.

Definition attributes_A (second : string) : gmap string value :=
  {[ "field1" := VStr "A"; "field2" := VStr second ]}.

Definition break_entry (maxValue : Z) (name : string) : ClassBreakInfo :=
  {| cbi_maxValue := Num.of_Z maxValue; cbi_label := Some name;
     cbi_symbol := None; cbi_imageUrl := Image ("data:" +:+ name) |}.

(** A class-breaks renderer on the field [population] with the given
    entries above the minimum 0. *)
Definition population_renderer (entries : list ClassBreakInfo) : Renderer :=
  {| r_type := Some CLASS_BREAKS; r_symbol := None; r_label := None;
     r_imageUrl := NoImage;
     field1 := None; field2 := None; field3 := None; uniqueValueInfos := [];
     field := Some "population"; minValue := Num.of_Z 0;
     classBreakInfos := entries;
     defaultSymbol := None; defaultLabel := None;
     defaultImageUrl := Image "data:default" |}.

Definition population (v : number) : gmap string value :=
  {[ "population" := VNum v ]}.

(** A class-breaks renderer on the field [population] with the minimum 1e17
    and the upper bounds 2e17 and 3e17. *)
Definition large_population_renderer : Renderer :=
  {| r_type := Some CLASS_BREAKS; r_symbol := None; r_label := None;
     r_imageUrl := NoImage;
     field1 := None; field2 := None; field3 := None; uniqueValueInfos := [];
     field := Some "population"; minValue := Num.of_Z (10 ^ 17);
     classBreakInfos := [break_entry (2 * 10 ^ 17) "low"; break_entry (3 * 10 ^ 17) "high"];
     defaultSymbol := None; defaultLabel := None;
     defaultImageUrl := Image "data:default" |}.

(** A unique-value renderer keyed on [field1] and on [constructor], a name
    that every object answers to, with the one entry ['A, undefined']. *)
Definition constructor_renderer : Renderer :=
  {| r_type := Some UNIQUE_VALUE; r_symbol := None; r_label := None;
     r_imageUrl := NoImage;
     field1 := Some "field1"; field2 := Some "constructor"; field3 := None;
     uniqueValueInfos :=
       [{| uvi_value := VStr "A, undefined"; uvi_label := Some "A alone";
           uvi_symbol := None; uvi_imageUrl := Image "data:a" |}];
     field := None; minValue := Num.NaN; classBreakInfos := [];
     defaultSymbol := None; defaultLabel := None;
     defaultImageUrl := Image "data:default" |}.

Definition road_legend : Legend :=
  one_layer 0 [{| label := Some "Road"; imageData := Some emptySVG;
                  contentType := Some "image/svg+xml"; base := "" |}].

Definition black : list number := [Num.of_Z 0; Num.of_Z 0; Num.of_Z 0; Num.of_Z 255].

Definition red : list number := [Num.of_Z 255; Num.of_Z 0; Num.of_Z 0; Num.of_Z 128].

Definition solid_line : Symbol :=
  {| s_type := Some "esriSLS"; s_style := Some "esriSLSSolid";
     s_color := Some black; s_width := Some (Num.Fin 15 1);
     s_size := Num.NaN; s_angle := Num.NaN; s_path := None; s_outline := None;
     s_imageData := None; s_contentType := None |}.

Definition marker (style : string) (size : number) : Symbol :=
  {| s_type := Some "esriSMS"; s_style := Some style;
     s_color := Some red; s_width := None;
     s_size := size; s_angle := Num.NaN; s_path := None;
     s_outline := Some solid_line;
     s_imageData := None; s_contentType := None |}.

(** A marker drawn along a path of its own, whose text holds a single
    quote. *)
Definition quoted_path_marker : Symbol :=
  {| s_type := Some "esriSMS"; s_style := Some "esriSMSPath";
     s_color := Some red; s_width := None;
     s_size := Num.of_Z 8; s_angle := Num.NaN; s_path := Some "M 0,0' /><rect x='1";
     s_outline := Some solid_line;
     s_imageData := None; s_contentType := None |}.

Definition solid_fill : Symbol :=
  {| s_type := Some "esriSFS"; s_style := Some "esriSFSSolid";
     s_color := Some red; s_width := None;
     s_size := Num.NaN; s_angle := Num.NaN; s_path := None;
     s_outline := Some solid_line;
     s_imageData := None; s_contentType := None |}.

Definition text_symbol : Symbol :=
  {| s_type := Some "esriTS"; s_style := None; s_color := Some black;
     s_width := None; s_size := Num.NaN; s_angle := Num.NaN; s_path := None;
     s_outline := None; s_imageData := None; s_contentType := None |}.

Definition entry (v name : string) (s : Symbol) : UniqueValueInfo :=
  {| uvi_value := VStr v; uvi_label := Some name; uvi_symbol := Some s;
     uvi_imageUrl := NoImage |}.

(** A unique-value renderer with the given entries and a default symbol
    labelled ['Other']. *)
Definition places_renderer (entries : list UniqueValueInfo) : Renderer :=
  {| r_type := Some UNIQUE_VALUE; r_symbol := None; r_label := None;
     r_imageUrl := NoImage;
     field1 := Some "kind"; field2 := None; field3 := None;
     uniqueValueInfos := entries;
     field := None; minValue := Num.NaN; classBreakInfos := [];
     defaultSymbol := Some solid_line; defaultLabel := Some "Other";
     defaultImageUrl := NoImage |}.

Definition towns_and_parks : Renderer :=
  places_renderer [entry "town" "Town" (marker "esriSMSCircle" (Num.of_Z 40));
                   entry "park" "Park" solid_fill].

(** A simple renderer that draws every feature with a text symbol. *)
Definition cities_renderer : Renderer :=
  {| r_type := Some SIMPLE; r_symbol := Some text_symbol; r_label := Some "Cities";
     r_imageUrl := NoImage;
     field1 := None; field2 := None; field3 := None; uniqueValueInfos := [];
     field := None; minValue := Num.NaN; classBreakInfos := [];
     defaultSymbol := None; defaultLabel := None; defaultImageUrl := NoImage |}.

Definition picture_marker : Symbol :=
  {| s_type := Some "esriPMS"; s_style := None; s_color := None; s_width := None;
     s_size := Num.of_Z 12; s_angle := Num.NaN; s_path := None; s_outline := None;
     s_imageData := Some "iVBORw0KGgo="; s_contentType := Some "image/png" |}.

Definition legend_item (name data : string) : LegendItem :=
  {| label := Some name; imageData := Some data;
     contentType := Some "image/svg+xml"; base := "" |}.

(** A layer drawn between the scales 6000 and 2000. *)
Definition between_6000_and_2000 : ScaleSet :=
  {| minScale := Num.of_Z 6000; maxScale := Num.of_Z 2000 |}.

(** Reads a one-digit index; any other string is no number. *)
Definition one_digit (s : string) : number :=
  match s with
  | String c EmptyString =>
      if (48 <=? nat_of_ascii c)%nat && (nat_of_ascii c <=? 57)%nat
      then Num.of_Z (Z.of_nat (nat_of_ascii c) - 48)
      else Num.NaN
  | _ => Num.NaN
  end.

Definition text_field (name alias : string) : Field :=
  {| f_name := Some name; f_alias := Some alias; f_type := Some "esriFieldTypeString" |}.

(** Two fields, the first shown by an alias, the second by its name. *)
Definition kind_and_name : list Field :=
  [text_field "kind" "Kind of place"; text_field "name" ""].

Definition a_town : gmap string value :=
  {[ "kind" := VStr "town"; "name" := VStr "Orillia" ]}.

(** A circle marker that no colour array of three components can fill. *)
Definition marker_without_alpha : Symbol :=
  {| s_type := Some "esriSMS"; s_style := Some "esriSMSCircle";
     s_color := Some [Num.of_Z 255; Num.of_Z 0; Num.of_Z 0]; s_width := None;
     s_size := Num.of_Z 8; s_angle := Num.NaN; s_path := None;
     s_outline := Some solid_line;
     s_imageData := None; s_contentType := None |}.

(** The icon of [solid_line]. *)
Definition solid_line_icon : string :=
  "<svg xmlns='http://www.w3.org/2000/svg' width='32' height='32'>" +:+
  "<path d='M 4,4 28,28' stroke='rgb(0,0,0)' stroke-opacity='255'" +:+
  " stroke-width='1.5' stroke-linecap='butt' stroke-linejoin='miter'" +:+
  " stroke-miterlimit='4' stroke-dasharray='none' />" +:+
  "</svg>".

(** Three entries, of which the second is a text symbol and the third
    cannot be drawn, and a default. *)
Definition mixed_places : Renderer :=
  places_renderer [entry "town" "Town" (marker "esriSMSSquare" (Num.of_Z 8));
                   entry "name" "Name" text_symbol;
                   entry "pond" "Pond" marker_without_alpha].

(** * Properties *)

(** ** Numbers: order facts used below *)

Lemma pow10_pos (e : nat) : 0 < Num.pow10 e.
Proof. unfold Num.pow10. apply Z.pow_pos_nonneg; lia. Qed.

Lemma pow10_S (e : nat) : Num.pow10 (S e) = 10 * Num.pow10 e.
Proof. unfold Num.pow10. rewrite Nat2Z.inj_succ, Z.pow_succ_r; lia. Qed.

Lemma pow10_add (a b : nat) : Num.pow10 (a + b) = Num.pow10 a * Num.pow10 b.
Proof. unfold Num.pow10. rewrite Nat2Z.inj_add, Z.pow_add_r; lia. Qed.

(** The JavaScript comparisons agree, on finite numbers, with those of the
    rationals. *)

Lemma pos_pow10 (e : nat) : Z.pos (Z.to_pos (Num.pow10 e)) = Num.pow10 e.
Proof. apply Z2Pos.id, pow10_pos. Qed.

Lemma lt_toQ (a b : number) :
  Num.finite a -> Num.finite b -> (Num.lt a b = true <-> (Num.toQ a < Num.toQ b)%Q).
Proof.
  destruct a as [| | |m1 e1], b as [| | |m2 e2]; try contradiction. intros _ _.
  unfold Num.lt, Num.toQ, Qlt. cbn [Qnum Qden]. rewrite !pos_pow10. apply Z.ltb_lt.
Qed.

Lemma le_toQ (a b : number) :
  Num.finite a -> Num.finite b -> (Num.le a b = true <-> (Num.toQ a <= Num.toQ b)%Q).
Proof.
  destruct a as [| | |m1 e1], b as [| | |m2 e2]; try contradiction. intros _ _.
  unfold Num.le, Num.lt, Num.toQ, Qle. cbn [Qnum Qden Num.is_NaN negb andb].
  rewrite !pos_pow10, Z.ltb_antisym, negb_involutive. apply Z.leb_le.
Qed.

Lemma eq_toQ (a b : number) :
  Num.finite a -> Num.finite b -> (Num.eq a b = true <-> (Num.toQ a == Num.toQ b)%Q).
Proof.
  destruct a as [| | |m1 e1], b as [| | |m2 e2]; try contradiction. intros _ _.
  unfold Num.eq, Num.toQ, Qeq. cbn [Qnum Qden]. rewrite !pos_pow10. apply Z.eqb_eq.
Qed.

Lemma opp_toQ (a : number) :
  Num.finite a -> Num.finite (Num.opp a) /\ (Num.toQ (Num.opp a) == - Num.toQ a)%Q.
Proof. destruct a; try contradiction. intros _. split; [exact I|reflexivity]. Qed.

Lemma min_toQ (a b : number) :
  Num.finite a -> Num.finite b ->
  Num.finite (Num.min a b) /\ (Num.toQ (Num.min a b) == Qmin (Num.toQ a) (Num.toQ b))%Q.
Proof.
  intros Ha Hb.
  assert (Hmin : Num.min a b = if Num.lt b a then b else a).
  { destruct a, b; try contradiction; reflexivity. }
  rewrite Hmin. destruct (Num.lt b a) eqn:Hlt.
  - split; [exact Hb|]. apply (lt_toQ b a Hb Ha) in Hlt.
    rewrite Q.min_r; [reflexivity|]. apply Qlt_le_weak, Hlt.
  - split; [exact Ha|]. rewrite Q.min_l; [reflexivity|].
    apply Qnot_lt_le. intros H. apply (lt_toQ b a Hb Ha) in H. congruence.
Qed.

Lemma num_le_lt_trans (a b c : number) :
  Num.le a b = true -> Num.lt b c = true -> Num.lt a c = true.
Proof.
  destruct a as [| | |m1 e1], b as [| | |m2 e2], c as [| | |m3 e3];
    try discriminate; try reflexivity.
  intros Hab Hbc.
  apply (le_toQ (Num.Fin m1 e1) (Num.Fin m2 e2) I I) in Hab.
  apply (lt_toQ (Num.Fin m2 e2) (Num.Fin m3 e3) I I) in Hbc.
  apply (lt_toQ (Num.Fin m1 e1) (Num.Fin m3 e3) I I).
  eapply Qle_lt_trans; eassumption.
Qed.

Lemma num_le_trans (a b c : number) :
  Num.le a b = true -> Num.le b c = true -> Num.le a c = true.
Proof.
  destruct a as [| | |m1 e1], b as [| | |m2 e2], c as [| | |m3 e3];
    try discriminate; try reflexivity.
  intros Hab Hbc.
  apply (le_toQ (Num.Fin m1 e1) (Num.Fin m2 e2) I I) in Hab.
  apply (le_toQ (Num.Fin m2 e2) (Num.Fin m3 e3) I I) in Hbc.
  apply (le_toQ (Num.Fin m1 e1) (Num.Fin m3 e3) I I).
  eapply Qle_trans; eassumption.
Qed.

Lemma num_lt_le_trans (a b c : number) :
  Num.lt a b = true -> Num.le b c = true -> Num.lt a c = true.
Proof.
  destruct a as [| | |m1 e1], b as [| | |m2 e2], c as [| | |m3 e3];
    try discriminate; try reflexivity.
  intros Hab Hbc.
  apply (lt_toQ (Num.Fin m1 e1) (Num.Fin m2 e2) I I) in Hab.
  apply (le_toQ (Num.Fin m2 e2) (Num.Fin m3 e3) I I) in Hbc.
  apply (lt_toQ (Num.Fin m1 e1) (Num.Fin m3 e3) I I).
  eapply Qlt_le_trans; eassumption.
Qed.

Lemma num_lt_asym (a b : number) : Num.lt a b = true -> Num.lt b a = false.
Proof.
  destruct a as [| | |m1 e1], b as [| | |m2 e2]; try discriminate; try reflexivity.
  unfold Num.lt. intros H. apply Z.ltb_lt in H. apply Z.ltb_ge. lia.
Qed.

(** Only numbers take part in a comparison that holds. *)
Lemma num_lt_not_NaN (a b : number) :
  Num.lt a b = true -> Num.is_NaN a = false /\ Num.is_NaN b = false.
Proof. destruct a, b; try discriminate; split; reflexivity. Qed.

Lemma num_lt_trans (a b c : number) :
  Num.lt a b = true -> Num.lt b c = true -> Num.lt a c = true.
Proof.
  intros Hab Hbc. apply (num_lt_le_trans a b c Hab).
  unfold Num.le. destruct (num_lt_not_NaN b c Hbc) as [-> ->].
  rewrite (num_lt_asym b c Hbc). reflexivity.
Qed.

Lemma num_le_refl (a : number) : Num.is_NaN a = false -> Num.le a a = true.
Proof.
  destruct a as [| | |m e]; try discriminate; try reflexivity.
  intros _. apply (le_toQ (Num.Fin m e) (Num.Fin m e) I I). apply Qle_refl.
Qed.

(** Strict equality of numbers is symmetric and transitive (and, NaN
    apart, reflexive). *)
Lemma num_eq_sym (a b : number) : Num.eq a b = Num.eq b a.
Proof.
  destruct a as [| | |m1 e1], b as [| | |m2 e2]; try reflexivity.
  unfold Num.eq. apply Z.eqb_sym.
Qed.

Lemma num_eq_trans (a b c : number) :
  Num.eq a b = true -> Num.eq b c = true -> Num.eq a c = true.
Proof.
  destruct a as [| | |m1 e1], b as [| | |m2 e2], c as [| | |m3 e3];
    try discriminate; try reflexivity.
  intros Hab Hbc.
  apply (eq_toQ (Num.Fin m1 e1) (Num.Fin m2 e2) I I) in Hab.
  apply (eq_toQ (Num.Fin m2 e2) (Num.Fin m3 e3) I I) in Hbc.
  apply (eq_toQ (Num.Fin m1 e1) (Num.Fin m3 e3) I I).
  rewrite Hab. exact Hbc.
Qed.

Lemma num_eq_refl (a : number) : Num.is_NaN a = false -> Num.eq a a = true.
Proof.
  destruct a as [| | |m e]; try discriminate; try reflexivity.
  intros _. apply Z.eqb_refl.
Qed.

(** ** Numbers: rounding to doubles *)































(** *** Decimals *)







(** *** The printed decimal reads back *)




(** *** Order *)






(** *** The order of doubles *)










(** *** Sums and halves keep the order *)






(** *** Equal numbers, minima *)





Lemma num_lt_le (a b : number) : Num.lt a b = true -> Num.le a b = true.
Proof.
  intros H. unfold Num.le. destruct (num_lt_not_NaN a b H) as [-> ->].
  rewrite (num_lt_asym a b H). reflexivity.
Qed.


Lemma min_unfold (a b : number) :
  Num.is_NaN a = false -> Num.is_NaN b = false ->
  Num.min a b = if Num.lt b a then b else a.
Proof. destruct a, b; try discriminate; reflexivity. Qed.

Lemma min_le_l (a b : number) :
  Num.is_NaN a = false -> Num.is_NaN b = false -> Num.le (Num.min a b) a = true.
Proof.
  intros Ha Hb. rewrite (min_unfold a b Ha Hb). destruct (Num.lt b a) eqn:E.
  - apply num_lt_le, E.
  - apply num_le_refl, Ha.
Qed.









(** Number::toString on some decimals. *)
Example to_string_samples :
  map Num.to_string
      [Num.Fin 14 0; Num.Fin 140 1; Num.Fin 25 1; Num.Fin (-5) 3; Num.Fin 1001 2;
       Num.Fin 1 7; Num.Fin 123 0; Num.Fin 1000 0; Num.Fin 15 8;
       Num.Fin 1 6; Num.opp (Num.Fin 0 0); Num.Fin (10 ^ 21) 0; Num.Fin (10 ^ 20) 0]
  = ["14"; "14"; "2.5"; "-0.005"; "10.01"; "1e-7"; "123"; "1000"; "1.5e-7";
     "0.000001"; "0"; "1e+21"; "100000000000000000000"].
Proof. vm_compute. reflexivity. Qed.

(** ** The scale-level resolver *)

Lemma lod_at_in_bounds (lods : list LOD) (i : Z) :
  0 <= i < Z.of_nat (length lods) -> exists lod, lod_at lods i = Some lod.
Proof.
  intros Hi. unfold lod_at.
  destruct (Z.ltb_spec i 0) as [Hneg|_]; [lia|].
  destruct (lods !! Z.to_nat i) as [lod|] eqn:E; [eauto|].
  apply lookup_ge_None in E. lia.
Qed.

Lemma lod_at_out_of_bounds (lods : list LOD) (i : Z) :
  Z.of_nat (length lods) <= i -> lod_at lods i = None.
Proof.
  intros Hi. unfold lod_at.
  destruct (Z.ltb_spec i 0) as [|_]; [reflexivity|].
  apply lookup_ge_None. lia.
Qed.

Lemma midpoint_between (low high : Z) :
  low <= high -> low <= (high + low) / 2 <= high.
Proof.
  intros H. split.
  - apply Z.div_le_lower_bound; lia.
  - apply Z.div_le_upper_bound; lia.
Qed.

(** While the three cursors stay ordered inside the list, no probe of the
    loop is out of bounds. *)
Lemma binary_search_in_bounds (lods : list LOD) (scaleLimit : number) (fuel : nat) :
  forall currentLod lowLod highLod e,
    0 <= lowLod -> lowLod <= currentLod -> currentLod <= highLod ->
    highLod < Z.of_nat (length lods) ->
    binary_search fuel lods scaleLimit currentLod lowLod highLod <> Throws e.
Proof.
  induction fuel as [|fuel IH]; intros cur low high e Hlow Hlc Hch Hhigh; simpl.
  - discriminate.
  - destruct (lod_at_in_bounds lods cur) as [lod ->]; [lia|].
    destruct (Num.ge (scale lod) scaleLimit).
    + destruct (high =? cur + 1); [discriminate|].
      pose proof (midpoint_between cur high Hch).
      apply IH; lia.
    + destruct (cur =? low + 1); [discriminate|].
      pose proof (midpoint_between low cur Hlc).
      apply IH; lia.
Qed.

Lemma first_probe_in_bounds (n : Z) : 2 <= n -> 0 <= (n + 1) / 2 <= n - 1.
Proof.
  intros H. split.
  - apply Z.div_le_lower_bound; lia.
  - assert ((n + 1) / 2 < n) by (apply Z.div_lt_upper_bound; lia). lia.
Qed.

Lemma first_probe_short (n : Z) : 0 <= n < 2 -> (n + 1) / 2 = n.
Proof.
  intros H. assert (n = 0 \/ n = 1) as [->| ->] by lia; reflexivity.
Qed.

(** C10. [getZoomLevel] reads past the end of the level list, and fails on
    the missing element's [.scale], exactly when the list has fewer than two
    levels and the threshold is not zero: with one level the first probe is
    index ceil(1/2) = 1.  Under the precondition "at least two levels, or a
    zero threshold" the failing branch is unreachable, whatever the fuel. *)
Theorem getZoomLevel_out_of_bounds_iff (lods : list LOD) (maxScale : number) :
  (length lods = 1%nat -> (Z.of_nat (length lods) + 1) / 2 = 1 /\ lod_at lods 1 = None)
  /\ ((exists fuel e, getZoomLevel fuel lods maxScale = Throws e)
      <-> ~ ((2 <= length lods)%nat \/ Num.eq maxScale (Num.of_Z 0) = true))
  /\ (~ ((2 <= length lods)%nat \/ Num.eq maxScale (Num.of_Z 0) = true) ->
      forall fuel, getZoomLevel (S fuel) lods maxScale = Throws TypeError).
Proof.
  assert (Hfail : ~ ((2 <= length lods)%nat \/ Num.eq maxScale (Num.of_Z 0) = true) ->
                  forall fuel, getZoomLevel (S fuel) lods maxScale = Throws TypeError).
  { intros Hpre fuel. unfold getZoomLevel.
    destruct (Num.eq maxScale (Num.of_Z 0)) eqn:Ez; [tauto|].
    assert (Hlen : (length lods < 2)%nat) by lia.
    simpl. rewrite first_probe_short by lia.
    rewrite lod_at_out_of_bounds by lia. reflexivity. }
  split; [|split]; [| |exact Hfail].
  - intros Hlen. rewrite Hlen. split; [reflexivity|].
    apply lod_at_out_of_bounds. lia.
  - split.
    + intros (fuel & e & Hthrow) [Hlen|Hzero].
      * unfold getZoomLevel in Hthrow.
        destruct (Num.eq maxScale (Num.of_Z 0)); [discriminate|].
        pose proof (first_probe_in_bounds (Z.of_nat (length lods))) as Hp.
        revert Hthrow. apply binary_search_in_bounds; lia.
      * unfold getZoomLevel in Hthrow. rewrite Hzero in Hthrow. discriminate.
    + intros Hpre. exists 1%nat, TypeError. apply Hfail, Hpre.
Qed.

(** Once both cursors sit on the last of two levels the loop repeats the
    same probe for ever. *)
Lemma binary_search_stuck (lod0 lod1 : LOD) (scaleLimit : number) (fuel : nat) :
  Num.ge (scale lod1) scaleLimit = true ->
  binary_search fuel [lod0; lod1] scaleLimit 1 1 1 = OutOfFuel.
Proof.
  intros Hge. induction fuel as [|fuel IH]; [reflexivity|].
  simpl. unfold lod_at. simpl. rewrite Hge. simpl. exact IH.
Qed.

(** C6 (failing input). On the two levels with scales [1000, 100] and the
    threshold 50 the loop of [getZoomLevel] never sets [found]: no amount of
    fuel makes the call return. *)
Theorem getZoomLevel_two_levels_diverges :
  forall fuel, getZoomLevel fuel lods_1000_100 (Num.of_Z 50) = OutOfFuel.
Proof.
  intros [|fuel]; [reflexivity|].
  unfold getZoomLevel. simpl. unfold lod_at. simpl.
  apply binary_search_stuck. reflexivity.
Qed.

(** X1. On the two levels with scales [1000, 100] the threshold 500 gives
    index 0; the threshold 0 gives the last index of any list of levels. *)
Theorem getZoomLevel_threshold_examples :
  (forall fuel, getZoomLevel (S fuel) lods_1000_100 (Num.of_Z 500) = Returns 0)
  /\ (forall fuel lods maxScale,
        Num.eq maxScale (Num.of_Z 0) = true ->
        getZoomLevel fuel lods maxScale = Returns (Z.of_nat (length lods) - 1))
  /\ (forall fuel, getZoomLevel fuel lods_1000_100 (Num.of_Z 0) = Returns 1).
Proof.
  split; [intros fuel; reflexivity|]. split; [|intros fuel; reflexivity].
  intros fuel lods maxScale Hzero. unfold getZoomLevel. rewrite Hzero. reflexivity.
Qed.

(** With the probe strictly between the two cursors every iteration
    narrows the interval, so the loop returns within [highLod - lowLod]
    iterations, and the index it returns lies between the cursors. *)
Lemma binary_search_returns (lods : list LOD) (scaleLimit : number) (n : nat) :
  forall fuel currentLod lowLod highLod,
    0 <= lowLod -> lowLod < currentLod -> currentLod < highLod ->
    highLod < Z.of_nat (length lods) ->
    highLod - lowLod <= Z.of_nat n ->
    (n <= fuel)%nat ->
    exists i, binary_search fuel lods scaleLimit currentLod lowLod highLod = Returns i
              /\ lowLod <= i < highLod.
Proof.
  induction n as [|n IH]; intros fuel cur low high Hlow Hlc Hch Hhigh Hn Hfuel; [lia|].
  destruct fuel as [|fuel]; [lia|]. simpl.
  destruct (lod_at_in_bounds lods cur) as [lod ->]; [lia|].
  destruct (Num.ge (scale lod) scaleLimit).
  - destruct (Z.eqb_spec high (cur + 1)) as [->|Hne].
    + exists cur. split; [|lia]. f_equal.
      replace (cur + 1 + cur) with (1 + cur * 2) by lia.
      rewrite Z.div_add by lia. reflexivity.
    + assert (cur + 1 <= (high + cur) / 2 < high).
      { split; [apply Z.div_le_lower_bound; lia|apply Z.div_lt_upper_bound; lia]. }
      destruct (IH fuel ((high + cur) / 2) cur high) as (i & Hi & Hr); try lia.
      exists i. split; [exact Hi|lia].
  - destruct (Z.eqb_spec cur (low + 1)) as [->|Hne].
    + exists low. split; [|lia]. f_equal.
      replace (low + 1 + low) with (1 + low * 2) by lia.
      rewrite Z.div_add by lia. reflexivity.
    + assert (low + 1 <= (cur + low) / 2 < cur).
      { split; [apply Z.div_le_lower_bound; lia|apply Z.div_lt_upper_bound; lia]. }
      destruct (IH fuel ((cur + low) / 2) low cur) as (i & Hi & Hr); try lia.
      exists i. split; [exact Hi|lia].
Qed.

(** X2. On four levels or more [getZoomLevel] returns, whatever the
    threshold, within as many iterations as there are levels, and the
    index it returns is one of the list. *)
Theorem getZoomLevel_returns_from_four_levels (lods : list LOD) (maxScale : number)
    (fuel : nat) :
  (4 <= length lods)%nat ->
  (length lods <= fuel)%nat ->
  exists i, getZoomLevel fuel lods maxScale = Returns i
            /\ 0 <= i < Z.of_nat (length lods).
Proof.
  intros Hlen Hfuel. unfold getZoomLevel.
  destruct (Num.eq maxScale (Num.of_Z 0)).
  - eexists. split; [reflexivity|lia].
  - assert (1 <= (Z.of_nat (length lods) + 1) / 2 < Z.of_nat (length lods) - 1).
    { split; [apply Z.div_le_lower_bound; lia|apply Z.div_lt_upper_bound; lia]. }
    destruct (binary_search_returns lods maxScale (length lods) fuel
                ((Z.of_nat (length lods) + 1) / 2) 0 (Z.of_nat (length lods) - 1))
      as (i & Hi & Hr); try lia.
    exists i. split; [exact Hi|lia].
Qed.

(** X3. Two levels and a threshold other than zero: the search returns 0
    when the second scale is below the threshold, and never returns
    otherwise. *)
Theorem getZoomLevel_two_levels (lod0 lod1 : LOD) (maxScale : number) :
  Num.eq maxScale (Num.of_Z 0) = false ->
  (Num.ge (scale lod1) maxScale = false ->
   forall fuel, getZoomLevel (S fuel) [lod0; lod1] maxScale = Returns 0)
  /\ (Num.ge (scale lod1) maxScale = true ->
      forall fuel, getZoomLevel fuel [lod0; lod1] maxScale = OutOfFuel).
Proof.
  intros Hz. split; intros Hge fuel; unfold getZoomLevel; rewrite Hz.
  - simpl. unfold lod_at. simpl. rewrite Hge. reflexivity.
  - destruct fuel as [|fuel]; [reflexivity|].
    simpl. unfold lod_at. simpl. rewrite Hge. simpl.
    apply binary_search_stuck, Hge.
Qed.

Lemma getZoomLevel_returns_from_four_levels_witness :
  exists i, getZoomLevel 5 five_levels (Num.of_Z 4000) = Returns i
            /\ 0 <= i < Z.of_nat (length five_levels).
Proof.
  apply (getZoomLevel_returns_from_four_levels five_levels (Num.of_Z 4000) 5).
  - simpl. lia.
  - simpl. lia.
Defined.

Example getZoomLevel_five_levels :
  map (fun z => getZoomLevel 5 five_levels (Num.of_Z z)) [9500; 8000; 4000; 2000; 500]
  = [Returns 0; Returns 0; Returns 2; Returns 3; Returns 3].
Proof. vm_compute. reflexivity. Qed.

Lemma getZoomLevel_two_levels_witness :
  (forall fuel, getZoomLevel (S fuel) lods_1000_100 (Num.of_Z 500) = Returns 0)
  /\ (forall fuel, getZoomLevel fuel lods_1000_100 (Num.of_Z 100) = OutOfFuel).
Proof.
  split.
  - apply (getZoomLevel_two_levels {| scale := Num.of_Z 1000 |} {| scale := Num.of_Z 100 |}
                                   (Num.of_Z 500)); reflexivity.
  - apply (getZoomLevel_two_levels {| scale := Num.of_Z 1000 |} {| scale := Num.of_Z 100 |}
                                   (Num.of_Z 100)); reflexivity.
Defined.

(** *** Which level the search returns *)

Lemma halve_odd (k : Z) : (k + 1 + k) / 2 = k.
Proof.
  replace (k + 1 + k) with (1 + k * 2) by lia.
  rewrite Z.div_add by lia. reflexivity.
Qed.

(** The loop keeps a level at or above the threshold under [lowLod] and a
    level below it under [highLod], each unless the cursor still has its
    initial value; it returns [lowLod] once the two are neighbours. *)
Lemma binary_search_brackets (lods : list LOD) (scaleLimit : number) (n : nat) :
  forall fuel currentLod lowLod highLod,
    0 <= lowLod -> lowLod < currentLod -> currentLod < highLod ->
    highLod < Z.of_nat (length lods) ->
    highLod - lowLod <= Z.of_nat n ->
    (n <= fuel)%nat ->
    (lowLod = 0 \/ at_or_above lods scaleLimit lowLod = true) ->
    (highLod = Z.of_nat (length lods) - 1
     \/ at_or_above lods scaleLimit highLod = false) ->
    exists i, binary_search fuel lods scaleLimit currentLod lowLod highLod = Returns i
              /\ lowLod <= i < highLod
              /\ (i = 0 \/ at_or_above lods scaleLimit i = true)
              /\ (i + 1 = Z.of_nat (length lods) - 1
                  \/ at_or_above lods scaleLimit (i + 1) = false).
Proof.
  induction n as [|n IH];
    intros fuel cur low high Hlow Hlc Hch Hhigh Hn Hfuel Hl Hh; [lia|].
  destruct fuel as [|fuel]; [lia|]. simpl.
  destruct (lod_at_in_bounds lods cur) as [lod Hlod]; [lia|]. rewrite Hlod.
  assert (Hcur : at_or_above lods scaleLimit cur = Num.ge (scale lod) scaleLimit).
  { unfold at_or_above. rewrite Hlod. reflexivity. }
  destruct (Num.ge (scale lod) scaleLimit).
  - destruct (Z.eqb_spec high (cur + 1)) as [->|Hne].
    + exists cur. rewrite halve_odd. repeat split; try lia; auto.
    + assert (cur + 1 <= (high + cur) / 2 < high).
      { split; [apply Z.div_le_lower_bound; lia|apply Z.div_lt_upper_bound; lia]. }
      destruct (IH fuel ((high + cur) / 2) cur high) as (i & Hi & Hr & Hbr);
        try lia; auto.
      exists i. repeat split; try lia; tauto.
  - destruct (Z.eqb_spec cur (low + 1)) as [->|Hne].
    + exists low. rewrite halve_odd. repeat split; try lia; auto.
    + assert (low + 1 <= (cur + low) / 2 < cur).
      { split; [apply Z.div_le_lower_bound; lia|apply Z.div_lt_upper_bound; lia]. }
      destruct (IH fuel ((cur + low) / 2) low cur) as (i & Hi & Hr & Hbr);
        try lia; auto.
      exists i. repeat split; try lia; tauto.
Qed.

Lemma getZoomLevel_brackets (lods : list LOD) (maxScale : number) (fuel : nat) :
  (4 <= length lods)%nat ->
  (length lods <= fuel)%nat ->
  Num.eq maxScale (Num.of_Z 0) = false ->
  exists i, getZoomLevel fuel lods maxScale = Returns i
            /\ 0 <= i <= Z.of_nat (length lods) - 2
            /\ (i = 0 \/ at_or_above lods maxScale i = true)
            /\ (i = Z.of_nat (length lods) - 2
                \/ at_or_above lods maxScale (i + 1) = false).
Proof.
  intros Hlen Hfuel Hz. unfold getZoomLevel. rewrite Hz.
  assert (1 <= (Z.of_nat (length lods) + 1) / 2 < Z.of_nat (length lods) - 1).
  { split; [apply Z.div_le_lower_bound; lia|apply Z.div_lt_upper_bound; lia]. }
  destruct (binary_search_brackets lods maxScale (length lods) fuel
              ((Z.of_nat (length lods) + 1) / 2) 0 (Z.of_nat (length lods) - 1))
    as (i & Hi & Hr & Hlo & Hhi); try lia; auto.
  exists i. repeat split; try lia; [exact Hi|exact Hlo|].
  destruct Hhi as [Hhi|Hhi]; [left; lia|right; exact Hhi].
Qed.

(** While the cursor is strictly between the two ends of the list, the
    loop reads the levels strictly between them only. *)
Lemma binary_search_inner (lods lods' : list LOD) (scaleLimit : number) :
  same_inner_levels lods lods' ->
  forall fuel currentLod lowLod highLod,
    0 <= lowLod -> lowLod < currentLod -> currentLod < highLod ->
    highLod < Z.of_nat (length lods) ->
    binary_search fuel lods' scaleLimit currentLod lowLod highLod
    = binary_search fuel lods scaleLimit currentLod lowLod highLod.
Proof.
  intros [Hlen Hsame]. induction fuel as [|fuel IH];
    intros cur low high Hlow Hlc Hch Hhigh; [reflexivity|].
  simpl. rewrite (Hsame cur) by lia.
  destruct (lod_at lods cur) as [lod|]; [|reflexivity].
  destruct (Num.ge (scale lod) scaleLimit).
  - destruct (Z.eqb_spec high (cur + 1)) as [->|Hne]; [reflexivity|].
    assert (cur + 1 <= (high + cur) / 2 < high).
    { split; [apply Z.div_le_lower_bound; lia|apply Z.div_lt_upper_bound; lia]. }
    apply IH; lia.
  - destruct (Z.eqb_spec cur (low + 1)) as [->|Hne]; [reflexivity|].
    assert (low + 1 <= (cur + low) / 2 < cur).
    { split; [apply Z.div_le_lower_bound; lia|apply Z.div_lt_upper_bound; lia]. }
    apply IH; lia.
Qed.

Lemma getZoomLevel_inner (lods lods' : list LOD) (maxScale : number) (fuel : nat) :
  (4 <= length lods)%nat ->
  same_inner_levels lods lods' ->
  getZoomLevel fuel lods' maxScale = getZoomLevel fuel lods maxScale.
Proof.
  intros Hlen Hsame. unfold getZoomLevel. rewrite (proj1 Hsame).
  destruct (Num.eq maxScale (Num.of_Z 0)); [reflexivity|].
  assert (1 <= (Z.of_nat (length lods) + 1) / 2 < Z.of_nat (length lods) - 1).
  { split; [apply Z.div_le_lower_bound; lia|apply Z.div_lt_upper_bound; lia]. }
  apply binary_search_inner; [exact Hsame|lia..].
Qed.

(** X7. On four levels or more and a threshold other than zero,
    [getZoomLevel] returns an index [i] that is never the last one, such
    that level [i] is at or above the threshold unless [i] is 0, and level
    [i + 1] is below it unless [i + 1] is the last level.  The first and the
    last level are never compared with the threshold: the call ends in the
    same way on every list that differs from [lods] in those two levels
    only. *)
Theorem getZoomLevel_brackets_threshold (lods : list LOD) (maxScale : number)
    (fuel : nat) :
  (4 <= length lods)%nat ->
  (length lods <= fuel)%nat ->
  Num.eq maxScale (Num.of_Z 0) = false ->
  (exists i, getZoomLevel fuel lods maxScale = Returns i
             /\ 0 <= i <= Z.of_nat (length lods) - 2
             /\ (i = 0 \/ at_or_above lods maxScale i = true)
             /\ (i = Z.of_nat (length lods) - 2
                 \/ at_or_above lods maxScale (i + 1) = false))
  /\ (forall lods', same_inner_levels lods lods' ->
                    getZoomLevel fuel lods' maxScale = getZoomLevel fuel lods maxScale).
Proof.
  intros Hlen Hfuel Hz. split.
  - apply getZoomLevel_brackets; assumption.
  - intros lods' Hsame. apply getZoomLevel_inner; assumption.
Qed.

Lemma getZoomLevel_brackets_threshold_witness :
  (exists i, getZoomLevel 5 five_levels (Num.of_Z 4000) = Returns i
             /\ 0 <= i <= Z.of_nat (length five_levels) - 2
             /\ (i = 0 \/ at_or_above five_levels (Num.of_Z 4000) i = true)
             /\ (i = Z.of_nat (length five_levels) - 2
                 \/ at_or_above five_levels (Num.of_Z 4000) (i + 1) = false))
  /\ (forall lods', same_inner_levels five_levels lods' ->
                    getZoomLevel 5 lods' (Num.of_Z 4000)
                    = getZoomLevel 5 five_levels (Num.of_Z 4000)).
Proof.
  apply (getZoomLevel_brackets_threshold five_levels (Num.of_Z 4000) 5).
  - simpl. lia.
  - simpl. lia.
  - reflexivity.
Defined.

(** The search on five levels does not read the first and the last one:
    with 1 for the first scale and 8000 for the last, the lookups of
    [getZoomLevel_five_levels] end in the same way. *)
Example getZoomLevel_five_levels_ends :
  let lods' := map (fun z => {| scale := Num.of_Z z |}) [1; 7000; 5000; 3000; 8000] in
  same_inner_levels five_levels lods'
  /\ map (fun z => getZoomLevel 5 lods' (Num.of_Z z)) [9500; 8000; 4000; 2000; 500]
     = [Returns 0; Returns 0; Returns 2; Returns 3; Returns 3].
Proof.
  cbv zeta. split; [|vm_compute; reflexivity].
  split; [reflexivity|]. intros i Hi. simpl in Hi.
  assert (Hc : i = 1 \/ i = 2 \/ i = 3) by lia.
  destruct Hc as [->|[->| ->]]; reflexivity.
Qed.

Lemma descending_lookup (lods : list LOD) :
  descending lods = true ->
  forall i a b, lods !! i = Some a -> lods !! S i = Some b ->
                Num.ge (scale a) (scale b) = true.
Proof.
  induction lods as [|x lods IH]; intros Hdesc i a b Ha Hb; [discriminate|].
  destruct lods as [|y lods]; [destruct i; discriminate|].
  cbn [descending] in Hdesc. apply andb_prop in Hdesc as [Hxy Hdesc].
  destruct i as [|i].
  - injection Ha as <-. injection Hb as <-. exact Hxy.
  - apply (IH Hdesc i a b Ha Hb).
Qed.

Lemma descending_le (lods : list LOD) :
  descending lods = true ->
  forall (d i : nat) a b,
    lods !! i = Some a -> lods !! (i + S d)%nat = Some b ->
    Num.ge (scale a) (scale b) = true.
Proof.
  intros Hdesc. induction d as [|d IH]; intros i a b Ha Hb.
  - apply (descending_lookup lods Hdesc i); [exact Ha|]. rewrite <- Hb. f_equal. lia.
  - destruct (lookup_lt_is_Some_2 lods (i + S d)%nat) as [c Hc].
    { apply lookup_lt_Some in Hb. lia. }
    unfold Num.ge. apply (num_le_trans _ (scale c)).
    + apply (descending_lookup lods Hdesc (i + S d)%nat); [exact Hc|].
      rewrite <- Hb. f_equal. lia.
    + apply (IH i a c Ha Hc).
Qed.

(** In a descending list a level is at least as large in scale as every
    level listed at or after it whose scale is a number. *)
Lemma descending_later (lods : list LOD) (i j : nat) (a b : LOD) :
  descending lods = true -> (i <= j)%nat ->
  lods !! i = Some a -> lods !! j = Some b ->
  Num.is_NaN (scale b) = false ->
  Num.le (scale b) (scale a) = true.
Proof.
  intros Hdesc Hij Ha Hb Hnan.
  destruct (Nat.eq_dec i j) as [->|Hne].
  - assert (a = b) as -> by congruence. apply num_le_refl, Hnan.
  - apply (descending_le lods Hdesc (j - i - 1) i a b Ha).
    rewrite <- Hb. f_equal. lia.
Qed.

Lemma lod_at_nat (lods : list LOD) (i : nat) : lod_at lods (Z.of_nat i) = lods !! i.
Proof.
  unfold lod_at. destruct (Z.ltb_spec (Z.of_nat i) 0); [lia|].
  rewrite Nat2Z.id. reflexivity.
Qed.

(** In a descending list a level at or above the threshold has only such
    levels before it, and a level below the threshold only such levels
    after it. *)
Lemma descending_above (lods : list LOD) (scaleLimit : number) (i j : Z) :
  descending lods = true -> 0 <= j <= i ->
  at_or_above lods scaleLimit i = true -> at_or_above lods scaleLimit j = true.
Proof.
  intros Hdesc Hji Hi.
  destruct (Z.eq_dec j i) as [->|Hne]; [exact Hi|].
  unfold at_or_above in *.
  destruct (lod_at lods i) as [b|] eqn:Hb; [|discriminate].
  rewrite <- (Z2Nat.id i), lod_at_nat in Hb by lia.
  rewrite <- (Z2Nat.id j), lod_at_nat by lia.
  destruct (lookup_lt_is_Some_2 lods (Z.to_nat j)) as [a Ha].
  { apply lookup_lt_Some in Hb. lia. }
  rewrite Ha. unfold Num.ge in *.
  apply (num_le_trans _ (scale b)); [exact Hi|].
  apply (descending_le lods Hdesc (Z.to_nat i - Z.to_nat j - 1) (Z.to_nat j) a b Ha).
  rewrite <- Hb. f_equal. lia.
Qed.

Lemma descending_below (lods : list LOD) (scaleLimit : number) (i j : Z) :
  descending lods = true -> 0 <= i <= j ->
  at_or_above lods scaleLimit i = false -> at_or_above lods scaleLimit j = false.
Proof.
  intros Hdesc Hij Hi.
  destruct (at_or_above lods scaleLimit j) eqn:Hj; [|reflexivity].
  rewrite (descending_above lods scaleLimit j i Hdesc Hij Hj) in Hi. discriminate.
Qed.

(** X8. On a descending list of four levels or more and a threshold other
    than zero, [getZoomLevel] returns the index [i] that splits the list at
    the threshold: the levels 1 to [i] are at or above it and the levels
    [i + 1] to the last but one are below it; level 0 is at or above it as
    well when [i] is not 0, and the last level is below it as well when [i]
    is not the last but one. *)
Theorem getZoomLevel_descending_levels (lods : list LOD) (maxScale : number)
    (fuel : nat) :
  descending lods = true ->
  (4 <= length lods)%nat ->
  (length lods <= fuel)%nat ->
  Num.eq maxScale (Num.of_Z 0) = false ->
  exists i, getZoomLevel fuel lods maxScale = Returns i
            /\ 0 <= i <= Z.of_nat (length lods) - 2
            /\ (forall j, 1 <= j <= i -> at_or_above lods maxScale j = true)
            /\ (forall j, i < j <= Z.of_nat (length lods) - 2 ->
                          at_or_above lods maxScale j = false)
            /\ (1 <= i -> at_or_above lods maxScale 0 = true)
            /\ (i < Z.of_nat (length lods) - 2 ->
                at_or_above lods maxScale (Z.of_nat (length lods) - 1) = false).
Proof.
  intros Hdesc Hlen Hfuel Hz.
  destruct (getZoomLevel_brackets lods maxScale fuel Hlen Hfuel Hz)
    as (i & Hi & Hr & Hlo & Hhi).
  exists i. split; [exact Hi|]. split; [exact Hr|].
  assert (Habove : forall j, 0 <= j <= i -> 1 <= i -> at_or_above lods maxScale j = true).
  { intros j Hj Hi1. destruct Hlo as [->|Hlo]; [lia|].
    apply (descending_above lods maxScale i j Hdesc Hj Hlo). }
  assert (Hbelow : forall j, i < j -> i < Z.of_nat (length lods) - 2 ->
                             at_or_above lods maxScale j = false).
  { intros j Hj Hi2. destruct Hhi as [->|Hhi]; [lia|].
    apply (descending_below lods maxScale (i + 1) j Hdesc); [lia|exact Hhi]. }
  repeat split.
  - intros j Hj. apply Habove; lia.
  - intros j Hj. apply Hbelow; lia.
  - intros Hi1. apply Habove; lia.
  - intros Hi2. apply Hbelow; lia.
Qed.

Lemma getZoomLevel_descending_levels_witness :
  exists i, getZoomLevel 5 five_levels (Num.of_Z 4000) = Returns i
            /\ 0 <= i <= Z.of_nat (length five_levels) - 2
            /\ (forall j, 1 <= j <= i -> at_or_above five_levels (Num.of_Z 4000) j = true)
            /\ (forall j, i < j <= Z.of_nat (length five_levels) - 2 ->
                          at_or_above five_levels (Num.of_Z 4000) j = false)
            /\ (1 <= i -> at_or_above five_levels (Num.of_Z 4000) 0 = true)
            /\ (i < Z.of_nat (length five_levels) - 2 ->
                at_or_above five_levels (Num.of_Z 4000)
                            (Z.of_nat (length five_levels) - 1) = false).
Proof.
  apply (getZoomLevel_descending_levels five_levels (Num.of_Z 4000) 5).
  - reflexivity.
  - simpl. lia.
  - simpl. lia.
  - reflexivity.
Defined.

(** *** When the search returns *)

(** Once the three cursors sit on one level whose scale is at or above the
    threshold, the loop repeats the same probe for ever. *)
Lemma binary_search_fixpoint (lods : list LOD) (scaleLimit : number) (k : Z) (lod : LOD)
    (fuel : nat) :
  lod_at lods k = Some lod ->
  Num.ge (scale lod) scaleLimit = true ->
  binary_search fuel lods scaleLimit k k k = OutOfFuel.
Proof.
  intros Hk Hge. induction fuel as [|fuel IH]; [reflexivity|].
  simpl. rewrite Hk, Hge.
  destruct (Z.eqb_spec k (k + 1)) as [Habs|_]; [lia|].
  replace ((k + k) / 2) with k; [exact IH|].
  replace (k + k) with (k * 2) by lia. symmetry. apply Z.div_mul. lia.
Qed.

Lemma getZoomLevel_short_throws (lods : list LOD) (maxScale : number) (fuel : nat) :
  (length lods < 2)%nat ->
  Num.eq maxScale (Num.of_Z 0) = false ->
  getZoomLevel (S fuel) lods maxScale = Throws TypeError.
Proof.
  intros Hlen Hz. unfold getZoomLevel. rewrite Hz. simpl.
  rewrite first_probe_short by lia.
  rewrite lod_at_out_of_bounds by lia. reflexivity.
Qed.

(** Three levels: the first probe is the last level; the search hangs
    when that one is at or above the threshold, and otherwise returns 1 or 0
    after a probe of level 1. *)
Lemma getZoomLevel_three_levels (lod0 lod1 lod2 : LOD) (maxScale : number) :
  Num.eq maxScale (Num.of_Z 0) = false ->
  (Num.ge (scale lod2) maxScale = true ->
   forall fuel, getZoomLevel fuel [lod0; lod1; lod2] maxScale = OutOfFuel)
  /\ (Num.ge (scale lod2) maxScale = false ->
      forall fuel,
        getZoomLevel (S (S fuel)) [lod0; lod1; lod2] maxScale
        = Returns (if Num.ge (scale lod1) maxScale then 1 else 0)).
Proof.
  intros Hz. split; intros Hge fuel; unfold getZoomLevel; rewrite Hz.
  - destruct fuel as [|fuel]; [reflexivity|].
    simpl. rewrite Hge. simpl.
    apply (binary_search_fixpoint _ _ 2 lod2); [reflexivity|exact Hge].
  - simpl. rewrite Hge. simpl.
    destruct (Num.ge (scale lod1) maxScale); reflexivity.
Qed.

(** X9. [getZoomLevel] never returns exactly when the threshold is not
    zero, there are two or three levels, and the last level is at or above
    the threshold; in every other case some number of loop iterations makes
    the call return or throw. *)
Theorem getZoomLevel_never_returns_iff (lods : list LOD) (maxScale : number) :
  (forall fuel, getZoomLevel fuel lods maxScale = OutOfFuel)
  <-> (Num.eq maxScale (Num.of_Z 0) = false
       /\ (length lods = 2 \/ length lods = 3)%nat
       /\ exists lod, last lods = Some lod /\ Num.ge (scale lod) maxScale = true).
Proof.
  split.
  - intros Hloop.
    destruct (Num.eq maxScale (Num.of_Z 0)) eqn:Hz.
    { specialize (Hloop 0%nat). unfold getZoomLevel in Hloop. rewrite Hz in Hloop.
      discriminate. }
    split; [reflexivity|].
    destruct lods as [|lod0 [|lod1 [|lod2 [|lod3 lods]]]].
    + specialize (Hloop 1%nat).
      rewrite (getZoomLevel_short_throws [] maxScale 0) in Hloop;
        [discriminate|simpl; lia|exact Hz].
    + specialize (Hloop 1%nat).
      rewrite (getZoomLevel_short_throws [lod0] maxScale 0) in Hloop;
        [discriminate|simpl; lia|exact Hz].
    + split; [left; reflexivity|]. exists lod1. split; [reflexivity|].
      destruct (Num.ge (scale lod1) maxScale) eqn:Hge; [reflexivity|].
      specialize (Hloop 1%nat). unfold getZoomLevel in Hloop. rewrite Hz in Hloop.
      simpl in Hloop. unfold lod_at in Hloop. simpl in Hloop. rewrite Hge in Hloop.
      discriminate.
    + split; [right; reflexivity|]. exists lod2. split; [reflexivity|].
      destruct (Num.ge (scale lod2) maxScale) eqn:Hge; [reflexivity|].
      destruct (getZoomLevel_three_levels lod0 lod1 lod2 maxScale Hz) as [_ Hret].
      specialize (Hloop 2%nat). rewrite (Hret Hge 0%nat) in Hloop. discriminate.
    + exfalso.
      set (l := lod0 :: lod1 :: lod2 :: lod3 :: lods) in *.
      assert (Hlen : (4 <= length l)%nat) by (unfold l; simpl; lia).
      specialize (Hloop (length l)). unfold getZoomLevel in Hloop. rewrite Hz in Hloop.
      assert (1 <= (Z.of_nat (length l) + 1) / 2 < Z.of_nat (length l) - 1).
      { split; [apply Z.div_le_lower_bound; lia|apply Z.div_lt_upper_bound; lia]. }
      destruct (binary_search_returns l maxScale (length l) (length l)
                  ((Z.of_nat (length l) + 1) / 2) 0 (Z.of_nat (length l) - 1))
        as (i & Hi & _); try lia.
      rewrite Hi in Hloop. discriminate.
  - intros (Hz & Hlen & lod & Hlast & Hge) fuel.
    destruct lods as [|lod0 [|lod1 [|lod2 [|lod3 lods]]]]; simpl in Hlen; try lia.
    + injection Hlast as <-.
      destruct fuel as [|fuel]; [unfold getZoomLevel; rewrite Hz; reflexivity|].
      unfold getZoomLevel. rewrite Hz. simpl. unfold lod_at. simpl. rewrite Hge. simpl.
      apply binary_search_stuck, Hge.
    + injection Hlast as <-.
      apply (getZoomLevel_three_levels lod0 lod1 lod2 maxScale Hz), Hge.
Qed.

(** Three levels with scales 9000, 5000 and 1000: the search hangs up to
    the threshold 1000 and returns from there on. *)
Example getZoomLevel_three_levels_sample :
  let lods := map (fun z => {| scale := Num.of_Z z |}) [9000; 5000; 1000] in
  (forall fuel, getZoomLevel fuel lods (Num.of_Z 1000) = OutOfFuel)
  /\ map (fun z => getZoomLevel 2 lods (Num.of_Z z)) [1001; 5000; 5001]
     = [Returns 1; Returns 1; Returns 0].
Proof.
  cbv zeta. split; [|vm_compute; reflexivity].
  apply (getZoomLevel_three_levels _ _ _ (Num.of_Z 1000)); reflexivity.
Qed.

(** ** The icon drawer: clamping of markers *)






(** ** The renderer classifier *)

Lemma is_str_true (o : option string) (s : string) : is_str o s = true <-> o = Some s.
Proof.
  destruct o as [t|]; simpl; [|split; discriminate].
  rewrite String.eqb_eq. split; [intros ->; reflexivity|intros [= ->]; reflexivity].
Qed.

Lemma is_str_false (o : option string) (s : string) : is_str o s = false <-> o <> Some s.
Proof.
  rewrite <- is_str_true. destruct (is_str o s); split; try discriminate; tauto.
Qed.

(** Decides the type tests of a renderer whose type is known. *)
Ltac known_type Ht :=
  rewrite Ht;
  repeat match goal with
         | |- context [is_str (Some ?a) ?b] =>
             let v := eval vm_compute in (is_str (Some a) b) in
             change (is_str (Some a) b) with v
         end;
  cbv iota.

(** Runs through the type tests of a renderer that is of no supported
    type. *)
Ltac unknown_type Hu :=
  unfold supported in Hu;
  repeat match goal with
         | |- context [is_str (r_type ?r) ?t] =>
             let E := fresh "E" in
             destruct (is_str (r_type r) t) eqn:E; [apply is_str_true in E; tauto|]
         end.

Lemma find_from_spec {A : Type} (test : A -> nat -> bool) (l : list A) :
  forall k,
    match find_from test k l with
    | Some x =>
        exists i, l !! i = Some x /\ test x (k + i)%nat = true
                  /\ forall j y, (j < i)%nat -> l !! j = Some y -> test y (k + j)%nat = false
    | None => forall j y, l !! j = Some y -> test y (k + j)%nat = false
    end.
Proof.
  induction l as [|x l IH]; intros k; simpl.
  - intros j y Hj. destruct j; discriminate.
  - destruct (test x k) eqn:Hx.
    + exists 0%nat. rewrite Nat.add_0_r. repeat split; [assumption|]. intros j y Hj. lia.
    + specialize (IH (S k)). destruct (find_from test (S k) l) as [z|].
      * destruct IH as (i & Hi & Ht & Hfirst). exists (S i).
        rewrite Nat.add_succ_r. repeat split; [assumption..|].
        intros [|j] y Hlt Hy.
        -- injection Hy as <-. rewrite Nat.add_0_r. assumption.
        -- rewrite Nat.add_succ_r. apply (Hfirst j y); [lia|assumption].
      * intros [|j] y Hy.
        -- injection Hy as <-. rewrite Nat.add_0_r. assumption.
        -- rewrite Nat.add_succ_r. apply (IH j y). assumption.
Qed.

(** [find] returns the first element, in list order, that passes the test. *)
Lemma find_spec {A : Type} (test : A -> nat -> bool) (l : list A) :
  match find test l with
  | Some x =>
      exists i, l !! i = Some x /\ test x i = true
                /\ forall j y, (j < i)%nat -> l !! j = Some y -> test y j = false
  | None => forall j y, l !! j = Some y -> test y j = false
  end.
Proof. exact (find_from_spec test l 0). Qed.

Lemma append_assoc (a b c : string) : (a +:+ b) +:+ c = a +:+ b +:+ c.
Proof.
  induction a as [|x a IH]; [reflexivity|].
  change (String x ((a +:+ b) +:+ c) = String x (a +:+ b +:+ c)).
  f_equal. exact IH.
Qed.

Lemma searchRenderer_simple tn it attributes r :
  r_type r = Some SIMPLE ->
  searchRenderer tn it attributes r
  = ([], Normal {| imageUrl := r_imageUrl r; symbol := r_symbol r |}).
Proof. intros Ht. unfold searchRenderer. rewrite Ht. reflexivity. Qed.

Lemma searchRenderer_unknown tn it attributes r :
  ~ supported r ->
  searchRenderer tn it attributes r
  = ([Warn ("Unknown renderer type encountered - " +:+ str (r_type r))],
     Normal {| imageUrl := Image ""; symbol := Some empty_object |}).
Proof.
  intros Hu. unfold searchRenderer. unknown_type Hu. reflexivity.
Qed.

Lemma searchRenderer_classBreaks_normal tn it attributes r :
  r_type r = Some CLASS_BREAKS ->
  exists info, searchRenderer tn it attributes r = ([], Normal info).
Proof.
  intros Ht. unfold searchRenderer. known_type Ht. cbv zeta.
  destruct (Num.lt _ _); [eauto|].
  destruct (find _ _); eauto.
Qed.

Lemma append_empty_r (a : string) : a +:+ "" = a.
Proof.
  induction a as [|x a IH]; [reflexivity|].
  change (String x (a +:+ "") = String x a). f_equal. exact IH.
Qed.

Lemma searchRenderer_uniqueValue tn it attributes r :
  r_type r = Some UNIQUE_VALUE ->
  searchRenderer tn it attributes r
  = ([],
     match read attributes (str (field1 r)) with
     | Scalar VUndefined | Scalar VNull => Throw TypeError
     | _ =>
         match find (fun uvi _ => strict_eq_string (uvi_value uvi)
                                    (composite_key it attributes r))
                    (uniqueValueInfos r) with
         | Some uvi => Normal (uvi_info uvi)
         | None => Normal (default_info r)
         end
     end).
Proof.
  intros Ht. unfold searchRenderer. known_type Ht. cbv zeta. f_equal.
  assert (Hkey : forall k,
             (if truthy (field2 r)
              then if truthy (field3 r)
                   then ((((k +:+ ", ") +:+ text_of it (read attributes (str (field2 r))))
                          +:+ ", ") +:+ text_of it (read attributes (str (field3 r))))
                   else (k +:+ ", ") +:+ text_of it (read attributes (str (field2 r)))
              else k)
             = k +:+
               (if truthy (field2 r) then
                  ", " +:+ text_of it (read attributes (str (field2 r))) +:+
                  (if truthy (field3 r)
                   then ", " +:+ text_of it (read attributes (str (field3 r)))
                   else "")
                else "")).
  { intros k. destruct (truthy (field2 r)), (truthy (field3 r));
      rewrite ?append_assoc, ?append_empty_r; reflexivity. }
  unfold composite_key.
  destruct (read attributes (str (field1 r))) as [[| |b|n|s]|name] eqn:E;
    try reflexivity; unfold toString_method; cbn [mbind completion_bind];
    rewrite Hkey; reflexivity.
Qed.

(** C1. [searchRenderer] is not free of exceptions.  For a unique-value
    renderer whose [field1] attribute reads as [undefined] (the feature has
    no such attribute, and no object has a member of that name) or as [null]
    it throws a TypeError, the call of [toString] on the value failing,
    where the values of [field2] and [field3] are converted by [+] and a
    class-breaks value by a comparison, neither of which throws.  In every
    other case it returns normally, with nothing logged for a simple, a
    class-breaks and a unique-value renderer, and with a warning and
    [{imageUrl: '', symbol: {}}] for a renderer of any other type.
    [getGraphicIcon] and [getGraphicSymbol] complete the way
    [searchRenderer] does. *)
Theorem searchRenderer_completion (tn : string -> number) (it : string -> string)
    (attributes : gmap string value) (r : Renderer) :
  (~ supported r ->
     searchRenderer tn it attributes r
     = ([Warn ("Unknown renderer type encountered - " +:+ str (r_type r))],
        Normal {| imageUrl := Image ""; symbol := Some empty_object |}))
  /\ (r_type r = Some SIMPLE \/ r_type r = Some CLASS_BREAKS ->
      exists info, searchRenderer tn it attributes r = ([], Normal info))
  /\ (r_type r = Some UNIQUE_VALUE ->
      (present (read attributes (str (field1 r))) ->
       exists info, searchRenderer tn it attributes r = ([], Normal info))
      /\ (~ present (read attributes (str (field1 r))) ->
          searchRenderer tn it attributes r = ([], Throw TypeError)))
  /\ (forall e,
        ((getGraphicIcon tn it attributes r).2 = Throw e
         <-> (searchRenderer tn it attributes r).2 = Throw e)
        /\ ((getGraphicSymbol tn it attributes r).2 = Throw e
            <-> (searchRenderer tn it attributes r).2 = Throw e))
  /\ (getGraphicIcon tn it attributes r).1 = (searchRenderer tn it attributes r).1
  /\ (getGraphicSymbol tn it attributes r).1 = (searchRenderer tn it attributes r).1.
Proof.
  split; [apply searchRenderer_unknown|].
  split.
  { intros [Ht|Ht].
    - rewrite (searchRenderer_simple _ _ _ _ Ht). eauto.
    - apply searchRenderer_classBreaks_normal, Ht. }
  split.
  { intros Ht. rewrite (searchRenderer_uniqueValue _ _ _ _ Ht). split.
    - intros [Hu Hn].
      destruct (read attributes (str (field1 r))) as [[]|]; try congruence;
        destruct (find _ _); eauto.
    - intros Habs. unfold present in Habs.
      destruct (read attributes (str (field1 r))) as [[]|]; try reflexivity;
        exfalso; apply Habs; split; discriminate. }
  split; [|split; reflexivity].
  intros e. unfold getGraphicIcon, getGraphicSymbol. cbn [fst snd].
  destruct (searchRenderer tn it attributes r).2 as [info|e']; cbn;
    split; split; intros H; try discriminate H; injection H as ->; reflexivity.
Qed.

(** On a feature without the attribute [kind], and on one whose [kind] is
    [null], the classifier throws; a missing or null second field does not
    make it throw, and neither does a missing class-breaks value. *)
Lemma searchRenderer_throws_on_missing_attribute :
  (forall tn it, searchRenderer tn it ∅ uv_kind_renderer = ([], Throw TypeError))
  /\ (forall tn it,
        searchRenderer tn it {[ "kind" := VNull ]} uv_kind_renderer = ([], Throw TypeError))
  /\ (forall tn it, (getGraphicIcon tn it ∅ uv_kind_renderer).2 = Throw TypeError)
  /\ (forall tn it, (getGraphicSymbol tn it ∅ uv_kind_renderer).2 = Throw TypeError)
  /\ (forall tn it,
        searchRenderer tn it {[ "field1" := VStr "A" ]} two_field_renderer
        = ([], Normal (default_info two_field_renderer)))
  /\ (forall tn it,
        searchRenderer tn it ∅ (population_renderer [break_entry 10 "low"])
        = ([], Normal (default_info (population_renderer [break_entry 10 "low"]))))
  /\ ~ (forall tn it attributes r,
          exists info, (searchRenderer tn it attributes r).2 = Normal info).
Proof.
  split; [reflexivity|]. split; [reflexivity|]. split; [reflexivity|].
  split; [reflexivity|]. split; [intros tn it; vm_compute; reflexivity|].
  split; [intros tn it; vm_compute; reflexivity|].
  intros Hnever.
  destruct (Hnever (fun _ => Num.NaN) (fun _ => "") ∅ uv_kind_renderer) as [info Hinfo].
  discriminate Hinfo.
Qed.

(** X4. A simple renderer gives its one icon and symbol for every feature,
    whatever the attributes. *)
Theorem simple_renderer_unconditional (tn : string -> number) (it : string -> string)
    (attributes : gmap string value) (r : Renderer) :
  r_type r = Some SIMPLE ->
  searchRenderer tn it attributes r
  = ([], Normal {| imageUrl := r_imageUrl r; symbol := r_symbol r |})
  /\ getGraphicIcon tn it attributes r = ([], Normal (r_imageUrl r))
  /\ getGraphicSymbol tn it attributes r = ([], Normal (r_symbol r)).
Proof.
  intros Ht. unfold getGraphicIcon, getGraphicSymbol.
  rewrite (searchRenderer_simple tn it attributes r Ht). repeat split.
Qed.

Lemma simple_renderer_unconditional_witness :
  searchRenderer no_numeric_strings some_inherited_text (attributes_A "B") cities_renderer
  = ([], Normal {| imageUrl := NoImage; symbol := Some text_symbol |})
  /\ getGraphicIcon no_numeric_strings some_inherited_text (attributes_A "B") cities_renderer
     = ([], Normal NoImage)
  /\ getGraphicSymbol no_numeric_strings some_inherited_text (attributes_A "B") cities_renderer
     = ([], Normal (Some text_symbol)).
Proof.
  apply (simple_renderer_unconditional no_numeric_strings some_inherited_text
           (attributes_A "B") cities_renderer).
  reflexivity.
Defined.

(** C3. For a unique-value renderer and attributes in which [field1] has a
    value, the lookup key is that value as a string, followed by [', '] and
    [field2]'s value when [field2] is configured, and by [', '] and
    [field3]'s value when [field3] is configured too; the result is taken
    from the first entry of [uniqueValueInfos] whose value is exactly that
    key, and from the renderer's default icon and symbol when there is
    none.  The value of a field is what reading the attribute of that name
    gives: for a name that the feature does not have and every object
    answers to, the inherited member. *)
Theorem uniqueValue_lookup (tn : string -> number) (it : string -> string)
    (attributes : gmap string value) (r : Renderer) :
  r_type r = Some UNIQUE_VALUE ->
  present (read attributes (str (field1 r))) ->
  let key := composite_key it attributes r in
  (exists i uvi,
      uniqueValueInfos r !! i = Some uvi
      /\ uvi_value uvi = VStr key
      /\ (forall j u, (j < i)%nat -> uniqueValueInfos r !! j = Some u ->
                      uvi_value u <> VStr key)
      /\ searchRenderer tn it attributes r = ([], Normal (uvi_info uvi)))
  \/ ((forall u, u ∈ uniqueValueInfos r -> uvi_value u <> VStr key)
      /\ searchRenderer tn it attributes r = ([], Normal (default_info r))).
Proof.
  intros Ht [Hu Hn] key.
  assert (Heq : forall v, strict_eq_string v key = true <-> v = VStr key).
  { intros v. destruct v; simpl; try (split; discriminate).
    rewrite String.eqb_eq. split; [intros ->; reflexivity|intros [= ->]; reflexivity]. }
  rewrite (searchRenderer_uniqueValue _ _ _ _ Ht). fold key.
  pose proof (find_spec (fun uvi (_ : nat) => strict_eq_string (uvi_value uvi) key)
                        (uniqueValueInfos r)) as Hfind.
  destruct (find _ (uniqueValueInfos r)) as [uvi|].
  - left. destruct Hfind as (i & Hi & Hm & Hfirst).
    exists i, uvi. repeat split.
    + exact Hi.
    + apply Heq, Hm.
    + intros j u Hlt Hj Hv. apply Heq in Hv.
      rewrite (Hfirst j u Hlt Hj) in Hv. discriminate.
    + destruct (read attributes (str (field1 r))) as [[]|]; congruence.
  - right. split.
    + intros u [j Hj]%list_elem_of_lookup Hv. apply Heq in Hv.
      rewrite (Hfind j u Hj) in Hv. discriminate.
    + destruct (read attributes (str (field1 r))) as [[]|]; congruence.
Qed.

Lemma uniqueValue_lookup_witness :
  composite_key some_inherited_text (attributes_A "B") two_field_renderer = "A, B"
  /\ searchRenderer no_numeric_strings some_inherited_text (attributes_A "B")
       two_field_renderer
     = ([], Normal (uvi_info entry_A_B)).
Proof.
  split; [vm_compute; reflexivity|].
  destruct (uniqueValue_lookup no_numeric_strings some_inherited_text (attributes_A "B")
              two_field_renderer)
    as [(i & uvi & Hi & Hv & _ & Hres)|[Hnone _]].
  - reflexivity.
  - split; vm_compute; discriminate.
  - vm_compute; reflexivity.
  - exfalso. apply (Hnone entry_A_B); [apply list_elem_of_here|].
    vm_compute; reflexivity.
Defined.

(** The second half of the example: ['A, C'] is no entry's key, the default
    icon and symbol come back. *)
Example uniqueValue_lookup_default :
  (forall it, composite_key it (attributes_A "C") two_field_renderer = "A, C")
  /\ forall tn it,
       searchRenderer tn it (attributes_A "C") two_field_renderer
       = ([], Normal (default_info two_field_renderer)).
Proof.
  split; [intros it; vm_compute; reflexivity|]. intros tn it. vm_compute. reflexivity.
Qed.

(** A numeric column is matched through its decimal text. *)
Example uniqueValue_lookup_number :
  forall it,
    composite_key it {[ "field1" := VNum (Num.Fin 25 1); "field2" := VNull ]}
                  two_field_renderer
    = "2.5, null".
Proof. intros it. vm_compute. reflexivity. Qed.

(** A second field named [constructor] that the feature does not have: the
    key ends in the text of the inherited member, not in ['undefined'], and
    the entry ['A, undefined'] is not found. *)
Example uniqueValue_lookup_inherited :
  let attributes : gmap string value := {[ "field1" := VStr "A" ]} in
  forall tn it,
    composite_key it attributes constructor_renderer = "A, " +:+ it "constructor"
    /\ (it "constructor" <> "undefined" ->
        searchRenderer tn it attributes constructor_renderer
        = ([], Normal (default_info constructor_renderer))).
Proof.
  intros attributes tn it.
  assert (Hkey : composite_key it attributes constructor_renderer
                 = "A, " +:+ it "constructor").
  { transitivity ("A, " +:+ it "constructor" +:+ ""); [vm_compute; reflexivity|].
    rewrite append_empty_r. reflexivity. }
  split; [exact Hkey|]. intros Hne.
  rewrite (searchRenderer_uniqueValue tn it attributes constructor_renderer eq_refl).
  rewrite Hkey.
  replace (read attributes (str (field1 constructor_renderer))) with (Scalar (VStr "A"))
    by (vm_compute; reflexivity).
  cbn [uniqueValueInfos constructor_renderer find find_from uvi_value strict_eq_string].
  destruct (String.eqb_spec "A, undefined" ("A, " +:+ it "constructor")) as [Heq|_];
    [|reflexivity].
  exfalso. apply Hne. injection Heq as Heq. symmetry. exact Heq.
Qed.

(** *** Class breaks *)


Lemma searchRenderer_classBreaks tn it attributes r :
  r_type r = Some CLASS_BREAKS ->
  let gVal := number_of tn (read attributes (str (field r))) in
  searchRenderer tn it attributes r
  = ([],
     Normal
       (if Num.lt gVal (minValue r) then default_info r
        else
          match find (fun cbi index =>
                        Num.gt gVal (at_index (Num.sub (minValue r) (Num.of_Z 1)
                                               :: upperBounds r) index)
                        && Num.le gVal (cbi_maxValue cbi))
                     (classBreakInfos r) with
          | Some cbi => cbi_info cbi
          | None => default_info r
          end)).
Proof.
  intros Ht gVal. unfold searchRenderer. known_type Ht. cbv zeta. fold gVal.
  destruct (Num.lt gVal (minValue r)); [reflexivity|].
  unfold upperBounds. destruct (find _ _); reflexivity.
Qed.




Example classBreaks_10_20_30 :
  let r := population_renderer
             [break_entry 10 "low"; break_entry 20 "mid"; break_entry 30 "high"] in
  forall tn it,
    map (fun v => searchRenderer tn it (population v) r)
        [Num.of_Z 5; Num.of_Z 10; Num.Fin 1001 2; Num.of_Z 31; Num.of_Z (-1)]
    = map (fun info => ([], Normal info))
          [cbi_info (break_entry 10 "low"); cbi_info (break_entry 10 "low");
           cbi_info (break_entry 20 "mid"); default_info r; default_info r].
Proof. intros r tn it. vm_compute. reflexivity. Qed.

(** Beyond 2^53 subtracting 1 changes nothing: with the minimum 1e17 the
    first lower bound is 1e17 itself, the value 1e17 is in no break, and the
    default comes back, although the value is not below the minimum and not
    above the first upper bound. *)
Example classBreaks_large_minimum :
  let r := large_population_renderer in
  let v := Num.of_Z (10 ^ 17) in
  Num.sub (minValue r) (Num.of_Z 1) = minValue r
  /\ Num.lt v (minValue r) = false
  /\ Num.le v (Num.of_Z (2 * 10 ^ 17)) = true
  /\ in_break r v 0 = false
  /\ (forall tn it,
        searchRenderer tn it (population v) r = ([], Normal (default_info r))).
Proof.
  cbv zeta. repeat split; try (vm_compute; reflexivity).
Qed.


(** *** Entries that are never selected *)

Lemma find_from_index_free {A : Type} (test : A -> bool) (l : list A) :
  forall k, find_from (fun x _ => test x) k l = find_from (fun x _ => test x) 0 l.
Proof.
  induction l as [|x l IH]; intros k; [reflexivity|].
  simpl. destruct (test x); [reflexivity|]. rewrite (IH (S k)), (IH 1%nat). reflexivity.
Qed.

Lemma find_filter {A : Type} (test keep : A -> bool) (l : list A) :
  (forall x, test x = true -> keep x = true) ->
  find (fun x _ => test x) (List.filter keep l) = find (fun x _ => test x) l.
Proof.
  intros Himp. unfold find. induction l as [|x l IH]; [reflexivity|].
  simpl. destruct (keep x) eqn:Hk; simpl.
  - destruct (test x); [reflexivity|].
    rewrite (find_from_index_free test _ 1), (find_from_index_free test l 1). exact IH.
  - destruct (test x) eqn:Ht; [rewrite (Himp x Ht) in Hk; discriminate|].
    rewrite (find_from_index_free test l 1). exact IH.
Qed.

(** X12. A unique-value entry whose value is not a string (a number, say)
    is never selected: the lookup key is always a string and the comparison
    is strict.  Dropping every such entry from the renderer changes the
    classification of no feature. *)
Theorem uniqueValue_skips_non_string_values (tn : string -> number) (it : string -> string)
    (attributes : gmap string value) (r : Renderer) :
  searchRenderer tn it attributes
    (set_uniqueValueInfos
       (List.filter (fun uvi => is_string_value (uvi_value uvi)) (uniqueValueInfos r)) r)
  = searchRenderer tn it attributes r.
Proof.
  set (r' := set_uniqueValueInfos _ r).
  destruct (is_str (r_type r) UNIQUE_VALUE) eqn:Ht.
  - apply is_str_true in Ht.
    rewrite (searchRenderer_uniqueValue tn it attributes r Ht).
    rewrite (searchRenderer_uniqueValue tn it attributes r' Ht).
    change (composite_key it attributes r') with (composite_key it attributes r).
    change (default_info r') with (default_info r).
    change (read attributes (str (field1 r'))) with (read attributes (str (field1 r))).
    unfold r'. cbn [uniqueValueInfos set_uniqueValueInfos].
    rewrite (find_filter (fun uvi => strict_eq_string (uvi_value uvi)
                                       (composite_key it attributes r))
                         (fun uvi => is_string_value (uvi_value uvi)));
      [reflexivity|].
    intros uvi. destruct (uvi_value uvi); simpl; congruence.
  - unfold searchRenderer. change (r_type r') with (r_type r). rewrite Ht.
    reflexivity.
Qed.

(** An entry keyed by the number 5 is passed over for the attribute 5,
    whose key is the string ['5']. *)
Example numeric_entry_value_never_matches :
  let r := places_renderer [{| uvi_value := VNum (Num.of_Z 5); uvi_label := Some "Five";
                               uvi_symbol := Some solid_fill; uvi_imageUrl := NoImage |}] in
  forall tn it,
    searchRenderer tn it {[ "kind" := VNum (Num.of_Z 5) ]} r
    = ([], Normal (default_info r)).
Proof. intros r tn it. vm_compute. reflexivity. Qed.

(** *** Class breaks on well-formed numbers *)

Lemma lower_bound_passed (v lower below : number) :
  Num.finite v -> Num.finite lower ->
  Num.lt below lower = true ->
  Num.lt v lower = false -> Num.lt below v = true.
Proof.
  intros Hv Hl Hbelow Hlt. apply (num_lt_le_trans below lower v Hbelow).
  apply (le_toQ lower v Hl Hv). apply Qnot_lt_le. intros H.
  apply (lt_toQ v lower Hv Hl) in H. congruence.
Qed.

Lemma upper_bound_passed (v u : number) :
  Num.finite v -> Num.finite u -> Num.le v u = false -> Num.lt u v = true.
Proof.
  intros Hv Hu Hle. apply (lt_toQ u v Hu Hv). apply Qnot_le_lt. intros H.
  apply (le_toQ v u Hv Hu) in H. congruence.
Qed.

(** Past an entry that [v] exceeds, the lower-bound test of the next entry
    holds by itself. *)
Lemma find_from_upper_bound (v : number) (minSplits : list number)
    (l : list ClassBreakInfo) :
  Num.finite v ->
  Forall (fun cbi => Num.finite (cbi_maxValue cbi)) l ->
  forall (k : nat) (prev : number),
    minSplits !! k = Some prev ->
    Num.lt prev v = true ->
    (forall j, (j < length l)%nat -> minSplits !! (S k + j)%nat = map cbi_maxValue l !! j) ->
    find_from (fun cbi index =>
                 Num.gt v (at_index minSplits index) && Num.le v (cbi_maxValue cbi)) k l
    = find_from (fun cbi _ => Num.le v (cbi_maxValue cbi)) k l.
Proof.
  intros Hv Hfin. induction Hfin as [|x l Hx Hfin IH]; intros k prev Hk Hprev Hrest.
  - reflexivity.
  - simpl. unfold at_index at 1, Num.gt at 1. rewrite Hk. simpl. rewrite Hprev. simpl.
    destruct (Num.le v (cbi_maxValue x)) eqn:Hle; [reflexivity|].
    apply (IH (S k) (cbi_maxValue x)).
    + specialize (Hrest 0%nat). rewrite Nat.add_0_r in Hrest. apply Hrest. simpl. lia.
    + apply upper_bound_passed; assumption.
    + intros j Hj. replace (S (S k) + j)%nat with (S k + S j)%nat by lia.
      apply (Hrest (S j)). simpl. lia.
Qed.

(** X10. For a class-breaks renderer whose minimum and upper bounds are
    finite numbers, the minimum being one from which subtracting 1 gives a
    smaller double, and a finite value [v] not below the minimum, the
    classification is the first entry, in list order, whose upper bound is
    at least [v], and the default when there is none: after the check
    against the minimum the lower-bound test never decides anything,
    whatever the order of the entries. *)
Theorem classBreaks_first_upper_bound (tn : string -> number) (it : string -> string)
    (attributes : gmap string value) (r : Renderer) :
  let v := number_of tn (read attributes (str (field r))) in
  r_type r = Some CLASS_BREAKS ->
  Num.finite v ->
  Num.finite (minValue r) ->
  Num.lt (Num.sub (minValue r) (Num.of_Z 1)) (minValue r) = true ->
  Forall (fun cbi => Num.finite (cbi_maxValue cbi)) (classBreakInfos r) ->
  Num.lt v (minValue r) = false ->
  searchRenderer tn it attributes r
  = ([], Normal match find (fun cbi _ => Num.le v (cbi_maxValue cbi)) (classBreakInfos r) with
                | Some cbi => cbi_info cbi
                | None => default_info r
                end).
Proof.
  intros v Ht Hv Hmin Hbelow Hfin Hlow.
  rewrite (searchRenderer_classBreaks tn it attributes r Ht). cbv zeta. fold v.
  rewrite Hlow. unfold find.
  rewrite (find_from_upper_bound v _ (classBreakInfos r) Hv Hfin 0
             (Num.sub (minValue r) (Num.of_Z 1))).
  - reflexivity.
  - reflexivity.
  - apply (lower_bound_passed v (minValue r)); assumption.
  - intros j Hj. reflexivity.
Qed.

Lemma classBreaks_first_upper_bound_witness :
  searchRenderer no_numeric_strings some_inherited_text (population (Num.of_Z 25))
    (population_renderer
       [break_entry 10 "low"; break_entry 30 "high"; break_entry 20 "mid"])
  = ([], Normal (cbi_info (break_entry 30 "high"))).
Proof.
  apply (classBreaks_first_upper_bound no_numeric_strings some_inherited_text
           (population (Num.of_Z 25))
           (population_renderer
              [break_entry 10 "low"; break_entry 30 "high"; break_entry 20 "mid"])).
  - reflexivity.
  - exact I.
  - exact I.
  - vm_compute. reflexivity.
  - repeat constructor.
  - reflexivity.
Defined.

Lemma find_from_none {A : Type} (test : A -> nat -> bool) (l : list A) :
  (forall x i, test x i = false) -> forall k, find_from test k l = None.
Proof.
  intros Hno. induction l as [|x l IH]; intros k; [reflexivity|].
  simpl. rewrite Hno. apply IH.
Qed.

(** X11. For a class-breaks renderer, a feature whose classification
    attribute does not read as a number (it is missing, or converts to NaN)
    gets the default icon and symbol: no comparison with NaN holds, so no
    entry matches, and nothing is thrown. *)
Theorem classBreaks_unreadable_value (tn : string -> number) (it : string -> string)
    (attributes : gmap string value) (r : Renderer) :
  r_type r = Some CLASS_BREAKS ->
  (number_of tn (read attributes (str (field r))) = Num.NaN ->
   searchRenderer tn it attributes r = ([], Normal (default_info r)))
  /\ (attributes !! str (field r) = None ->
      searchRenderer tn it attributes r = ([], Normal (default_info r))).
Proof.
  intros Ht.
  assert (Hnan : number_of tn (read attributes (str (field r))) = Num.NaN ->
                 searchRenderer tn it attributes r = ([], Normal (default_info r))).
  { intros Hnan. rewrite (searchRenderer_classBreaks tn it attributes r Ht).
    cbv zeta. rewrite Hnan. cbn [Num.lt]. unfold find.
    rewrite find_from_none; [reflexivity|]. intros x i. unfold Num.gt.
    destruct (at_index _ i); reflexivity. }
  split; [exact Hnan|].
  intros Hmissing. apply Hnan. unfold read. rewrite Hmissing.
  destruct (inherited (str (field r))); reflexivity.
Qed.

Lemma classBreaks_unreadable_value_witness :
  searchRenderer no_numeric_strings some_inherited_text ∅ (population_renderer [break_entry 10 "low"])
  = ([], Normal (default_info (population_renderer [break_entry 10 "low"]))).
Proof.
  apply (classBreaks_unreadable_value no_numeric_strings some_inherited_text ∅
           (population_renderer [break_entry 10 "low"])).
  - reflexivity.
  - reflexivity.
Defined.

(** ** The renderer enhancer: what it leaves alone *)

Lemma same_uvi_data_map (f : UniqueValueInfo -> image) (l : list UniqueValueInfo) :
  Forall2 same_uvi_data l (map (fun uvi => set_uvi_imageUrl (f uvi) uvi) l).
Proof. induction l; constructor; [repeat split|assumption]. Qed.

Lemma same_cbi_data_map (f : ClassBreakInfo -> image) (l : list ClassBreakInfo) :
  Forall2 same_cbi_data l (map (fun cbi => set_cbi_imageUrl (f cbi) cbi) l).
Proof. induction l; constructor; [repeat split|assumption]. Qed.

Lemma same_uvi_data_refl (l : list UniqueValueInfo) : Forall2 same_uvi_data l l.
Proof. induction l; constructor; [repeat split|assumption]. Qed.

Lemma same_cbi_data_refl (l : list ClassBreakInfo) : Forall2 same_cbi_data l l.
Proof. induction l; constructor; [repeat split|assumption]. Qed.

Create HintDb frame.

#[local] Hint Resolve same_uvi_data_map same_cbi_data_map same_uvi_data_refl
  same_cbi_data_refl : frame.

Lemma enhance_default_frame (legendLookup : gmap string string) (r : Renderer) :
  same_renderer_data r (enhance_default legendLookup r)
  /\ r_imageUrl (enhance_default legendLookup r) = r_imageUrl r
  /\ uniqueValueInfos (enhance_default legendLookup r) = uniqueValueInfos r
  /\ classBreakInfos (enhance_default legendLookup r) = classBreakInfos r
  /\ (truthy (defaultLabel r) = false ->
      defaultImageUrl (enhance_default legendLookup r) = defaultImageUrl r).
Proof.
  unfold enhance_default, same_renderer_data.
  destruct (truthy (defaultLabel r)); cbn;
    repeat split; auto with frame; discriminate.
Qed.

(** The shapes of the three supported branches of [enhanceRenderer]. *)
Lemma enhanceRenderer_cases (r : Renderer) (legendObject : Legend) (layer0 : LegendLayer) :
  layers legendObject !! 0%nat = Some layer0 ->
  let legendLookup := make_legendLookup (legend layer0) in
  (r_type r = Some SIMPLE ->
   enhanceRenderer r legendObject
   = ([], Normal (set_imageUrl (lookup_get legendLookup (str (r_label r))) r)))
  /\ (r_type r = Some UNIQUE_VALUE ->
      enhanceRenderer r legendObject
      = ([], Normal (set_uniqueValueInfos
                       (map (fun uvi =>
                               set_uvi_imageUrl
                                 (lookup_get legendLookup (str (uvi_label uvi))) uvi)
                            (uniqueValueInfos r))
                       (enhance_default legendLookup r))))
  /\ (r_type r = Some CLASS_BREAKS ->
      enhanceRenderer r legendObject
      = ([], Normal (set_classBreakInfos
                       (map (fun cbi =>
                               set_cbi_imageUrl
                                 (lookup_get legendLookup (str (cbi_label cbi))) cbi)
                            (classBreakInfos r))
                       (enhance_default legendLookup r))))
  /\ (~ supported r ->
      enhanceRenderer r legendObject
      = ([Warn ("encountered unsupported renderer type: " +:+ str (r_type r))],
         Normal r)).
Proof.
  intros Hl legendLookup. unfold enhanceRenderer. rewrite Hl. fold legendLookup.
  repeat split.
  - intros ->. reflexivity.
  - intros Ht. known_type Ht. cbv zeta.
    destruct (enhance_default_frame legendLookup r) as (_ & _ & -> & _).
    reflexivity.
  - intros Ht. known_type Ht. cbv zeta.
    destruct (enhance_default_frame legendLookup r) as (_ & _ & _ & -> & _).
    reflexivity.
  - intros Hu. unknown_type Hu. reflexivity.
Qed.

Lemma supported_dec (r : Renderer) : supported r \/ ~ supported r.
Proof.
  unfold supported.
  destruct (is_str (r_type r) SIMPLE) eqn:E1; [apply is_str_true in E1; tauto|].
  destruct (is_str (r_type r) UNIQUE_VALUE) eqn:E2; [apply is_str_true in E2; tauto|].
  destruct (is_str (r_type r) CLASS_BREAKS) eqn:E3; [apply is_str_true in E3; tauto|].
  apply is_str_false in E1, E2, E3. tauto.
Qed.

(** Two different renderer types at once. *)
Ltac type_clash :=
  intros; exfalso; unfold SIMPLE, UNIQUE_VALUE, CLASS_BREAKS in *; congruence.

(** C9. [enhanceRenderer] only attaches icon references.  Whatever the
    legend, the renderer [r'] it leaves has the type, symbol, label, field
    names, minimum, default symbol and default label of [r], and entries with
    the values, bounds, labels and symbols of [r]'s entries, in the same
    number and order.  For a renderer of unknown type nothing at all changes.
    For a simple renderer only [imageUrl] is set; for a unique-value or
    class-breaks renderer only the [imageUrl] of the entries of that kind
    and, when [defaultLabel] is set, [defaultImageUrl]. *)
Theorem enhanceRenderer_frame (r r' : Renderer) (legendObject : Legend)
    (logged : list log) :
  enhanceRenderer r legendObject = (logged, Normal r') ->
  same_renderer_data r r'
  /\ (~ supported r -> r' = r)
  /\ (r_type r = Some SIMPLE ->
      uniqueValueInfos r' = uniqueValueInfos r
      /\ classBreakInfos r' = classBreakInfos r
      /\ defaultImageUrl r' = defaultImageUrl r)
  /\ (r_type r = Some UNIQUE_VALUE ->
      r_imageUrl r' = r_imageUrl r
      /\ classBreakInfos r' = classBreakInfos r
      /\ (truthy (defaultLabel r) = false -> defaultImageUrl r' = defaultImageUrl r))
  /\ (r_type r = Some CLASS_BREAKS ->
      r_imageUrl r' = r_imageUrl r
      /\ uniqueValueInfos r' = uniqueValueInfos r
      /\ (truthy (defaultLabel r) = false -> defaultImageUrl r' = defaultImageUrl r)).
Proof.
  intros Hrun.
  destruct (layers legendObject !! 0%nat) as [layer0|] eqn:Hl;
    [|unfold enhanceRenderer in Hrun; rewrite Hl in Hrun; discriminate].
  destruct (enhanceRenderer_cases r legendObject layer0 Hl)
    as (Hsimple & Hunique & Hclass & Hunknown).
  set (legendLookup := make_legendLookup (legend layer0)) in *.
  destruct (enhance_default_frame legendLookup r)
    as (Hsame & Himg & Huvis & Hcbis & Hdefault).
  destruct (supported_dec r) as [[Ht|[Ht|Ht]]|Hu].
  - rewrite (Hsimple Ht) in Hrun. injection Hrun as <- <-.
    repeat split; cbn; auto with frame; try type_clash.
    intros Hn. exfalso. apply Hn. left. exact Ht.
  - rewrite (Hunique Ht) in Hrun. injection Hrun as <- <-.
    unfold same_renderer_data in *. cbn.
    destruct Hsame as (? & ? & ? & ? & ? & ? & ? & ? & ? & ? & ? & ?).
    repeat split; auto with frame; try type_clash.
    intros Hn. exfalso. apply Hn. right. left. exact Ht.
  - rewrite (Hclass Ht) in Hrun. injection Hrun as <- <-.
    unfold same_renderer_data in *. cbn.
    destruct Hsame as (? & ? & ? & ? & ? & ? & ? & ? & ? & ? & ? & ?).
    repeat split; auto with frame; try type_clash.
    intros Hn. exfalso. apply Hn. right. right. exact Ht.
  - rewrite (Hunknown Hu) in Hrun. injection Hrun as <- <-.
    unfold same_renderer_data.
    repeat split; auto with frame; intros Ht; exfalso; apply Hu;
      unfold supported; tauto.
Qed.

Lemma enhanceRenderer_frame_witness :
  exists r',
    enhanceRenderer uv_kind_renderer road_legend = ([], Normal r')
    /\ same_renderer_data uv_kind_renderer r'
    /\ map uvi_imageUrl (uniqueValueInfos r')
       = [Image ("data:image/svg+xml," +:+ emptySVG)]
    /\ r_imageUrl r' = NoImage /\ defaultImageUrl r' = NoImage.
Proof.
  eexists. split; [vm_compute; reflexivity|].
  match goal with
  | |- same_renderer_data _ ?r' /\ _ =>
      destruct (enhanceRenderer_frame uv_kind_renderer r' road_legend [])
        as (Hsame & _ & _ & Hunique & _)
  end.
  - vm_compute. reflexivity.
  - split; [exact Hsame|]. split; [vm_compute; reflexivity|].
    destruct (Hunique eq_refl) as (Himg & _ & Hdefault).
    split; [exact Himg|]. apply Hdefault. reflexivity.
Defined.

(** *** Enhancing twice, and labels the legend does not have *)

Lemma enhance_default_type (legendLookup : gmap string string) (r : Renderer) :
  r_type (enhance_default legendLookup r) = r_type r.
Proof. unfold enhance_default. destruct (truthy (defaultLabel r)); reflexivity. Qed.

Lemma enhance_default_again (legendLookup : gmap string string) (r : Renderer)
    (uvis : list UniqueValueInfo) (cbis : list ClassBreakInfo) :
  enhance_default legendLookup
    (set_uniqueValueInfos uvis (enhance_default legendLookup r))
  = set_uniqueValueInfos uvis (enhance_default legendLookup r)
  /\ enhance_default legendLookup
       (set_classBreakInfos cbis (enhance_default legendLookup r))
     = set_classBreakInfos cbis (enhance_default legendLookup r).
Proof.
  unfold enhance_default. destruct (truthy (defaultLabel r)) eqn:Hl; cbn; rewrite Hl;
    split; reflexivity.
Qed.

(** X13. [enhanceRenderer] is idempotent: run again with the same legend
    on the renderer it has left, it logs the same lines and leaves that
    renderer as it is. *)
Theorem enhanceRenderer_idempotent (r r' : Renderer) (legendObject : Legend)
    (logged : list log) :
  enhanceRenderer r legendObject = (logged, Normal r') ->
  enhanceRenderer r' legendObject = (logged, Normal r').
Proof.
  intros Hrun.
  destruct (layers legendObject !! 0%nat) as [layer0|] eqn:Hl;
    [|unfold enhanceRenderer in Hrun; rewrite Hl in Hrun; discriminate].
  destruct (enhanceRenderer_cases r legendObject layer0 Hl)
    as (Hsimple & Hunique & Hclass & Hunknown).
  destruct (enhanceRenderer_cases r' legendObject layer0 Hl)
    as (Hsimple' & Hunique' & Hclass' & Hunknown').
  set (legendLookup := make_legendLookup (legend layer0)) in *.
  destruct (supported_dec r) as [[Ht|[Ht|Ht]]|Hu].
  - rewrite (Hsimple Ht) in Hrun. injection Hrun as <- <-.
    rewrite Hsimple' by exact Ht. reflexivity.
  - rewrite (Hunique Ht) in Hrun. injection Hrun as <- <-.
    rewrite Hunique' by (cbn; rewrite enhance_default_type; exact Ht).
    cbn [uniqueValueInfos set_uniqueValueInfos].
    rewrite (proj1 (enhance_default_again legendLookup r _ [])).
    rewrite map_map. reflexivity.
  - rewrite (Hclass Ht) in Hrun. injection Hrun as <- <-.
    rewrite Hclass' by (cbn; rewrite enhance_default_type; exact Ht).
    cbn [classBreakInfos set_classBreakInfos].
    rewrite (proj2 (enhance_default_again legendLookup r [] _)).
    rewrite map_map. reflexivity.
  - rewrite (Hunknown Hu) in Hrun. injection Hrun as <- <-.
    apply Hunknown, Hu.
Qed.

Lemma enhanceRenderer_idempotent_witness :
  exists r',
    enhanceRenderer uv_kind_renderer road_legend = ([], Normal r')
    /\ enhanceRenderer r' road_legend = ([], Normal r').
Proof.
  eexists. split; [vm_compute; reflexivity|].
  apply (enhanceRenderer_idempotent uv_kind_renderer _ road_legend []).
  vm_compute. reflexivity.
Defined.

Lemma lookup_get_not_own (items : list LegendItem) (key : string) :
  key ∉ map item_key items ->
  lookup_get (make_legendLookup items) key = not_own key.
Proof.
  intros Hk. unfold lookup_get, make_legendLookup.
  assert (Hfold : forall (acc : gmap string string) l,
             key ∉ map item_key l ->
             foldl (fun o legItem => lookup_set (str (label legItem)) (dataUrl legItem) o)
                   acc l !! key
             = acc !! key).
  { intros acc l. revert acc. induction l as [|x l IH]; intros acc Hl; [reflexivity|].
    cbn [map] in Hl. apply not_elem_of_cons in Hl as [Hne Hl].
    cbn [foldl]. rewrite (IH _ Hl). unfold lookup_set.
    destruct (str (label x) =? "__proto__")%string; [reflexivity|].
    apply lookup_insert_ne. unfold item_key in Hne. congruence. }
  rewrite (Hfold ∅ items Hk), lookup_empty. reflexivity.
Qed.

(** X14. A branch whose label no legend entry carries gets no icon:
    [enhanceRenderer] sets its [imageUrl] (or [defaultImageUrl]) to what
    the lookup object has under a name it does not own, which is [undefined]
    for every label except the names of the members an object inherits. *)
Theorem enhanceRenderer_label_not_in_legend (r r' : Renderer) (legendObject : Legend)
    (layer0 : LegendLayer) (logged : list log) :
  layers legendObject !! 0%nat = Some layer0 ->
  enhanceRenderer r legendObject = (logged, Normal r') ->
  let unlisted (l : option string) := str l ∉ map item_key (legend layer0) in
  (r_type r = Some SIMPLE -> unlisted (r_label r) ->
   r_imageUrl r' = not_own (str (r_label r)))
  /\ (r_type r = Some UNIQUE_VALUE ->
      forall i uvi', uniqueValueInfos r' !! i = Some uvi' -> unlisted (uvi_label uvi') ->
                     uvi_imageUrl uvi' = not_own (str (uvi_label uvi')))
  /\ (r_type r = Some CLASS_BREAKS ->
      forall i cbi', classBreakInfos r' !! i = Some cbi' -> unlisted (cbi_label cbi') ->
                     cbi_imageUrl cbi' = not_own (str (cbi_label cbi')))
  /\ (r_type r = Some UNIQUE_VALUE \/ r_type r = Some CLASS_BREAKS ->
      truthy (defaultLabel r) = true -> unlisted (defaultLabel r) ->
      defaultImageUrl r' = not_own (str (defaultLabel r))).
Proof.
  intros Hl Hrun unlisted.
  destruct (enhanceRenderer_cases r legendObject layer0 Hl)
    as (Hsimple & Hunique & Hclass & _).
  set (legendLookup := make_legendLookup (legend layer0)) in *.
  split; [|split; [|split]].
  - intros Ht Hk. rewrite (Hsimple Ht) in Hrun. injection Hrun as <- <-. cbn.
    apply lookup_get_not_own, Hk.
  - intros Ht i uvi' Hi Hk. rewrite (Hunique Ht) in Hrun. injection Hrun as <- <-.
    cbn in Hi. rewrite list_lookup_fmap in Hi.
    destruct (uniqueValueInfos r !! i) as [uvi|]; [|discriminate].
    injection Hi as <-. cbn in *. apply lookup_get_not_own, Hk.
  - intros Ht i cbi' Hi Hk. rewrite (Hclass Ht) in Hrun. injection Hrun as <- <-.
    cbn in Hi. rewrite list_lookup_fmap in Hi.
    destruct (classBreakInfos r !! i) as [cbi|]; [|discriminate].
    injection Hi as <-. cbn in *. apply lookup_get_not_own, Hk.
  - intros [Ht|Ht] Hd Hk.
    + rewrite (Hunique Ht) in Hrun. injection Hrun as <- <-. cbn.
      unfold enhance_default. rewrite Hd. cbn. apply lookup_get_not_own, Hk.
    + rewrite (Hclass Ht) in Hrun. injection Hrun as <- <-. cbn.
      unfold enhance_default. rewrite Hd. cbn. apply lookup_get_not_own, Hk.
Qed.

Lemma enhanceRenderer_label_not_in_legend_witness :
  exists r',
    enhanceRenderer cities_renderer road_legend = ([], Normal r')
    /\ r_imageUrl r' = NoImage.
Proof.
  eexists. split; [vm_compute; reflexivity|].
  match goal with
  | |- r_imageUrl ?r' = _ =>
      destruct (enhanceRenderer_label_not_in_legend
                  cities_renderer r' road_legend
                  {| layerId := 0;
                     legend := [{| label := Some "Road"; imageData := Some emptySVG;
                                   contentType := Some "image/svg+xml"; base := "" |}] |}
                  [])
        as (Hsimple & _)
  end.
  - reflexivity.
  - vm_compute. reflexivity.
  - apply Hsimple; [reflexivity|].
    apply (bool_decide_unpack _). vm_compute. exact I.
Defined.

(** *** The classification of features, before and after *)

Lemma enhanceRenderer_same_data (r r' : Renderer) (legendObject : Legend)
    (logged : list log) :
  enhanceRenderer r legendObject = (logged, Normal r') -> same_renderer_data r r'.
Proof.
  intros Hrun.
  destruct (layers legendObject !! 0%nat) as [layer0|] eqn:Hl;
    [|unfold enhanceRenderer in Hrun; rewrite Hl in Hrun; discriminate].
  destruct (enhanceRenderer_cases r legendObject layer0 Hl)
    as (Hsimple & Hunique & Hclass & Hunknown).
  set (legendLookup := make_legendLookup (legend layer0)) in *.
  destruct (enhance_default_frame legendLookup r) as (Hsame & _).
  destruct (supported_dec r) as [[Ht|[Ht|Ht]]|Hu].
  - rewrite (Hsimple Ht) in Hrun. injection Hrun as <- <-.
    unfold same_renderer_data. cbn. repeat split; auto with frame.
  - rewrite (Hunique Ht) in Hrun. injection Hrun as <- <-.
    unfold same_renderer_data in *. cbn.
    destruct Hsame as (? & ? & ? & ? & ? & ? & ? & ? & ? & ? & ? & ?).
    repeat split; auto with frame.
  - rewrite (Hclass Ht) in Hrun. injection Hrun as <- <-.
    unfold same_renderer_data in *. cbn.
    destruct Hsame as (? & ? & ? & ? & ? & ? & ? & ? & ? & ? & ? & ?).
    repeat split; auto with frame.
  - rewrite (Hunknown Hu) in Hrun. injection Hrun as <- <-.
    unfold same_renderer_data. repeat split; auto with frame.
Qed.

(** [find] on two lists whose elements correspond and pass the test
    together. *)
Lemma find_from_Forall2 {A : Type} (R : A -> A -> Prop) (test test' : A -> nat -> bool)
    (l l' : list A) :
  Forall2 R l l' ->
  (forall x y i, R x y -> test x i = test' y i) ->
  forall k, option_Forall2 R (find_from test k l) (find_from test' k l').
Proof.
  intros Hall Htest. induction Hall as [|x y l l' Hxy Hall IH]; intros k; simpl.
  - constructor.
  - rewrite (Htest x y k Hxy). destruct (test' y k); [constructor; exact Hxy|apply IH].
Qed.

Lemma same_cbi_bounds (l l' : list ClassBreakInfo) :
  Forall2 same_cbi_data l l' -> map cbi_maxValue l' = map cbi_maxValue l.
Proof.
  induction 1 as [|x y l l' (Hv & _) _ IH]; [reflexivity|].
  simpl. rewrite Hv, IH. reflexivity.
Qed.

Section Classification.

Variable string_to_number : string -> number.
Variable inherited_text : string -> string.

(** Two renderers with the same data classify every feature alike: the
    same log lines, the same completion, the same symbol. *)
Lemma searchRenderer_same_data (attributes : gmap string value) (r r' : Renderer) :
  same_renderer_data r r' ->
  (searchRenderer string_to_number inherited_text attributes r').1
  = (searchRenderer string_to_number inherited_text attributes r).1
  /\ symbol <$> (searchRenderer string_to_number inherited_text attributes r').2
     = symbol <$> (searchRenderer string_to_number inherited_text attributes r).2.
Proof.
  intros (Ht & Hs & _ & Hf1 & Hf2 & Hf3 & Hf & Hmin & Hds & _ & Huvis & Hcbis).
  unfold searchRenderer. rewrite Ht, Hf1, Hf2, Hf3, Hf, Hmin, Hs, Hds.
  destruct (is_str (r_type r) SIMPLE); [split; reflexivity|].
  destruct (is_str (r_type r) UNIQUE_VALUE).
  { cbv zeta. split; [reflexivity|]. cbn [snd].
    destruct (match read attributes (str (field1 r)) with
              | Scalar (VStr s) => Normal s
              | _ => toString_method inherited_text (read attributes (str (field1 r)))
              end) as [k|e]; [|reflexivity].
    cbn [mbind completion_bind]. unfold find.
    match goal with
    | |- context [find_from ?t 0%nat (uniqueValueInfos r')] =>
        assert (Hfind : option_Forall2 same_uvi_data
                          (find_from t 0%nat (uniqueValueInfos r))
                          (find_from t 0%nat (uniqueValueInfos r')))
    end.
    { apply find_from_Forall2; [exact Huvis|].
      intros x y i (Hv & _). cbn beta. rewrite Hv. reflexivity. }
    destruct Hfind as [x y (_ & _ & Hsym)|]; cbn; [rewrite Hsym|]; reflexivity. }
  destruct (is_str (r_type r) CLASS_BREAKS); [|split; reflexivity].
  cbv zeta. rewrite (same_cbi_bounds _ _ Hcbis).
  destruct (Num.lt _ (minValue r)); [split; reflexivity|].
  unfold find.
  match goal with
  | |- context [find_from ?t 0%nat (classBreakInfos r')] =>
      assert (Hfind : option_Forall2 same_cbi_data
                        (find_from t 0%nat (classBreakInfos r))
                        (find_from t 0%nat (classBreakInfos r')))
  end.
  { apply find_from_Forall2; [exact Hcbis|].
    intros x y i (Hv & _). cbn beta. rewrite Hv. reflexivity. }
  destruct Hfind as [x y (_ & _ & Hsym)|]; cbn; [rewrite Hsym|]; split; reflexivity.
Qed.

(** X15. Enhancing a renderer changes the symbol of no feature: on the
    renderer that [enhanceRenderer] leaves, [getGraphicSymbol] logs and
    returns, for every attributes mapping, what it does on the renderer
    before the call. *)
Theorem enhanceRenderer_keeps_symbols (r r' : Renderer) (legendObject : Legend)
    (logged : list log) (attributes : gmap string value) :
  enhanceRenderer r legendObject = (logged, Normal r') ->
  getGraphicSymbol string_to_number inherited_text attributes r'
  = getGraphicSymbol string_to_number inherited_text attributes r.
Proof.
  intros Hrun. unfold getGraphicSymbol. cbv zeta.
  destruct (searchRenderer_same_data attributes r r'
              (enhanceRenderer_same_data r r' legendObject logged Hrun)) as [-> ->].
  reflexivity.
Qed.

End Classification.

Lemma enhanceRenderer_keeps_symbols_witness :
  exists r',
    enhanceRenderer two_field_renderer road_legend = ([], Normal r')
    /\ getGraphicSymbol no_numeric_strings some_inherited_text (attributes_A "B") r'
       = getGraphicSymbol no_numeric_strings some_inherited_text (attributes_A "B")
           two_field_renderer.
Proof.
  eexists. split; [vm_compute; reflexivity|].
  apply (enhanceRenderer_keeps_symbols no_numeric_strings some_inherited_text
           two_field_renderer _ road_legend [] (attributes_A "B")).
  vm_compute. reflexivity.
Defined.

(** ** The legend builder *)

Section LegendFacts.

Variable inherited_text : string -> string.

#[local] Abbreviation entry_of :=
  (fun b : option Symbol * option string => symbolToLegend inherited_text b.1 b.2).

Lemma symbolToLegend_throw (sym : option Symbol) (lbl : option string) (e : exn) :
  convert inherited_text sym blank = Throw e ->
  symbolToLegend inherited_text sym lbl
  = ([LogError "Issue encountered when converting symbol to legend image" (Some e)],
     error_item).
Proof. intros H. unfold symbolToLegend. cbv zeta. rewrite H. reflexivity. Qed.

Lemma symbolToLegend_normal (sym : option Symbol) (lbl : option string) (p : Picture) :
  convert inherited_text sym blank = Normal p ->
  symbolToLegend inherited_text sym lbl
  = ([], {| label := lbl; imageData := p_imageData p;
            contentType := p_contentType p; base := p_base p |}).
Proof. intros H. unfold symbolToLegend. cbv zeta. rewrite H. reflexivity. Qed.

Lemma convert_text_symbol (s : Symbol) (initial : Picture) :
  s_type s = Some "esriTS" ->
  convert inherited_text (Some s) initial
  = Throw (Error "no support for feature service legend of text symbols").
Proof. intros H. unfold convert. rewrite H. reflexivity. Qed.

Lemma scrapeListRenderer_branches {A : Type} `{Child A} (r : Renderer) (l : list A) :
  scrapeListRenderer inherited_text r l
  = (concat (map (fun b => (entry_of b).1) (children l ++ default_branch r)),
     map (fun b => (entry_of b).2) (children l ++ default_branch r)).
Proof.
  unfold scrapeListRenderer, default_branch, children. cbv zeta.
  rewrite !map_map.
  destruct (defaultSymbol r) as [s|]; cbn [fst snd].
  - rewrite !map_app, !map_map, concat_app. cbn [map concat fst snd].
    rewrite app_nil_r. reflexivity.
  - rewrite !app_nil_r, !map_map. reflexivity.
Qed.

(** [rendererToLegend] makes one layer, whose entries are the conversions
    of the renderer's branches, each on its own. *)
Lemma rendererToLegend_branches (r : Renderer) (index : Z) :
  (rendererToLegend inherited_text r index).2
  = one_layer index (map (fun b => (entry_of b).2) (branches r)).
Proof.
  unfold rendererToLegend, branches.
  destruct (is_str (r_type r) SIMPLE); [reflexivity|].
  destruct (is_str (r_type r) UNIQUE_VALUE).
  { rewrite scrapeListRenderer_branches. reflexivity. }
  destruct (is_str (r_type r) CLASS_BREAKS).
  { rewrite scrapeListRenderer_branches. reflexivity. }
  reflexivity.
Qed.

Lemma rendererToLegend_unsupported (r : Renderer) (index : Z) :
  ~ supported r ->
  rendererToLegend inherited_text r index
  = ([LogError ("encountered unsupported renderer legend type: " +:+ str (r_type r))
               None],
     {| layers := [{| layerId := index; legend := [] |}] |}).
Proof.
  intros Hu. unfold rendererToLegend. unknown_type Hu. reflexivity.
Qed.

(** C8. For a renderer whose type is none of simple, uniqueValue and
    classBreaks, [rendererToLegend] logs an error and returns a legend with
    exactly one layer, whose [layerId] is the given index and whose entry
    list is empty.  For a supported renderer it returns, likewise, exactly
    one layer, at position 0, with the given index and with all the entries
    generated for the renderer's branches, in order. *)
Theorem rendererToLegend_one_layer (r : Renderer) (index : Z) :
  (~ supported r ->
     rendererToLegend inherited_text r index
     = ([LogError ("encountered unsupported renderer legend type: "
                   +:+ str (r_type r)) None],
        {| layers := [{| layerId := index; legend := [] |}] |}))
  /\ (supported r ->
      exists items,
        layers (rendererToLegend inherited_text r index).2
        = [{| layerId := index; legend := items |}]
        /\ layers (rendererToLegend inherited_text r index).2 !! 0%nat
           = Some {| layerId := index; legend := items |}
        /\ items = map (fun b => (entry_of b).2) (branches r)
        /\ length items = length (branches r)).
Proof.
  split; [apply rendererToLegend_unsupported|].
  intros _. exists (map (fun b => (entry_of b).2) (branches r)).
  rewrite rendererToLegend_branches. cbn.
  repeat split. apply length_map.
Qed.

(** C5. In the legend [rendererToLegend] makes, every branch of the
    renderer has its entry, at the branch's position, and that entry is the
    conversion of that branch alone: the blank 32x32 image labelled
    ['Error!'] when the branch's symbol is a text symbol ([esriTS]), the
    same blank entry when converting the symbol raises any exception (it is
    caught and logged), and the branch's own label with the converted image
    otherwise.  No exception reaches the caller and no sibling entry is
    lost. *)
Theorem text_symbol_entry (r : Renderer) (index : Z) :
  exists items,
    (rendererToLegend inherited_text r index).2 = one_layer index items
    /\ length items = length (branches r)
    /\ forall i sym lbl,
        branches r !! i = Some (sym, lbl) ->
        exists item,
          items !! i = Some item
          /\ item = (symbolToLegend inherited_text sym lbl).2
          /\ ((exists s, sym = Some s /\ s_type s = Some "esriTS") ->
              item = error_item /\ imageData item = Some emptySVG
              /\ label item = Some "Error!")
          /\ (forall e, convert inherited_text sym blank = Throw e ->
                        item = error_item)
          /\ (forall p, convert inherited_text sym blank = Normal p ->
                        item = {| label := lbl; imageData := p_imageData p;
                                  contentType := p_contentType p;
                                  base := p_base p |}).
Proof.
  exists (map (fun b => (entry_of b).2) (branches r)).
  split; [apply rendererToLegend_branches|].
  split; [apply length_map|].
  intros i sym lbl Hi. exists (symbolToLegend inherited_text sym lbl).2.
  split; [rewrite list_lookup_fmap, Hi; reflexivity|].
  split; [reflexivity|].
  split; [|split].
  - intros (s & -> & Hts).
    rewrite (symbolToLegend_throw _ _ _ (convert_text_symbol s blank Hts)).
    repeat split.
  - intros e He. rewrite (symbolToLegend_throw _ _ _ He). reflexivity.
  - intros p Hp. rewrite (symbolToLegend_normal _ _ _ Hp). reflexivity.
Qed.

(** X5. A picture marker or picture fill symbol goes into the legend as
    it is: its own image data and content type, flagged base64, under the
    branch's label. *)
Theorem picture_symbol_entry (s : Symbol) (lbl : option string) :
  s_type s = Some "esriPMS" \/ s_type s = Some "esriPFS" ->
  symbolToLegend inherited_text (Some s) lbl
  = ([], {| label := lbl; imageData := s_imageData s;
            contentType := s_contentType s; base := ";base64" |}).
Proof.
  intros Ht.
  apply (symbolToLegend_normal (Some s) lbl
           {| p_imageData := s_imageData s; p_contentType := s_contentType s;
              p_base := ";base64" |}).
  unfold convert. destruct Ht as [-> | ->]; reflexivity.
Qed.

(** *** Legend construction followed by enhancement *)

Lemma lookup_set_eq (key url : string) (o : gmap string string) :
  key <> "__proto__" -> lookup_set key url o !! key = Some url.
Proof.
  intros Hk. unfold lookup_set.
  destruct (String.eqb_spec key "__proto__") as [|_]; [contradiction|].
  apply lookup_insert_eq.
Qed.

Lemma lookup_set_ne (key url k : string) (o : gmap string string) :
  key <> k -> lookup_set key url o !! k = o !! k.
Proof.
  intros Hk. unfold lookup_set.
  destruct (key =? "__proto__")%string; [reflexivity|].
  apply lookup_insert_ne. exact Hk.
Qed.

Lemma legendLookup_fold (items : list LegendItem) :
  forall (acc : gmap string string) (k : string),
    NoDup (map item_key items) ->
    (forall i legItem,
        items !! i = Some legItem -> item_key legItem = k -> k <> "__proto__" ->
        foldl (fun o legItem => lookup_set (str (label legItem)) (dataUrl legItem) o)
              acc items !! k
        = Some (dataUrl legItem))
    /\ (k ∉ map item_key items ->
        foldl (fun o legItem => lookup_set (str (label legItem)) (dataUrl legItem) o)
              acc items !! k
        = acc !! k).
Proof.
  induction items as [|x items IH]; intros acc k Hnd.
  - split; [intros i legItem Hi; destruct i; discriminate|reflexivity].
  - cbn [map] in Hnd. apply NoDup_cons in Hnd as [Hx Hnd].
    cbn [foldl].
    destruct (IH (lookup_set (str (label x)) (dataUrl x) acc) k Hnd) as [IHin IHout].
    split.
    + intros [|i] legItem Hi Hkey Hproto.
      * injection Hi as <-. rewrite IHout by (rewrite <- Hkey; exact Hx).
        unfold item_key in Hkey. rewrite Hkey. apply lookup_set_eq, Hproto.
      * apply (IHin i legItem Hi Hkey Hproto).
    + intros Hk. cbn [map] in Hk. apply not_elem_of_cons in Hk as [Hne Hk].
      rewrite (IHout Hk). apply lookup_set_ne. unfold item_key in Hne. congruence.
Qed.

(** With pairwise distinct labels, none of them [__proto__], the lookup
    gives each legend entry's own data URL back under its label. *)
Lemma legendLookup_entry (items : list LegendItem) (i : nat) (legItem : LegendItem) :
  NoDup (map item_key items) ->
  "__proto__" ∉ map item_key items ->
  items !! i = Some legItem ->
  lookup_get (make_legendLookup items) (item_key legItem) = Image (dataUrl legItem).
Proof.
  intros Hnd Hproto Hi. unfold lookup_get, make_legendLookup.
  destruct (legendLookup_fold items ∅ (item_key legItem) Hnd) as [Hin _].
  rewrite (Hin i legItem Hi eq_refl); [reflexivity|].
  intros Heq. apply Hproto. rewrite <- Heq.
  apply list_elem_of_fmap. exists legItem. split; [reflexivity|].
  apply list_elem_of_lookup. eauto.
Qed.

Lemma legendLookup_fold_other (items : list LegendItem) :
  forall (acc : gmap string string) (k : string),
    k ∉ map item_key items ->
    foldl (fun o legItem => lookup_set (str (label legItem)) (dataUrl legItem) o)
          acc items !! k
    = acc !! k.
Proof.
  induction items as [|x items IH]; intros acc k Hk; [reflexivity|].
  cbn [map] in Hk. apply not_elem_of_cons in Hk as [Hne Hk].
  cbn [foldl]. rewrite (IH _ k Hk). apply lookup_set_ne.
  unfold item_key in Hne. congruence.
Qed.

(** X6. Labels that collide: the lookup keeps, for a label, the data URL of
    the last legend entry that carries it (last write wins). *)
Theorem legendLookup_last_write_wins (before after : list LegendItem)
    (legItem : LegendItem) :
  item_key legItem <> "__proto__" ->
  item_key legItem ∉ map item_key after ->
  lookup_get (make_legendLookup (before ++ legItem :: after)%list) (item_key legItem)
  = Image (dataUrl legItem).
Proof.
  intros Hproto Hlast. unfold lookup_get, make_legendLookup.
  rewrite foldl_app. cbn [foldl].
  rewrite (legendLookup_fold_other after _ _ Hlast).
  unfold item_key. rewrite lookup_set_eq by exact Hproto. reflexivity.
Qed.

Lemma converted_label (b : option Symbol * option string) :
  converts inherited_text b -> label (entry_of b).2 = b.2.
Proof. intros [p Hp]. rewrite (symbolToLegend_normal _ _ _ Hp). reflexivity. Qed.

Lemma converted_keys (bs : list (option Symbol * option string)) :
  Forall (converts inherited_text) bs ->
  map item_key (map (fun b => (entry_of b).2) bs)
  = map (fun b : option Symbol * option string => str b.2) bs.
Proof.
  intros Hall. rewrite map_map. apply map_ext_Forall.
  eapply Forall_impl; [exact Hall|].
  intros b Hb. unfold item_key. cbn beta. rewrite (converted_label b Hb). reflexivity.
Qed.

(** The icon the lookup holds for a branch. *)
Lemma lookup_branch (r : Renderer) (i : nat) (b : option Symbol * option string) :
  Forall (converts inherited_text) (branches r) ->
  NoDup (branch_keys r) ->
  "__proto__" ∉ branch_keys r ->
  branches r !! i = Some b ->
  lookup_get (make_legendLookup (map (fun b => (entry_of b).2) (branches r))) (str b.2)
  = Image (dataUrl (entry_of b).2).
Proof.
  intros Hall Hnd Hproto Hi.
  assert (Hb : converts inherited_text b).
  { rewrite Forall_forall in Hall. apply Hall, list_elem_of_lookup. eauto. }
  rewrite <- (converted_label b Hb).
  apply (legendLookup_entry _ i).
  - rewrite (converted_keys _ Hall). exact Hnd.
  - rewrite (converted_keys _ Hall). exact Hproto.
  - rewrite list_lookup_fmap, Hi. reflexivity.
Qed.

Lemma branches_simple (r : Renderer) :
  r_type r = Some SIMPLE -> branches r = [(r_symbol r, r_label r)].
Proof. intros Ht. unfold branches. rewrite Ht. reflexivity. Qed.

Lemma branches_uniqueValue (r : Renderer) :
  r_type r = Some UNIQUE_VALUE ->
  branches r = (children (uniqueValueInfos r) ++ default_branch r)%list.
Proof. intros Ht. unfold branches. rewrite Ht. reflexivity. Qed.

Lemma branches_classBreaks (r : Renderer) :
  r_type r = Some CLASS_BREAKS ->
  branches r = (children (classBreakInfos r) ++ default_branch r)%list.
Proof. intros Ht. unfold branches. rewrite Ht. reflexivity. Qed.

Lemma child_branch {A : Type} `{Child A} (l : list A) (rest : list _) (i : nat) (c : A) :
  l !! i = Some c ->
  (children l ++ rest)%list !! i = Some (child_symbol c, child_label c).
Proof.
  intros Hi. rewrite lookup_app_l.
  - unfold children. rewrite list_lookup_fmap, Hi. reflexivity.
  - unfold children. rewrite length_map. apply lookup_lt_Some in Hi. exact Hi.
Qed.

Lemma default_branch_lookup {A : Type} `{Child A} (l : list A) (r : Renderer) (s : Symbol) :
  defaultSymbol r = Some s ->
  truthy (defaultLabel r) = true ->
  (children l ++ default_branch r)%list !! length l
  = Some (Some s, Some (str (defaultLabel r))).
Proof.
  intros Hs Hl. rewrite lookup_app_r; unfold children; rewrite length_map; [|lia].
  rewrite Nat.sub_diag. unfold default_branch, defaultLabel_or_empty.
  rewrite Hs, Hl. reflexivity.
Qed.

(** The default icon that [enhance_default] attaches. *)
Lemma enhance_default_attached (r : Renderer) (legendLookup : gmap string string) :
  truthy (defaultLabel r) = true ->
  defaultImageUrl (enhance_default legendLookup r)
  = lookup_get legendLookup (str (defaultLabel r)).
Proof. intros Hl. unfold enhance_default. rewrite Hl. reflexivity. Qed.

(** The lookup gives a legend entry's own data URL back under its label,
    unless the label is [__proto__] or a later entry carries it too. *)
Lemma legendLookup_last (items : list LegendItem) (i : nat) (legItem : LegendItem) :
  items !! i = Some legItem ->
  item_key legItem <> "__proto__" ->
  (forall j x, (i < j)%nat -> items !! j = Some x -> item_key x <> item_key legItem) ->
  lookup_get (make_legendLookup items) (item_key legItem) = Image (dataUrl legItem).
Proof.
  intros Hi Hproto Hlater. unfold lookup_get, make_legendLookup.
  rewrite <- (take_drop_middle items i legItem Hi).
  rewrite foldl_app. cbn [foldl].
  rewrite (legendLookup_fold_other (drop (S i) items)).
  - unfold item_key. rewrite lookup_set_eq by exact Hproto. reflexivity.
  - intros Hin. apply list_elem_of_fmap in Hin as (x & Hx & Hin).
    apply list_elem_of_lookup in Hin as [j Hj].
    rewrite lookup_drop in Hj. apply (Hlater (S i + j)%nat x); [lia|exact Hj|congruence].
Qed.

(** The label under which the legend entry of a branch is stored: the
    branch's own when the symbol converts, ['Error!'] when it does not. *)
Lemma entry_key (b : option Symbol * option string) :
  (converts inherited_text b /\ item_key (entry_of b).2 = str b.2)
  \/ (~ converts inherited_text b /\ (entry_of b).2 = error_item).
Proof.
  destruct (convert inherited_text b.1 blank) as [p|e] eqn:E.
  - left. split; [exists p; exact E|]. unfold item_key.
    rewrite (symbolToLegend_normal _ _ _ E). reflexivity.
  - right. split; [intros [p Hp]; congruence|].
    rewrite (symbolToLegend_throw _ _ _ E). reflexivity.
Qed.

Lemma branch_keys_apart (r : Renderer) (i j : nat) (b b' : option Symbol * option string) :
  NoDup (branch_keys r) ->
  branches r !! i = Some b -> branches r !! j = Some b' -> str b'.2 = str b.2 -> i = j.
Proof.
  intros Hnd Hi Hj Heq.
  apply (NoDup_lookup (branch_keys r) i j (str b.2) Hnd); unfold branch_keys;
    rewrite list_lookup_fmap; [rewrite Hi|rewrite Hj]; cbn; congruence.
Qed.

(** The icon the lookup holds for a branch whose symbol converts. *)
Lemma lookup_round_trip (r : Renderer) (i : nat) (b : option Symbol * option string) :
  NoDup (branch_keys r) ->
  branches r !! i = Some b ->
  round_trips inherited_text r i b ->
  lookup_get (make_legendLookup (map (fun b => (entry_of b).2) (branches r))) (str b.2)
  = Image (dataUrl (entry_of b).2).
Proof.
  intros Hnd Hi (Hb & Hproto & Herr).
  assert (Hkey : item_key (entry_of b).2 = str b.2).
  { unfold item_key. rewrite (converted_label b Hb). reflexivity. }
  rewrite <- Hkey. apply (legendLookup_last _ i).
  - rewrite list_lookup_fmap, Hi. reflexivity.
  - rewrite Hkey. exact Hproto.
  - intros j x Hlt Hj. rewrite list_lookup_fmap in Hj.
    destruct (branches r !! j) as [b'|] eqn:Hb'; [|discriminate]. injection Hj as <-.
    rewrite Hkey. destruct (entry_key b') as [[_ Hk]|[Hfail Hk]]; rewrite Hk; intros Heq.
    + pose proof (branch_keys_apart r i j b b' Hnd Hi Hb' Heq). lia.
    + apply Hfail. apply (Herr (eq_sym Heq) j b' Hlt Hb').
Qed.

(** A branch whose symbol does not convert finds nothing under its label,
    its entry being stored under ['Error!']. *)
Lemma lookup_failed_branch (r : Renderer) (i : nat) (b : option Symbol * option string) :
  NoDup (branch_keys r) ->
  branches r !! i = Some b ->
  ~ converts inherited_text b ->
  str b.2 <> "Error!" ->
  lookup_get (make_legendLookup (map (fun b => (entry_of b).2) (branches r))) (str b.2)
  = not_own (str b.2).
Proof.
  intros Hnd Hi Hfail Herr. apply lookup_get_not_own.
  rewrite map_map. intros Hin. apply list_elem_of_fmap in Hin as (b' & Hk & Hin).
  apply list_elem_of_lookup in Hin as [j Hj]. cbn beta in Hk.
  destruct (entry_key b') as [[Hb' Hk']|[_ Hk']].
  - rewrite Hk' in Hk.
    pose proof (branch_keys_apart r i j b b' Hnd Hi Hj (eq_sym Hk)) as ->.
    rewrite Hi in Hj. injection Hj as <-. exact (Hfail Hb').
  - rewrite Hk' in Hk. apply Herr. exact Hk.
Qed.

(** After the last branch there is none. *)
Lemma last_branch_round_trips (r : Renderer) (i : nat) (b : option Symbol * option string) :
  length (branches r) = S i ->
  converts inherited_text b -> str b.2 <> "__proto__" -> round_trips inherited_text r i b.
Proof.
  intros Hlen Hb Hproto. split; [exact Hb|]. split; [exact Hproto|].
  intros _ j b' Hlt Hj. apply lookup_lt_Some in Hj. lia.
Qed.

(** C4 (amended). Take a supported renderer whose legend labels (each
    entry's label; the default label, or [''], when a default symbol is
    configured) are pairwise distinct as property keys.  Then
    [rendererToLegend(renderer, 0)] followed by [enhanceRenderer] on that
    legend attaches, to [renderer.imageUrl] of a simple renderer, to the
    [imageUrl] of a unique-value or class-breaks entry, and to
    [defaultImageUrl] when a default symbol and a non-empty default label
    are configured, exactly the data URI of the legend entry generated for
    that branch, on three conditions: the symbol of the branch converts
    without an exception; its label is not [__proto__]; and its label is
    not ['Error!'], unless every later branch converts as well.  A branch
    whose symbol does not convert, and whose label is not ['Error!'], gets
    what the lookup reads under a name it does not own: [undefined], or an
    inherited member. *)
Theorem legend_round_trip (r : Renderer) :
  supported r ->
  NoDup (branch_keys r) ->
  let legendObject := (rendererToLegend inherited_text r 0).2 in
  let icon_of sym lbl := Image (dataUrl (symbolToLegend inherited_text sym lbl).2) in
  exists r',
    enhanceRenderer r legendObject = ([], Normal r')
    /\ (r_type r = Some SIMPLE ->
        (converts inherited_text (r_symbol r, r_label r) ->
         str (r_label r) <> "__proto__" ->
         r_imageUrl r' = icon_of (r_symbol r) (r_label r))
        /\ (~ converts inherited_text (r_symbol r, r_label r) ->
            str (r_label r) <> "Error!" ->
            r_imageUrl r' = not_own (str (r_label r))))
    /\ (r_type r = Some UNIQUE_VALUE ->
        forall i uvi,
          uniqueValueInfos r !! i = Some uvi ->
          exists uvi',
            uniqueValueInfos r' !! i = Some uvi'
            /\ (round_trips inherited_text r i (uvi_symbol uvi, uvi_label uvi) ->
                uvi_imageUrl uvi' = icon_of (uvi_symbol uvi) (uvi_label uvi))
            /\ (~ converts inherited_text (uvi_symbol uvi, uvi_label uvi) ->
                str (uvi_label uvi) <> "Error!" ->
                uvi_imageUrl uvi' = not_own (str (uvi_label uvi))))
    /\ (r_type r = Some CLASS_BREAKS ->
        forall i cbi,
          classBreakInfos r !! i = Some cbi ->
          exists cbi',
            classBreakInfos r' !! i = Some cbi'
            /\ (round_trips inherited_text r i (cbi_symbol cbi, cbi_label cbi) ->
                cbi_imageUrl cbi' = icon_of (cbi_symbol cbi) (cbi_label cbi))
            /\ (~ converts inherited_text (cbi_symbol cbi, cbi_label cbi) ->
                str (cbi_label cbi) <> "Error!" ->
                cbi_imageUrl cbi' = not_own (str (cbi_label cbi))))
    /\ (r_type r = Some UNIQUE_VALUE \/ r_type r = Some CLASS_BREAKS ->
        forall s,
          defaultSymbol r = Some s ->
          truthy (defaultLabel r) = true ->
          (converts inherited_text (Some s, defaultLabel r) ->
           str (defaultLabel r) <> "__proto__" ->
           defaultImageUrl r' = icon_of (Some s) (Some (str (defaultLabel r))))
          /\ (~ converts inherited_text (Some s, defaultLabel r) ->
              str (defaultLabel r) <> "Error!" ->
              defaultImageUrl r' = not_own (str (defaultLabel r)))).
Proof.
  intros Hsup Hnd legendObject icon_of.
  assert (Hlayer : layers legendObject !! 0%nat
                   = Some {| layerId := 0;
                             legend := map (fun b => (entry_of b).2) (branches r) |}).
  { unfold legendObject. rewrite rendererToLegend_branches. reflexivity. }
  destruct (enhanceRenderer_cases r legendObject _ Hlayer)
    as (Hsimple & Hunique & Hclass & _).
  cbn [legend] in Hsimple, Hunique, Hclass.
  pose proof (fun i b => lookup_round_trip r i b Hnd) as Hicon.
  pose proof (fun i b => lookup_failed_branch r i b Hnd) as Hnone.
  set (legendLookup := make_legendLookup (map (fun b => (entry_of b).2) (branches r)))
    in *.
  assert (Hdefault : forall {A : Type} `{Child A} (l : list A) s,
             branches r = (children l ++ default_branch r)%list ->
             defaultSymbol r = Some s ->
             truthy (defaultLabel r) = true ->
             (converts inherited_text (Some s, defaultLabel r) ->
              str (defaultLabel r) <> "__proto__" ->
              lookup_get legendLookup (str (defaultLabel r))
              = icon_of (Some s) (Some (str (defaultLabel r))))
             /\ (~ converts inherited_text (Some s, defaultLabel r) ->
                 str (defaultLabel r) <> "Error!" ->
                 lookup_get legendLookup (str (defaultLabel r))
                 = not_own (str (defaultLabel r)))).
  { intros A HA l s Hbr Hs Hl.
    assert (Hlast : branches r !! length l = Some (Some s, Some (str (defaultLabel r)))).
    { rewrite Hbr. exact (default_branch_lookup l r s Hs Hl). }
    assert (Hlen : length (branches r) = S (length l)).
    { rewrite Hbr, length_app. unfold children, default_branch. rewrite length_map, Hs.
      simpl. lia. }
    split.
    - intros Hb Hproto.
      apply (Hicon (length l) (Some s, Some (str (defaultLabel r))) Hlast).
      apply last_branch_round_trips; [exact Hlen|exact Hb|exact Hproto].
    - intros Hb Herr.
      apply (Hnone (length l) (Some s, Some (str (defaultLabel r))) Hlast);
        [exact Hb|exact Herr]. }
  destruct Hsup as [Ht|[Ht|Ht]].
  - eexists. split; [apply (Hsimple Ht)|]. cbn.
    assert (Hfirst : branches r !! 0%nat = Some (r_symbol r, r_label r))
      by (rewrite (branches_simple r Ht); reflexivity).
    split; [|split; [type_clash|split; [type_clash|intros [Ht'|Ht']; type_clash]]].
    intros _. split.
    + intros Hb Hproto. apply (Hicon 0%nat (r_symbol r, r_label r) Hfirst).
      apply last_branch_round_trips; [|exact Hb|exact Hproto].
      rewrite (branches_simple r Ht). reflexivity.
    + intros Hb Herr. apply (Hnone 0%nat (r_symbol r, r_label r) Hfirst Hb Herr).
  - eexists. split; [apply (Hunique Ht)|]. cbn.
    split; [type_clash|]. split; [|split; [type_clash|]].
    + intros _ i uvi Hi.
      exists (set_uvi_imageUrl (lookup_get legendLookup (str (uvi_label uvi))) uvi).
      split; [rewrite list_lookup_fmap, Hi; reflexivity|]. cbn.
      assert (Hbr : branches r !! i = Some (uvi_symbol uvi, uvi_label uvi)).
      { rewrite (branches_uniqueValue r Ht).
        exact (child_branch (uniqueValueInfos r) (default_branch r) i uvi Hi). }
      split.
      * apply (Hicon i (uvi_symbol uvi, uvi_label uvi) Hbr).
      * apply (Hnone i (uvi_symbol uvi, uvi_label uvi) Hbr).
    + intros _ s Hs Hl. rewrite (enhance_default_attached r legendLookup Hl).
      apply (Hdefault _ _ (uniqueValueInfos r) s (branches_uniqueValue r Ht) Hs Hl).
  - eexists. split; [apply (Hclass Ht)|]. cbn.
    split; [type_clash|]. split; [type_clash|]. split.
    + intros _ i cbi Hi.
      exists (set_cbi_imageUrl (lookup_get legendLookup (str (cbi_label cbi))) cbi).
      split; [rewrite list_lookup_fmap, Hi; reflexivity|]. cbn.
      assert (Hbr : branches r !! i = Some (cbi_symbol cbi, cbi_label cbi)).
      { rewrite (branches_classBreaks r Ht).
        exact (child_branch (classBreakInfos r) (default_branch r) i cbi Hi). }
      split.
      * apply (Hicon i (cbi_symbol cbi, cbi_label cbi) Hbr).
      * apply (Hnone i (cbi_symbol cbi, cbi_label cbi) Hbr).
    + intros _ s Hs Hl. rewrite (enhance_default_attached r legendLookup Hl).
      apply (Hdefault _ _ (classBreakInfos r) s (branches_classBreaks r Ht) Hs Hl).
Qed.

End LegendFacts.

(** *** Closed examples for the legend builder *)

Lemma picture_symbol_entry_witness :
  symbolToLegend some_inherited_text (Some picture_marker) (Some "Station")
  = ([], {| label := Some "Station"; imageData := Some "iVBORw0KGgo=";
            contentType := Some "image/png"; base := ";base64" |})
  /\ dataUrl (symbolToLegend some_inherited_text (Some picture_marker)
                             (Some "Station")).2
     = "data:image/png;base64,iVBORw0KGgo=".
Proof.
  split.
  - apply (picture_symbol_entry some_inherited_text picture_marker (Some "Station")).
    left. reflexivity.
  - vm_compute. reflexivity.
Defined.

Lemma legendLookup_last_write_wins_witness :
  lookup_get (make_legendLookup [legend_item "Road" "first"; legend_item "Road" "second";
                                 legend_item "Rail" "third"])
             "Road"
  = Image "data:image/svg+xml,second".
Proof.
  apply (legendLookup_last_write_wins [legend_item "Road" "first"]
                                      [legend_item "Rail" "third"]
                                      (legend_item "Road" "second")).
  - vm_compute. discriminate.
  - apply (bool_decide_unpack _). vm_compute. exact I.
Defined.

Example circle_icon :
  makeSVG some_inherited_text (marker "esriSMSCircle" (Num.of_Z 40))
  = Normal ("<svg xmlns='http://www.w3.org/2000/svg' width='32' height='32'>" +:+
            "<circle r='14' cx='16' cy='16' stroke='rgb(0,0,0)' stroke-opacity='255'" +:+
            " stroke-width='1.5' stroke-linecap='butt' stroke-linejoin='miter'" +:+
            " stroke-miterlimit='4' stroke-dasharray='none' fill='rgb(255,0,0)'" +:+
            " fill-opacity='128' fill-rule='evenodd' transform='rotate(0,16,16)' />" +:+
            "</svg>").
Proof. vm_compute. reflexivity. Qed.

Example diamond_icon_path :
  props (makeGlyphSVG (marker "esriSMSDiamond" (Num.of_Z 40))) !! 0%nat
  = Some ("d", PString "M 2,16 16,30 30,16 16,2 Z").
Proof. vm_compute. reflexivity. Qed.

Lemma legend_round_trip_witness :
  exists r',
    enhanceRenderer mixed_places (rendererToLegend some_inherited_text mixed_places 0).2
    = ([], Normal r')
    /\ (exists uvi',
          uniqueValueInfos r' !! 0%nat = Some uvi'
          /\ uvi_imageUrl uvi'
             = Image (dataUrl (symbolToLegend some_inherited_text
                                 (Some (marker "esriSMSSquare" (Num.of_Z 8)))
                                 (Some "Town")).2))
    /\ (exists uvi', uniqueValueInfos r' !! 1%nat = Some uvi' /\ uvi_imageUrl uvi' = NoImage)
    /\ defaultImageUrl r'
       = Image (dataUrl (symbolToLegend some_inherited_text (Some solid_line)
                                        (Some "Other")).2).
Proof.
  destruct (legend_round_trip some_inherited_text mixed_places)
    as (r' & Hrun & _ & Hentries & _ & Hdefault).
  - right. left. reflexivity.
  - apply (bool_decide_unpack _). vm_compute. exact I.
  - exists r'. split; [exact Hrun|].
    specialize (Hentries eq_refl).
    destruct (Hentries 0%nat _ eq_refl) as (u0 & H0 & Hicon0 & _).
    destruct (Hentries 1%nat _ eq_refl) as (u1 & H1 & _ & Hnone1).
    split; [|split].
    + exists u0. split; [exact H0|]. apply Hicon0.
      split; [eexists; vm_compute; reflexivity|].
      split; [discriminate|]. intros Habs. discriminate Habs.
    + exists u1. split; [exact H1|]. rewrite Hnone1; [vm_compute; reflexivity| |].
      * intros [p Hp]. vm_compute in Hp. discriminate Hp.
      * discriminate.
    + apply (Hdefault (or_introl eq_refl) solid_line eq_refl eq_refl).
      * eexists. vm_compute. reflexivity.
      * discriminate.
Defined.

(** A branch labelled ['Error!'] whose symbol converts, before a branch
    whose symbol does not: the entry of the second is stored under the same
    label, and the first gets the blank icon, not its own. *)
Example error_label_collision :
  let r := places_renderer [entry "odd" "Error!" solid_fill;
                            entry "name" "Name" text_symbol] in
  branch_keys r = ["Error!"; "Name"; "Other"]
  /\ match (enhanceRenderer r (rendererToLegend some_inherited_text r 0).2).2 with
     | Normal r' =>
         (uvi_imageUrl <$> uniqueValueInfos r' !! 0%nat)
         = Some (Image (dataUrl error_item))
     | Throw _ => False
     end
  /\ (dataUrl error_item
      =? dataUrl (symbolToLegend some_inherited_text (Some solid_fill)
                                 (Some "Error!")).2)%string = false.
Proof. cbv zeta. repeat split; vm_compute; reflexivity. Qed.

(** C4 (counterexample). The one branch of [cities_renderer] is labelled
    ['Cities'], but its legend entry is generated under the label
    ['Error!']; the enhancement looks up ['Cities'] and attaches
    [undefined], not the data URI of that entry. *)
Lemma round_trip_loses_text_symbol_icon :
  branch_keys cities_renderer = ["Cities"]
  /\ (forall inherited_text,
        (rendererToLegend inherited_text cities_renderer 0).2
        = one_layer 0 [error_item])
  /\ enhanceRenderer cities_renderer (one_layer 0 [error_item])
     = ([], Normal (set_imageUrl NoImage cities_renderer))
  /\ Image (dataUrl error_item) <> NoImage.
Proof.
  split; [reflexivity|]. split; [intros inherited_text; reflexivity|].
  split; [vm_compute; reflexivity|]. discriminate.
Qed.

(** A label [__proto__] is never stored in the lookup, and reads back as
    the inherited member. *)
Example proto_label_not_stored :
  lookup_get (make_legendLookup [{| label := Some "__proto__"; imageData := Some emptySVG;
                                    contentType := Some "image/svg+xml"; base := "" |}])
             "__proto__"
  = Inherited "__proto__".
Proof. vm_compute. reflexivity. Qed.

(** One text symbol among the entries: its entry is the blank one, its
    siblings and the default are converted. *)
Example text_symbol_among_entries :
  let r := places_renderer [entry "town" "Town" (marker "esriSMSSquare" (Num.of_Z 8));
                            entry "name" "Name" text_symbol;
                            entry "park" "Park" solid_fill] in
  let result := rendererToLegend some_inherited_text r 7 in
  map label (concat (map legend (layers result.2)))
  = [Some "Town"; Some "Error!"; Some "Park"; Some "Other"]
  /\ concat (map legend (layers result.2)) !! 1%nat = Some error_item
  /\ map layerId (layers result.2) = [7]
  /\ result.1
     = [LogError "Issue encountered when converting symbol to legend image"
                 (Some (Error "no support for feature service legend of text symbols"))].
Proof. vm_compute. repeat split. Qed.

(** ** The icon drawer: which symbols it draws *)

Section Icons.

Variable inherited_text : string -> string.

Lemma colourToOpacity_alpha (c : option (list number)) :
  (has_alpha c = true -> exists o, colourToOpacity c = Normal o)
  /\ (has_alpha c = false -> colourToOpacity c = Throw TypeError).
Proof.
  unfold has_alpha, colourToOpacity. destruct c as [c|]; [destruct (c !! 3%nat)|];
    split; intros H; try discriminate; eauto.
Qed.

Lemma applyLine_drawable (lineSymbol : option Symbol) (svg : SVG) :
  (line_drawable lineSymbol = true ->
   exists svg', applyLine lineSymbol svg = Normal svg' /\ svg_type svg' = svg_type svg)
  /\ (line_drawable lineSymbol = false -> applyLine lineSymbol svg = Throw TypeError).
Proof.
  unfold line_drawable, applyLine. destruct lineSymbol as [l|].
  2: { split; intros H; [discriminate|reflexivity]. }
  destruct (colourToOpacity_alpha (s_color l)) as [Hok Hno].
  destruct (has_alpha (s_color l)).
  - destruct (Hok eq_refl) as [o ->]. cbn.
    destruct (s_width l); split; intros H; try discriminate; eauto.
  - rewrite (Hno eq_refl). split; intros H; [discriminate|reflexivity].
Qed.

Lemma applyFill_alpha (symbol : Symbol) (svg : SVG) :
  (has_alpha (s_color symbol) = true ->
   exists svg', applyFill symbol svg = Normal svg' /\ svg_type svg' = svg_type svg)
  /\ (has_alpha (s_color symbol) = false -> applyFill symbol svg = Throw TypeError).
Proof.
  unfold applyFill. destruct (colourToOpacity_alpha (s_color symbol)) as [Hok Hno].
  destruct (has_alpha (s_color symbol)).
  - destruct (Hok eq_refl) as [o ->]. split; intros H; [|discriminate]. cbn. eauto.
  - rewrite (Hno eq_refl). split; intros H; [discriminate|reflexivity].
Qed.

Lemma makeMarkerSVG_drawable (symbol : Symbol) :
  (line_drawable (s_outline symbol) && has_alpha (s_color symbol) = true ->
   exists svg, makeMarkerSVG symbol = Normal svg
               /\ (svg_type svg = "circle" \/ svg_type svg = "path"))
  /\ (line_drawable (s_outline symbol) && has_alpha (s_color symbol) = false ->
      makeMarkerSVG symbol = Throw TypeError).
Proof.
  unfold makeMarkerSVG.
  set (svg := if is_str (s_style symbol) "esriSMSCircle" then makeCircleSVG symbol
              else makeGlyphSVG symbol).
  assert (Htype : svg_type svg = "circle" \/ svg_type svg = "path").
  { unfold svg. destruct (is_str (s_style symbol) "esriSMSCircle"); [left|right]; reflexivity. }
  destruct (applyLine_drawable (s_outline symbol) svg) as [Hok Hno].
  destruct (line_drawable (s_outline symbol)).
  - destruct (Hok eq_refl) as (svg1 & -> & Ht1). cbn.
    destruct (applyFill_alpha symbol svg1) as [Hok2 Hno2].
    destruct (has_alpha (s_color symbol)).
    + destruct (Hok2 eq_refl) as (svg2 & -> & Ht2). cbn.
      split; intros H; [|discriminate]. eexists. split; [reflexivity|].
      cbn. rewrite Ht2, Ht1. exact Htype.
    + rewrite (Hno2 eq_refl). split; intros H; [discriminate|reflexivity].
  - rewrite (Hno eq_refl). split; intros H; [discriminate|reflexivity].
Qed.

Lemma makePolySVG_drawable (symbol : Symbol) :
  (line_drawable (s_outline symbol) && has_alpha (s_color symbol) = true ->
   exists svg, makePolySVG symbol = Normal svg /\ svg_type svg = "rect")
  /\ (line_drawable (s_outline symbol) && has_alpha (s_color symbol) = false ->
      makePolySVG symbol = Throw TypeError).
Proof.
  unfold makePolySVG. cbv zeta.
  match goal with |- context [applyFill symbol ?s] => set (svg := s) end.
  destruct (applyFill_alpha symbol svg) as [Hok Hno].
  destruct (has_alpha (s_color symbol)).
  - destruct (Hok eq_refl) as (svg1 & -> & Ht1). cbn.
    destruct (applyLine_drawable (s_outline symbol) svg1) as [Hok2 Hno2].
    destruct (line_drawable (s_outline symbol)).
    + destruct (Hok2 eq_refl) as (svg2 & -> & Ht2).
      split; intros H; [|discriminate]. exists svg2. split; [reflexivity|].
      rewrite Ht2, Ht1. reflexivity.
    + rewrite (Hno2 eq_refl). split; intros H; [discriminate|reflexivity].
  - rewrite (Hno eq_refl). cbn. rewrite andb_false_r.
    split; intros H; [discriminate|reflexivity].
Qed.

Lemma makeLineSVG_drawable (symbol : Symbol) :
  (line_drawable (Some symbol) = true ->
   exists svg, makeLineSVG symbol = Normal svg /\ svg_type svg = "path")
  /\ (line_drawable (Some symbol) = false -> makeLineSVG symbol = Throw TypeError).
Proof.
  unfold makeLineSVG. cbv zeta.
  match goal with |- context [applyLine _ ?s] => set (svg := s) end.
  destruct (applyLine_drawable (Some symbol) svg) as [Hok Hno].
  split; intros H.
  - destruct (Hok H) as (svg1 & -> & Ht1). exists svg1. split; [reflexivity|].
    rewrite Ht1. reflexivity.
  - apply Hno, H.
Qed.

Lemma single_quoted_app (a b : string) :
  single_quoted (a +:+ b) = single_quoted a +:+ single_quoted b.
Proof.
  induction a as [|c a IH]; [reflexivity|].
  change (String c a +:+ b) with (String c (a +:+ b)).
  cbn [single_quoted]. rewrite IH. reflexivity.
Qed.

Lemma single_quoted_no_dquote (s : string) :
  occurs (ascii_of_nat 34) (single_quoted s) = false.
Proof.
  induction s as [|c s IH]; [reflexivity|].
  cbn [single_quoted occurs]. rewrite IH, orb_false_r.
  destruct (Ascii.eqb c (ascii_of_nat 34)) eqn:E; [reflexivity|exact E].
Qed.

Lemma occurs_app (c : ascii) (a b : string) :
  occurs c (a +:+ b) = occurs c a || occurs c b.
Proof.
  induction a as [|x a IH]; [reflexivity|].
  change (String x a +:+ b) with (String x (a +:+ b)).
  cbn [occurs]. rewrite IH, orb_assoc. reflexivity.
Qed.

(** The drawer of a simple symbol, in one step: the element it draws, or
    the TypeError of a symbol it cannot draw. *)
Lemma makeSVG_drawable (symbol : Symbol) :
  (drawable symbol = true ->
   exists svg, makeSVG inherited_text symbol
               = Normal (svg_head +:+ single_quoted (belch inherited_text svg) +:+ "</svg>")
               /\ svg_type svg ∈ ["circle"; "path"; "rect"])
  /\ (drawable symbol = false -> makeSVG inherited_text symbol = Throw TypeError).
Proof.
  unfold makeSVG, drawable. cbv zeta.
  assert (Hdoc : forall svg,
             single_quoted
               (("<svg xmlns=" +:+ dquote +:+ "http://www.w3.org/2000/svg" +:+ dquote +:+
                 " width=" +:+ dquote +:+ Num.to_string maxW +:+ dquote +:+
                 " height=" +:+ dquote +:+ Num.to_string maxH +:+ dquote +:+ ">")
                +:+ belch inherited_text svg +:+ "</svg>")
             = svg_head +:+ single_quoted (belch inherited_text svg) +:+ "</svg>").
  { intros svg. rewrite !single_quoted_app. reflexivity. }
  destruct (is_str (s_type symbol) "esriSMS") eqn:Hsms.
  { cbn [orb]. destruct (makeMarkerSVG_drawable symbol) as [Hok Hno]. split; intros H.
    - destruct (Hok H) as (svg & -> & Ht). exists svg. cbn. rewrite Hdoc.
      split; [reflexivity|]. destruct Ht as [-> | ->]; repeat constructor.
    - rewrite (Hno H). reflexivity. }
  destruct (is_str (s_type symbol) "esriSFS") eqn:Hsfs.
  { cbn [orb]. destruct (makePolySVG_drawable symbol) as [Hok Hno]. split; intros H.
    - destruct (Hok H) as (svg & -> & Ht). exists svg. cbn. rewrite Hdoc.
      split; [reflexivity|]. rewrite Ht. repeat constructor.
    - rewrite (Hno H). reflexivity. }
  cbn [orb].
  destruct (is_str (s_type symbol) "esriSLS" || is_str (s_type symbol) "esriCLS").
  { destruct (makeLineSVG_drawable symbol) as [Hok Hno]. split; intros H.
    - destruct (Hok H) as (svg & -> & Ht). exists svg. cbn. rewrite Hdoc.
      split; [reflexivity|]. rewrite Ht. repeat constructor.
    - rewrite (Hno H). reflexivity. }
  split; intros H; [discriminate|reflexivity].
Qed.

(** X17. [makeSVG] returns exactly for the symbols that are drawable: a
    marker or a fill needs an outline with a width, and the colour of the
    symbol and of its outline, when given, need their alpha component; a
    line needs its width and the same of its colour.  On every other symbol
    it throws a TypeError. *)
Theorem makeSVG_completes_iff (symbol : Symbol) :
  ((exists svg, makeSVG inherited_text symbol = Normal svg) <-> drawable symbol = true)
  /\ (makeSVG inherited_text symbol = Throw TypeError <-> drawable symbol = false).
Proof.
  destruct (makeSVG_drawable symbol) as [Hok Hno].
  destruct (drawable symbol).
  - destruct (Hok eq_refl) as (svg & Hsvg & _). rewrite Hsvg.
    split; split; intros H; try discriminate H; try reflexivity; eauto.
  - rewrite (Hno eq_refl). split; split; intros H; try reflexivity; try discriminate H.
    destruct H as [svg H]. discriminate H.
Qed.

Lemma belch_shape (svg : SVG) :
  exists attributes, belch inherited_text svg = "<" +:+ svg_type svg +:+ attributes +:+ " />".
Proof. unfold belch. eauto. Qed.

(** X18. Whatever [makeSVG] returns is the opening tag of the 32 by 32
    SVG document, then the text that [belch] prints for a [circle], a
    [path] or a [rect] element, every double quote of it turned into a
    single one, then the closing tag; that text begins with [<] and the
    name of the element and ends with [ />], and the whole holds no double
    quote.  The blank image [emptySVG] is the two tags and nothing between
    them. *)
Theorem makeSVG_document (symbol : Symbol) (svg : string) :
  makeSVG inherited_text symbol = Normal svg ->
  (exists element attributes,
      svg_type element ∈ ["circle"; "path"; "rect"]
      /\ svg = svg_head +:+ single_quoted (belch inherited_text element) +:+ "</svg>"
      /\ single_quoted (belch inherited_text element)
         = "<" +:+ svg_type element +:+ attributes +:+ " />")
  /\ occurs (ascii_of_nat 34) svg = false
  /\ emptySVG = svg_head +:+ "</svg>".
Proof.
  intros Hsvg.
  destruct (makeSVG_drawable symbol) as [Hok Hno].
  destruct (drawable symbol); [|rewrite (Hno eq_refl) in Hsvg; discriminate].
  destruct (Hok eq_refl) as (element & Hrun & Htag).
  assert (Hdoc : svg = svg_head +:+ single_quoted (belch inherited_text element) +:+ "</svg>")
    by congruence.
  split; [|split; [|reflexivity]].
  - exists element.
    destruct (belch_shape element) as [attributes Hshape].
    exists (single_quoted attributes). split; [exact Htag|]. split; [exact Hdoc|].
    rewrite Hshape.
    rewrite (single_quoted_app "<"), (single_quoted_app (svg_type element)),
      (single_quoted_app _ " />").
    assert (Hq : single_quoted (svg_type element) = svg_type element).
    { repeat (apply elem_of_cons in Htag as [->|Htag]; [reflexivity|]).
      apply elem_of_nil in Htag. contradiction. }
    rewrite Hq. reflexivity.
  - rewrite Hdoc, !occurs_app, single_quoted_no_dquote. reflexivity.
Qed.

(** *** Which symbols get a legend entry of their own *)

Lemma convert_ready (symbol : option Symbol) :
  (legend_ready symbol = true -> exists p, convert inherited_text symbol blank = Normal p)
  /\ (legend_ready symbol = false -> exists e, convert inherited_text symbol blank = Throw e).
Proof.
  unfold legend_ready, convert. destruct symbol as [s|].
  2: { split; intros H; [discriminate|eauto]. }
  destruct (is_simple_symbol (s_type s)).
  { destruct (makeSVG_drawable s) as [Hok Hno]. split; intros H.
    - destruct (Hok H) as (svg & -> & _). cbn. eauto.
    - rewrite (Hno H). cbn. eauto. }
  destruct (is_picture_symbol (s_type s)) eqn:Hpic.
  { split; intros H; [eauto|]. exfalso.
    unfold is_picture_symbol in Hpic.
    apply orb_true_iff in Hpic as [Hp|Hp]; apply is_str_true in Hp;
      rewrite Hp in H; discriminate H. }
  destruct (is_str (s_type s) "esriTS"); split; intros H; try discriminate H; eauto.
Qed.

(** X19. [symbolToLegend] keeps the label it is given, and logs nothing,
    exactly for a symbol that is drawable, if of a simple type, and of any
    type other than text otherwise; for every other symbol, an absent one
    included, it logs one line and returns the blank entry labelled
    ['Error!']. *)
Theorem symbolToLegend_outcome (symbol : option Symbol) (lbl : option string) :
  (legend_ready symbol = true ->
   (symbolToLegend inherited_text symbol lbl).1 = []
   /\ label (symbolToLegend inherited_text symbol lbl).2 = lbl)
  /\ (legend_ready symbol = false ->
      exists e,
        symbolToLegend inherited_text symbol lbl
        = ([LogError "Issue encountered when converting symbol to legend image" (Some e)],
           error_item)).
Proof.
  destruct (convert_ready symbol) as [Hok Hno]. split; intros H.
  - destruct (Hok H) as [p Hp].
    rewrite (symbolToLegend_normal inherited_text symbol lbl p Hp). split; reflexivity.
  - destruct (Hno H) as [e He]. exists e.
    apply (symbolToLegend_throw inherited_text symbol lbl e He).
Qed.

Lemma failure_log_entry (b : option Symbol * option string) :
  (symbolToLegend inherited_text b.1 b.2).1 = failure_log inherited_text b.
Proof.
  unfold failure_log, symbolToLegend. cbv zeta.
  destruct (convert inherited_text b.1 blank); reflexivity.
Qed.

(** What [rendererToLegend] logs for a supported renderer: the lines of its
    branches, in order. *)
Lemma rendererToLegend_log (r : Renderer) (index : Z) :
  supported r ->
  (rendererToLegend inherited_text r index).1
  = concat (map (failure_log inherited_text) (branches r)).
Proof.
  intros Hsup. unfold rendererToLegend, branches.
  destruct (is_str (r_type r) SIMPLE) eqn:Hs.
  { cbn. rewrite app_nil_r. apply (failure_log_entry (r_symbol r, r_label r)). }
  destruct (is_str (r_type r) UNIQUE_VALUE) eqn:Hu.
  { rewrite scrapeListRenderer_branches. cbn [fst]. f_equal.
    apply map_ext. intros b. apply failure_log_entry. }
  destruct (is_str (r_type r) CLASS_BREAKS) eqn:Hc.
  { rewrite scrapeListRenderer_branches. cbn [fst]. f_equal.
    apply map_ext. intros b. apply failure_log_entry. }
  exfalso. apply is_str_false in Hs, Hu, Hc.
  destruct Hsup as [Ht|[Ht|Ht]]; contradiction.
Qed.

Lemma failure_log_ready (b : option Symbol * option string) :
  (legend_ready b.1 = true -> failure_log inherited_text b = [])
  /\ (legend_ready b.1 = false -> exists line, failure_log inherited_text b = [line]).
Proof.
  unfold failure_log. destruct (convert_ready b.1) as [Hok Hno]. split; intros H.
  - destruct (Hok H) as [p ->]. reflexivity.
  - destruct (Hno H) as [e ->]. eauto.
Qed.

Lemma failure_logs_count (bs : list (option Symbol * option string)) :
  length (concat (map (failure_log inherited_text) bs))
  = length (List.filter (fun b => negb (legend_ready b.1)) bs)
  /\ (concat (map (failure_log inherited_text) bs) = []
      <-> Forall (fun b => legend_ready b.1 = true) bs).
Proof.
  induction bs as [|b bs [IHlen IHnil]]; [split; [reflexivity|split; auto]|].
  cbn [map concat List.filter]. rewrite length_app.
  destruct (failure_log_ready b) as [Hok Hno].
  destruct (legend_ready b.1) eqn:Hb; cbn [negb].
  - rewrite (Hok eq_refl). cbn [app length]. split; [exact IHlen|].
    rewrite Forall_cons. rewrite IHnil. tauto.
  - destruct (Hno eq_refl) as [line ->]. cbn [app length]. split; [lia|].
    rewrite Forall_cons. split; [discriminate|]. intros [Habs _]. congruence.
Qed.

(** X20. For a supported renderer [rendererToLegend] logs one line for
    each branch whose symbol does not convert, in the order of the
    branches, and nothing else: as many lines as there are such branches,
    and none exactly when every branch has a symbol that converts. *)
Theorem rendererToLegend_logs_failures (r : Renderer) (index : Z) :
  supported r ->
  let logged := (rendererToLegend inherited_text r index).1 in
  logged = concat (map (failure_log inherited_text) (branches r))
  /\ length logged
     = length (List.filter (fun b => negb (legend_ready b.1)) (branches r))
  /\ (logged = [] <-> Forall (fun b => legend_ready b.1 = true) (branches r)).
Proof.
  intros Hsup logged. unfold logged. rewrite (rendererToLegend_log r index Hsup).
  destruct (failure_logs_count (branches r)) as [Hlen Hnil].
  split; [reflexivity|]. split; [exact Hlen|exact Hnil].
Qed.

End Icons.

Lemma makeSVG_document_witness :
  (exists element attributes,
      svg_type element ∈ ["circle"; "path"; "rect"]
      /\ solid_line_icon
         = svg_head +:+ single_quoted (belch some_inherited_text element) +:+ "</svg>"
      /\ single_quoted (belch some_inherited_text element)
         = "<" +:+ svg_type element +:+ attributes +:+ " />")
  /\ occurs (ascii_of_nat 34) solid_line_icon = false
  /\ emptySVG = svg_head +:+ "</svg>".
Proof.
  apply (makeSVG_document some_inherited_text solid_line solid_line_icon).
  vm_compute. reflexivity.
Defined.

(** The path of a marker is printed as it is: a quote in it ends the
    attribute, and what follows is read as markup of the document. *)
Example path_with_quote :
  makeSVG some_inherited_text quoted_path_marker
  = Normal ("<svg xmlns='http://www.w3.org/2000/svg' width='32' height='32'>" +:+
            "<path d='M 0,0' /><rect x='1' stroke='rgb(0,0,0)' stroke-opacity='255'" +:+
            " stroke-width='1.5' stroke-linecap='butt' stroke-linejoin='miter'" +:+
            " stroke-miterlimit='4' stroke-dasharray='none' fill='rgb(255,0,0)'" +:+
            " fill-opacity='128' fill-rule='evenodd' transform='rotate(0,16,16)' />" +:+
            "</svg>").
Proof. vm_compute. reflexivity. Qed.

Example undrawable_symbols :
  map drawable [solid_line; solid_fill; marker "esriSMSCross" (Num.of_Z 8);
                marker_without_alpha; text_symbol; picture_marker]
  = [true; true; true; false; false; false]
  /\ makeSVG some_inherited_text marker_without_alpha = Throw TypeError
  /\ map legend_ready [Some marker_without_alpha; Some text_symbol; Some picture_marker;
                       Some empty_object; None]
     = [false; false; true; true; false].
Proof. vm_compute. repeat split. Qed.

Lemma rendererToLegend_logs_failures_witness :
  (rendererToLegend some_inherited_text mixed_places 0).1
  = concat (map (failure_log some_inherited_text) (branches mixed_places))
  /\ length (rendererToLegend some_inherited_text mixed_places 0).1 = 2%nat.
Proof.
  destruct (rendererToLegend_logs_failures some_inherited_text mixed_places 0)
    as (Hlog & Hlen & _).
  - right. left. reflexivity.
  - split; [exact Hlog|]. rewrite Hlen. vm_compute. reflexivity.
Defined.

(** ** From the renderer to the icon of a feature *)

Section FeatureIcons.

Variable inherited_text : string -> string.
Variable string_to_number : string -> number.

Lemma legend_image_label (symbol : option Symbol) (lbl : option string) :
  dataUrl (symbolToLegend inherited_text symbol lbl).2 = legend_image inherited_text symbol.
Proof.
  unfold legend_image, symbolToLegend. cbv zeta.
  destruct (convert inherited_text symbol blank); reflexivity.
Qed.

Lemma find_from_map {A : Type} (f : A -> A) (test : A -> nat -> bool) (l : list A) :
  (forall x i, test (f x) i = test x i) ->
  forall k, find_from test k (map f l) = f <$> find_from test k l.
Proof.
  intros Hf. induction l as [|x l IH]; intros k; [reflexivity|].
  simpl. rewrite Hf. destruct (test x k); [reflexivity|apply IH].
Qed.

Lemma find_index {A : Type} (test : A -> nat -> bool) (l : list A) (x : A) :
  find test l = Some x -> exists i, l !! i = Some x.
Proof.
  intros H. pose proof (find_spec test l) as Hs. rewrite H in Hs.
  destruct Hs as (i & Hi & _). eauto.
Qed.

(** X16. Take a supported renderer whose branch symbols all convert, whose
    legend labels are pairwise distinct and not [__proto__], and whose
    default symbol, if there is one, has a default label.  After
    [rendererToLegend] and [enhanceRenderer] on the legend it made, every
    feature that the classifier gives a symbol gets, as its icon, the data
    URL of the legend image of that very symbol. *)
Theorem feature_icon_is_legend_image (r : Renderer) :
  supported r ->
  Forall (converts inherited_text) (branches r) ->
  NoDup (branch_keys r) ->
  "__proto__" ∉ branch_keys r ->
  (defaultSymbol r <> None -> truthy (defaultLabel r) = true) ->
  exists r',
    enhanceRenderer r (rendererToLegend inherited_text r 0).2 = ([], Normal r')
    /\ forall attributes info s,
         searchRenderer string_to_number inherited_text attributes r = ([], Normal info) ->
         symbol info = Some s ->
         searchRenderer string_to_number inherited_text attributes r'
         = ([], Normal {| imageUrl := Image (legend_image inherited_text (Some s));
                          symbol := Some s |}).
Proof.
  intros Hsup Hall Hnd Hproto Hdefault.
  set (legendObject := (rendererToLegend inherited_text r 0).2).
  assert (Hlayer : layers legendObject !! 0%nat
                   = Some {| layerId := 0;
                             legend := map (fun b => (symbolToLegend inherited_text b.1 b.2).2)
                                           (branches r) |}).
  { unfold legendObject. rewrite rendererToLegend_branches. reflexivity. }
  destruct (enhanceRenderer_cases r legendObject _ Hlayer)
    as (Hsimple & Hunique & Hclass & _).
  cbn [legend] in Hsimple, Hunique, Hclass.
  assert (Hicon : forall i sym lbl,
             branches r !! i = Some (sym, lbl) ->
             lookup_get (make_legendLookup
                           (map (fun b => (symbolToLegend inherited_text b.1 b.2).2)
                                (branches r))) (str lbl)
             = Image (legend_image inherited_text sym)).
  { intros i sym lbl Hi.
    pose proof (lookup_branch inherited_text r i (sym, lbl) Hall Hnd Hproto Hi) as Hb.
    cbn [fst snd] in Hb. rewrite Hb, legend_image_label. reflexivity. }
  set (legendLookup := make_legendLookup _) in *.
  assert (Hicon_default : forall {A : Type} `{Child A} (l : list A) s,
             branches r = (children l ++ default_branch r)%list ->
             defaultSymbol r = Some s ->
             defaultImageUrl (enhance_default legendLookup r)
             = Image (legend_image inherited_text (Some s))).
  { intros A HA l s Hb Hs.
    assert (Hl : truthy (defaultLabel r) = true) by (apply Hdefault; congruence).
    rewrite (enhance_default_attached r legendLookup Hl).
    apply (Hicon (length l) (Some s) (Some (str (defaultLabel r)))). rewrite Hb.
    exact (default_branch_lookup l r s Hs Hl). }
  destruct (enhance_default_frame legendLookup r) as (Hsame & _).
  destruct Hsame as (Ht' & _ & _ & Hf1 & Hf2 & Hf3 & Hf & Hmin & Hds & _).
  destruct Hsup as [Ht|[Ht|Ht]].
  - eexists. split; [apply (Hsimple Ht)|]. intros attributes info s Hrun Hs.
    rewrite (searchRenderer_simple _ _ _ _ Ht) in Hrun. injection Hrun as <-.
    cbn in Hs. rewrite (searchRenderer_simple _ _ _ (set_imageUrl _ r) Ht). cbn.
    rewrite (Hicon 0%nat (r_symbol r) (r_label r)), Hs; [reflexivity|].
    rewrite (branches_simple r Ht). reflexivity.
  - eexists. split; [apply (Hunique Ht)|]. intros attributes info s Hrun Hs.
    rewrite (searchRenderer_uniqueValue _ _ _ _ Ht) in Hrun.
    match goal with
    | |- searchRenderer _ _ _ ?r' = _ =>
        assert (Ht2 : r_type r' = Some UNIQUE_VALUE) by (cbn; congruence);
        rewrite (searchRenderer_uniqueValue _ _ _ r' Ht2);
        replace (composite_key inherited_text attributes r')
          with (composite_key inherited_text attributes r)
          by (unfold composite_key; cbn; rewrite Hf1, Hf2, Hf3; reflexivity)
    end.
    cbn [field1 set_uniqueValueInfos uniqueValueInfos]. rewrite Hf1.
    unfold find in *. rewrite find_from_map by reflexivity.
    destruct (read attributes (str (field1 r))) as [[]|]; try discriminate Hrun;
      (destruct (find_from _ 0%nat (uniqueValueInfos r)) as [uvi|] eqn:Hfind;
       injection Hrun as <-; cbn in Hs; unfold uvi_info; cbn;
       [destruct (find_index _ _ _ Hfind) as [i Hi];
        rewrite (Hicon i (uvi_symbol uvi) (uvi_label uvi)), Hs; [reflexivity|];
        rewrite (branches_uniqueValue r Ht);
        exact (child_branch (uniqueValueInfos r) (default_branch r) i uvi Hi)
       |unfold default_info; cbn;
        rewrite (Hicon_default _ _ (uniqueValueInfos r) s (branches_uniqueValue r Ht) Hs),
          Hds, Hs; reflexivity]).
  - eexists. split; [apply (Hclass Ht)|]. intros attributes info s Hrun Hs.
    rewrite (searchRenderer_classBreaks _ _ _ _ Ht) in Hrun.
    match goal with
    | |- searchRenderer _ _ _ ?r' = _ =>
        assert (Ht2 : r_type r' = Some CLASS_BREAKS) by (cbn; congruence);
        rewrite (searchRenderer_classBreaks _ _ _ r' Ht2)
    end.
    cbv zeta in *. unfold upperBounds in *.
    cbn [field minValue set_classBreakInfos classBreakInfos]. rewrite Hf, Hmin.
    rewrite map_map. cbn [cbi_maxValue set_cbi_imageUrl].
    unfold find in *. rewrite find_from_map by reflexivity.
    assert (Hdef : default_info
                     (set_classBreakInfos
                        (map (fun cbi => set_cbi_imageUrl
                                           (lookup_get legendLookup (str (cbi_label cbi))) cbi)
                             (classBreakInfos r))
                        (enhance_default legendLookup r))
                   = {| imageUrl := defaultImageUrl (enhance_default legendLookup r);
                        symbol := defaultSymbol r |}).
    { unfold default_info. cbn. rewrite Hds. reflexivity. }
    rewrite Hdef.
    destruct (Num.lt _ (minValue r)).
    + injection Hrun as <-. cbn in Hs.
      rewrite (Hicon_default _ _ (classBreakInfos r) s (branches_classBreaks r Ht) Hs), Hs.
      reflexivity.
    + destruct (find_from _ 0%nat (classBreakInfos r)) as [cbi|] eqn:Hfind;
        injection Hrun as <-; cbn in Hs; unfold cbi_info; cbn.
      * destruct (find_index _ _ _ Hfind) as [i Hi].
        rewrite (Hicon i (cbi_symbol cbi) (cbi_label cbi)), Hs; [reflexivity|].
        rewrite (branches_classBreaks r Ht).
        exact (child_branch (classBreakInfos r) (default_branch r) i cbi Hi).
      * rewrite (Hicon_default _ _ (classBreakInfos r) s (branches_classBreaks r Ht) Hs), Hs.
        reflexivity.
Qed.

End FeatureIcons.

Lemma feature_icon_is_legend_image_witness :
  exists r',
    enhanceRenderer towns_and_parks
                    (rendererToLegend some_inherited_text towns_and_parks 0).2
    = ([], Normal r')
    /\ searchRenderer no_numeric_strings some_inherited_text {[ "kind" := VStr "park" ]} r'
       = ([], Normal {| imageUrl := Image (legend_image some_inherited_text (Some solid_fill));
                        symbol := Some solid_fill |})
    /\ searchRenderer no_numeric_strings some_inherited_text {[ "kind" := VStr "lake" ]} r'
       = ([], Normal {| imageUrl := Image (legend_image some_inherited_text (Some solid_line));
                        symbol := Some solid_line |}).
Proof.
  destruct (feature_icon_is_legend_image some_inherited_text no_numeric_strings
                                         towns_and_parks)
    as (r' & Hrun & Hicon).
  - right. left. reflexivity.
  - repeat constructor; eexists; vm_compute; reflexivity.
  - apply (bool_decide_unpack _). vm_compute. exact I.
  - apply (bool_decide_unpack _). vm_compute. exact I.
  - intros _. reflexivity.
  - exists r'. split; [exact Hrun|]. split.
    + apply (Hicon _ (uvi_info (entry "park" "Park" solid_fill))); reflexivity.
    + apply (Hicon _ (default_info towns_and_parks)); reflexivity.
Defined.

(** * Properties of the layer records *)

(** ** Zoom targets and the scale range of a layer *)

(** The level [findZoomScale] returns: zooming in, the first level of the
    list that passes the test; zooming out, the last one. *)
Lemma findZoomScale_spec (lods : list LOD) (scaleSet : ScaleSet)
    (zoomIn zoomGraphic : bool) :
  let direction := if zoomGraphic then false else zoomIn in
  match LayerRecord.findZoomScale lods scaleSet zoomIn zoomGraphic with
  | Some lod =>
      exists i, lods !! i = Some lod
                /\ zoom_target scaleSet direction lod = true
                /\ forall j l, (if direction then (j < i)%nat else (i < j)%nat) ->
                               lods !! j = Some l ->
                               zoom_target scaleSet direction l = false
  | None => forall l, l ∈ lods -> zoom_target scaleSet direction l = false
  end.
Proof.
  intros direction. unfold LayerRecord.findZoomScale. cbv zeta. fold direction.
  match goal with
  | |- match find ?t ?m with _ => _ end => pose proof (find_spec t m) as Hs
  end.
  destruct (find _ _) as [lod|].
  - destruct Hs as (i & Hi & Ht & Hfirst). destruct direction.
    + exists i. repeat split; assumption.
    + assert (Hlen : (i < length lods)%nat).
      { apply lookup_lt_Some in Hi. rewrite length_reverse in Hi. exact Hi. }
      rewrite reverse_lookup in Hi by exact Hlen.
      exists (length lods - S i)%nat. split; [exact Hi|]. split; [exact Ht|].
      intros j l Hj Hl.
      assert (Hjlen : (j < length lods)%nat) by (apply lookup_lt_Some in Hl; exact Hl).
      apply (Hfirst (length lods - S j)%nat l); [lia|].
      rewrite reverse_lookup by lia. rewrite <- Hl. f_equal. lia.
  - intros l Hl.
    assert (Hin : l ∈ (if direction then lods else reverse lods))
      by (destruct direction; [exact Hl|apply elem_of_reverse, Hl]).
    apply list_elem_of_lookup in Hin as [j Hj].
    specialize (Hs j l Hj). destruct direction; exact Hs.
Qed.

(** In a descending list the level [findZoomScale] returns is the
    nearest one: no level that passes the test lies beyond it. *)
Lemma findZoomScale_nearest (lods : list LOD) (scaleSet : ScaleSet)
    (zoomIn zoomGraphic : bool) (lod l : LOD) :
  let direction := if zoomGraphic then false else zoomIn in
  descending lods = true ->
  LayerRecord.findZoomScale lods scaleSet zoomIn zoomGraphic = Some lod ->
  l ∈ lods -> zoom_target scaleSet direction l = true ->
  zoom_target scaleSet direction lod = true
  /\ (if direction then Num.le (scale l) (scale lod)
      else Num.le (scale lod) (scale l)) = true.
Proof.
  intros direction Hdesc Hfind Hl Htarget.
  pose proof (findZoomScale_spec lods scaleSet zoomIn zoomGraphic) as Hs.
  cbv zeta in Hs. fold direction in Hs. rewrite Hfind in Hs.
  destruct Hs as (i & Hi & Ht & Hfirst). split; [exact Ht|].
  apply list_elem_of_lookup in Hl as [j Hj].
  destruct direction; cbn in *.
  - assert (Hij : (i <= j)%nat).
    { destruct (le_lt_dec i j) as [|Hlt]; [assumption|].
      rewrite (Hfirst j l Hlt Hj) in Htarget. discriminate. }
    apply (descending_later lods i j lod l Hdesc Hij Hi Hj).
    apply (num_lt_not_NaN _ _ Htarget).
  - assert (Hij : (j <= i)%nat).
    { destruct (le_lt_dec j i) as [|Hlt]; [assumption|].
      rewrite (Hfirst j l Hlt Hj) in Htarget. discriminate. }
    apply (descending_later lods j i l lod Hdesc Hij Hj Hi).
    apply (num_lt_not_NaN _ _ Ht).
Qed.

(** X21. [findZoomScale] returns [undefined] exactly when no level passes
    the test of its direction (a scale below [minScale] to zoom in, above
    [maxScale] to zoom out; [zoomGraphic] forces zooming out).  The level it
    returns is one of the list and passes the test, and in a descending
    list it is the nearest such level: the one of greatest scale when
    zooming in, of smallest scale when zooming out. *)
Theorem findZoomScale_closest_level (lods : list LOD) (scaleSet : ScaleSet)
    (zoomIn zoomGraphic : bool) :
  let direction := if zoomGraphic then false else zoomIn in
  (LayerRecord.findZoomScale lods scaleSet zoomIn zoomGraphic = None
   <-> forall l, l ∈ lods -> zoom_target scaleSet direction l = false)
  /\ (forall lod,
        LayerRecord.findZoomScale lods scaleSet zoomIn zoomGraphic = Some lod ->
        lod ∈ lods /\ zoom_target scaleSet direction lod = true)
  /\ (descending lods = true ->
      forall lod l,
        LayerRecord.findZoomScale lods scaleSet zoomIn zoomGraphic = Some lod ->
        l ∈ lods -> zoom_target scaleSet direction l = true ->
        (if direction then Num.le (scale l) (scale lod)
         else Num.le (scale lod) (scale l)) = true).
Proof.
  intros direction.
  pose proof (findZoomScale_spec lods scaleSet zoomIn zoomGraphic) as Hs.
  cbv zeta in Hs. fold direction in Hs.
  split; [|split].
  - destruct (LayerRecord.findZoomScale lods scaleSet zoomIn zoomGraphic) as [lod|].
    + split; [discriminate|]. intros Hall. destruct Hs as (i & Hi & Ht & _).
      rewrite (Hall lod) in Ht; [discriminate|]. apply list_elem_of_lookup. eauto.
    + split; [intros _; exact Hs|reflexivity].
  - intros lod Hfind. rewrite Hfind in Hs. destruct Hs as (i & Hi & Ht & _).
    split; [apply list_elem_of_lookup; eauto|exact Ht].
  - intros Hdesc lod l Hfind Hl Htarget.
    apply (findZoomScale_nearest lods scaleSet zoomIn zoomGraphic lod l Hdesc Hfind Hl Htarget).
Qed.

Example findZoomScale_five_levels :
  map (fun flags : bool * bool =>
         scale <$> LayerRecord.findZoomScale five_levels between_6000_and_2000
                                             flags.1 flags.2)
      [(true, false); (false, false); (true, true)]
  = [Some (Num.of_Z 5000); Some (Num.of_Z 3000); Some (Num.of_Z 3000)]
  /\ LayerRecord.findZoomScale five_levels
       {| minScale := Num.of_Z 500; maxScale := Num.of_Z 0 |} true false
     = None.
Proof. vm_compute. split; reflexivity. Qed.

Lemma on_scale_conditions (scaleSet : ScaleSet) (mapScale : number) :
  offScale (BasicFC.isOffScale scaleSet mapScale) = false
  <-> (Num.lt mapScale (maxScale scaleSet)
       && negb (Num.eq (maxScale scaleSet) (Num.of_Z 0)) = false)
      /\ (Num.gt mapScale (minScale scaleSet)
          && negb (Num.eq (minScale scaleSet) (Num.of_Z 0)) = false).
Proof.
  unfold BasicFC.isOffScale.
  destruct (Num.lt mapScale (maxScale scaleSet)
            && negb (Num.eq (maxScale scaleSet) (Num.of_Z 0)));
    [cbn; split; [discriminate|intros [H _]; discriminate]|].
  destruct (Num.gt mapScale (minScale scaleSet)
            && negb (Num.eq (minScale scaleSet) (Num.of_Z 0)));
    cbn; split; try discriminate; auto. intros [_ H]. discriminate.
Qed.

(** X22. In a descending list of levels, if some level that passes the
    test of the zoom direction is one at which the layer is drawn, then the
    level [findZoomScale] returns is one at which the layer is drawn: the
    zoom never overshoots the scale range. *)
Theorem zoom_target_is_on_scale (lods : list LOD) (scaleSet : ScaleSet)
    (zoomIn zoomGraphic : bool) (lod : LOD) :
  let direction := if zoomGraphic then false else zoomIn in
  descending lods = true ->
  LayerRecord.findZoomScale lods scaleSet zoomIn zoomGraphic = Some lod ->
  (exists l, l ∈ lods /\ on_scale scaleSet l /\ zoom_target scaleSet direction l = true) ->
  on_scale scaleSet lod.
Proof.
  intros direction Hdesc Hfind (l & Hl & Hon & Htarget).
  destruct (findZoomScale_nearest lods scaleSet zoomIn zoomGraphic lod l
              Hdesc Hfind Hl Htarget) as [Ht Hclosest].
  fold direction in Ht, Hclosest.
  unfold on_scale in *. apply on_scale_conditions in Hon as [Hmax Hmin].
  apply on_scale_conditions. unfold zoom_target, Num.gt in *.
  destruct direction.
  - split.
    + destruct (negb (Num.eq (maxScale scaleSet) (Num.of_Z 0)));
        [|apply andb_false_r].
      rewrite andb_true_r in *.
      destruct (Num.lt (scale lod) (maxScale scaleSet)) eqn:Hlt; [|reflexivity].
      rewrite (num_le_lt_trans _ _ _ Hclosest Hlt) in Hmax. discriminate.
    + rewrite (num_lt_asym _ _ Ht). reflexivity.
  - split.
    + rewrite (num_lt_asym _ _ Ht). reflexivity.
    + destruct (negb (Num.eq (minScale scaleSet) (Num.of_Z 0)));
        [|apply andb_false_r].
      rewrite andb_true_r in *.
      destruct (Num.lt (minScale scaleSet) (scale lod)) eqn:Hlt; [|reflexivity].
      rewrite (num_lt_le_trans _ _ _ Hlt Hclosest) in Hmin. discriminate.
Qed.

Lemma zoom_target_is_on_scale_witness :
  on_scale between_6000_and_2000 {| scale := Num.of_Z 5000 |}.
Proof.
  apply (zoom_target_is_on_scale five_levels between_6000_and_2000 true false
                                 {| scale := Num.of_Z 5000 |}).
  - reflexivity.
  - reflexivity.
  - exists {| scale := Num.of_Z 3000 |}. split; [|split; reflexivity].
    apply list_elem_of_lookup. exists 3%nat. reflexivity.
Defined.

(** X23. When a layer is off scale at the map's scale, the level that
    [findZoomScale] returns for the direction [isOffScale] reports lies on
    that side of the map's scale: its scale is smaller when the report says
    to zoom in, greater when it says to zoom out. *)
Theorem zoom_target_direction (lods : list LOD) (scaleSet : ScaleSet)
    (mapScale : number) (lod : LOD) :
  offScale (BasicFC.isOffScale scaleSet mapScale) = true ->
  LayerRecord.findZoomScale lods scaleSet
    (zoomIn (BasicFC.isOffScale scaleSet mapScale)) false = Some lod ->
  if zoomIn (BasicFC.isOffScale scaleSet mapScale)
  then Num.lt (scale lod) mapScale = true
  else Num.lt mapScale (scale lod) = true.
Proof.
  intros Hoff Hfind.
  pose proof (findZoomScale_spec lods scaleSet
                (zoomIn (BasicFC.isOffScale scaleSet mapScale)) false) as Hs.
  cbv zeta in Hs. rewrite Hfind in Hs. destruct Hs as (_ & _ & Ht & _). clear Hfind.
  unfold BasicFC.isOffScale in *. unfold zoom_target, Num.gt in *.
  destruct (Num.lt mapScale (maxScale scaleSet)
            && negb (Num.eq (maxScale scaleSet) (Num.of_Z 0))) eqn:Hmax.
  - cbn in *. apply andb_prop in Hmax as [Hmax _].
    apply (num_lt_trans _ _ _ Hmax Ht).
  - destruct (Num.lt (minScale scaleSet) mapScale
              && negb (Num.eq (minScale scaleSet) (Num.of_Z 0))) eqn:Hmin;
      cbn in *; [|discriminate].
    apply andb_prop in Hmin as [Hmin _].
    apply (num_lt_trans _ _ _ Ht Hmin).
Qed.

Lemma zoom_target_direction_witness :
  Num.lt (Num.of_Z 5000) (Num.of_Z 8000) = true.
Proof.
  apply (zoom_target_direction five_levels between_6000_and_2000 (Num.of_Z 8000)
                               {| scale := Num.of_Z 5000 |}).
  - reflexivity.
  - reflexivity.
Defined.

(** ** The visible children of a dynamic layer *)

Lemma listed_eq (l : list number) (x y : number) :
  Num.eq x y = true -> listed l x = listed l y.
Proof.
  intros Hxy. unfold listed. induction l as [|z l IH]; [reflexivity|].
  cbn [existsb]. rewrite IH. f_equal.
  destruct (Num.eq z x) eqn:Hzx, (Num.eq z y) eqn:Hzy; try reflexivity.
  - rewrite (num_eq_trans z x y Hzx Hxy) in Hzy. discriminate.
  - rewrite num_eq_sym in Hxy. rewrite (num_eq_trans z y x Hzy Hxy) in Hzx. discriminate.
Qed.

Lemma listed_app (l l' : list number) (x : number) :
  listed (l ++ l') x = listed l x || listed l' x.
Proof. unfold listed. apply existsb_app. Qed.

Lemma listed_NaN (l : list number) (x : number) :
  Num.is_NaN x = true -> listed l x = false.
Proof.
  intros Hx. destruct x; try discriminate.
  induction l as [|z l IH]; [reflexivity|].
  change (listed (z :: l) Num.NaN) with (Num.eq z Num.NaN || listed l Num.NaN).
  rewrite IH. destruct z; reflexivity.
Qed.

Lemma listed_lookup (l : list number) (i : nat) (y x : number) :
  l !! i = Some y -> Num.eq y x = true -> listed l x = true.
Proof.
  revert i. induction l as [|z l IH]; intros [|i] Hi Hy; try discriminate.
  - injection Hi as ->. cbn [listed existsb]. rewrite Hy. reflexivity.
  - change (listed (z :: l) x) with (Num.eq z x || listed l x).
    rewrite (IH i Hi Hy). apply orb_true_r.
Qed.

(** [indexOf] gives -1 for a number that is not listed, and the index of
    its first occurrence otherwise. *)
Lemma indexOf_from_spec (x : number) (l : list number) :
  forall k,
    (listed l x = false -> indexOf_from x k l = -1)
    /\ (listed l x = true ->
        exists i y, indexOf_from x k l = k + Z.of_nat i
                    /\ l !! i = Some y /\ Num.eq y x = true
                    /\ listed (take i l) x = false).
Proof.
  induction l as [|z l IH]; intros k; cbn [listed existsb indexOf_from].
  - split; [reflexivity|discriminate].
  - destruct (Num.eq z x) eqn:Hz; cbn [orb].
    + split; [discriminate|]. intros _. exists 0%nat, z.
      rewrite Z.add_0_r. repeat split; assumption.
    + destruct (IH (k + 1)) as [Hno Hyes]. split; [exact Hno|].
      intros H. destruct (Hyes H) as (i & y & Hidx & Hi & Hy & Hbefore).
      exists (S i), y. repeat split; [lia|exact Hi|exact Hy|].
      cbn [take listed existsb]. rewrite Hz. exact Hbefore.
Qed.

Lemma listed_delete_other (l : list number) (i : nat) (y x : number) :
  l !! i = Some y -> Num.eq y x = false -> listed (delete i l) x = listed l x.
Proof.
  revert i. induction l as [|z l IH]; intros [|i] Hi Hy; try discriminate.
  - injection Hi as ->. change (delete 0%nat (y :: l)) with l.
    cbn [listed existsb]. rewrite Hy. reflexivity.
  - change (delete (S i) (z :: l)) with (z :: delete i l).
    cbn [listed existsb]. f_equal. apply (IH i Hi Hy).
Qed.

Lemma listed_delete_sub (l : list number) (i : nat) (x : number) :
  listed (delete i l) x = true -> listed l x = true.
Proof.
  revert i. induction l as [|z l IH]; intros [|i] H; try exact H.
  - change (delete 0%nat (z :: l)) with l in H.
    change (listed (z :: l) x) with (Num.eq z x || listed l x).
    rewrite H. apply orb_true_r.
  - change (delete (S i) (z :: l)) with (z :: delete i l) in H.
    change (listed (z :: delete i l) x) with (Num.eq z x || listed (delete i l) x) in H.
    change (listed (z :: l) x) with (Num.eq z x || listed l x).
    apply orb_prop in H as [H|H]; [rewrite H; reflexivity|].
    rewrite (IH i H). apply orb_true_r.
Qed.

Lemma listed_once_delete (l : list number) (i : nat) :
  listed_once l = true -> listed_once (delete i l) = true.
Proof.
  revert i. induction l as [|z l IH]; intros [|i] H; try exact H.
  - change (delete 0%nat (z :: l)) with l.
    cbn in H. apply andb_prop in H as [_ H]. exact H.
  - change (delete (S i) (z :: l)) with (z :: delete i l).
    cbn [listed_once] in *. apply andb_prop in H as [Hz H].
    rewrite (IH i H), andb_true_r.
    destruct (listed (delete i l) z) eqn:Hd; [|reflexivity].
    rewrite (listed_delete_sub l i z Hd) in Hz. discriminate.
Qed.

(** In an array that lists no number twice, removing an occurrence of a
    number removes the number. *)
Lemma listed_once_delete_first (l : list number) (i : nat) (y x : number) :
  listed_once l = true -> l !! i = Some y -> Num.eq y x = true ->
  listed (delete i l) x = false.
Proof.
  revert i. induction l as [|z l IH]; intros [|i] H Hi Hy; try discriminate.
  - injection Hi as ->. change (delete 0%nat (y :: l)) with l.
    cbn in H. apply andb_prop in H as [Hz _].
    apply negb_true_iff in Hz. rewrite <- (listed_eq l y x Hy). exact Hz.
  - change (delete (S i) (z :: l)) with (z :: delete i l).
    change (listed (z :: delete i l) x) with (Num.eq z x || listed (delete i l) x).
    cbn [listed_once] in H.
    apply andb_prop in H as [Hz H]. rewrite (IH i H Hi Hy), orb_false_r.
    destruct (Num.eq z x) eqn:Hzx; [|reflexivity].
    exfalso. apply negb_true_iff in Hz.
    rewrite num_eq_sym in Hzx.
    rewrite (listed_lookup l i y z Hi (num_eq_trans y x z Hy Hzx)) in Hz. discriminate.
Qed.

Lemma listed_once_app (l : list number) (x : number) :
  listed_once l = true -> listed l x = false -> listed_once (l ++ [x]) = true.
Proof.
  induction l as [|z l IH]; intros H Hx; [reflexivity|].
  change (listed (z :: l) x) with (Num.eq z x || listed l x) in Hx.
  change ((z :: l) ++ [x])%list with (z :: (l ++ [x]))%list.
  cbn [listed_once] in *. apply andb_prop in H as [Hz H].
  apply orb_false_elim in Hx as [Hzx Hx].
  rewrite (IH H Hx), andb_true_r, listed_app.
  apply negb_true_iff in Hz. rewrite Hz.
  change (listed [x] z) with (Num.eq x z || false).
  rewrite num_eq_sym, Hzx. reflexivity.
Qed.

Section VisibilityFacts.

Variable parseInt : string -> number.

Lemma getVisibility_listed (l : list number) (idx : string) :
  DynamicFC.getVisibility parseInt l idx = listed l (parseInt idx).
Proof.
  unfold DynamicFC.getVisibility, indexOf.
  destruct (indexOf_from_spec (parseInt idx) l 0) as [Hno Hyes].
  destruct (listed l (parseInt idx)).
  - destruct (Hyes eq_refl) as (i & y & -> & _). apply Z.ltb_lt. lia.
  - rewrite (Hno eq_refl). reflexivity.
Qed.

(** The array after [setVisibility], in terms of what is listed. *)
Lemma setVisibility_cases (l : list number) (idx : string) (val : bool) :
  let x := parseInt idx in
  (val = true -> listed l x = false ->
   DynamicFC.setVisibility parseInt l idx val = (l ++ [x])%list)
  /\ (val = true -> listed l x = true ->
      DynamicFC.setVisibility parseInt l idx val = l)
  /\ (val = false -> listed l x = false ->
      DynamicFC.setVisibility parseInt l idx val = l)
  /\ (val = false -> listed l x = true ->
      exists i y, l !! i = Some y /\ Num.eq y x = true
                  /\ DynamicFC.setVisibility parseInt l idx val = delete i l).
Proof.
  intros x. unfold DynamicFC.setVisibility, indexOf. cbv zeta. fold x.
  destruct (indexOf_from_spec x l 0) as [Hno Hyes].
  repeat split; intros -> Hl; cbn [andb negb].
  - rewrite (Hno Hl). reflexivity.
  - destruct (Hyes Hl) as (i & y & -> & _).
    destruct (Z.eqb_spec (0 + Z.of_nat i) (-1)); [lia|]. reflexivity.
  - rewrite (Hno Hl). reflexivity.
  - destruct (Hyes Hl) as (i & y & -> & Hi & Hy & _).
    exists i, y. repeat split; try assumption.
    destruct (Z.ltb_spec (-1) (0 + Z.of_nat i)); [|lia].
    rewrite Z.add_0_l, Nat2Z.id. reflexivity.
Qed.

Lemma listed_after_show (l : list number) (idx : string) :
  Num.is_NaN (parseInt idx) = false ->
  listed (DynamicFC.setVisibility parseInt l idx true) (parseInt idx) = true.
Proof.
  intros Hnan.
  destruct (setVisibility_cases l idx true) as (Hadd & Hkeep & _ & _).
  destruct (listed l (parseInt idx)) eqn:Hl.
  - rewrite (Hkeep eq_refl eq_refl). exact Hl.
  - rewrite (Hadd eq_refl eq_refl), listed_app. cbn [listed existsb].
    rewrite (num_eq_refl _ Hnan). rewrite orb_true_r. reflexivity.
Qed.

Lemma listed_after_hide (l : list number) (idx : string) :
  listed_once l = true ->
  listed (DynamicFC.setVisibility parseInt l idx false) (parseInt idx) = false.
Proof.
  intros Honce.
  destruct (setVisibility_cases l idx false) as (_ & _ & Hkeep & Hdel).
  destruct (listed l (parseInt idx)) eqn:Hl.
  - destruct (Hdel eq_refl eq_refl) as (i & y & Hi & Hy & ->).
    apply (listed_once_delete_first _ i y _ Honce Hi Hy).
  - rewrite (Hkeep eq_refl eq_refl). exact Hl.
Qed.

(** X24. After [setVisibility(true)] on a child whose index parses to a
    number, [getVisibility] of that child is true; after
    [setVisibility(false)], in an array that lists no index twice, it is
    false; and the visibility of every child with another index is what it
    was before the call. *)
Theorem setVisibility_getVisibility (visibleLayers : list number) (idx : string) :
  (Num.is_NaN (parseInt idx) = false ->
   DynamicFC.getVisibility parseInt
     (DynamicFC.setVisibility parseInt visibleLayers idx true) idx = true)
  /\ (listed_once visibleLayers = true ->
      DynamicFC.getVisibility parseInt
        (DynamicFC.setVisibility parseInt visibleLayers idx false) idx = false)
  /\ (forall val other,
        Num.eq (parseInt idx) (parseInt other) = false ->
        DynamicFC.getVisibility parseInt
          (DynamicFC.setVisibility parseInt visibleLayers idx val) other
        = DynamicFC.getVisibility parseInt visibleLayers other).
Proof.
  split; [|split].
  - intros Hnan. rewrite getVisibility_listed. apply listed_after_show, Hnan.
  - intros Honce. rewrite getVisibility_listed. apply listed_after_hide, Honce.
  - intros val other Hne. rewrite !getVisibility_listed.
    destruct (setVisibility_cases visibleLayers idx val) as (Hadd & Hkeep & Hkeep' & Hdel).
    destruct val, (listed visibleLayers (parseInt idx)) eqn:Hl.
    + rewrite (Hkeep eq_refl eq_refl). reflexivity.
    + rewrite (Hadd eq_refl eq_refl), listed_app. cbn [listed existsb].
      rewrite Hne. rewrite !orb_false_r. reflexivity.
    + destruct (Hdel eq_refl eq_refl) as (i & y & Hi & Hy & ->).
      apply (listed_delete_other _ i y _ Hi).
      destruct (Num.eq y (parseInt other)) eqn:Hyo; [|reflexivity].
      rewrite num_eq_sym in Hy. rewrite (num_eq_trans _ _ _ Hy Hyo) in Hne. discriminate.
    + rewrite (Hkeep' eq_refl eq_refl). reflexivity.
Qed.

(** X25. [setVisibility] keeps an array that lists no index twice in that
    state, and there a second call with the same arguments changes nothing,
    unless the index does not parse to a number and the value is true: then
    every call appends NaN, and [getVisibility] of that child stays
    false. *)
Theorem setVisibility_keeps_listed_once (visibleLayers : list number) (idx : string)
    (val : bool) :
  listed_once visibleLayers = true ->
  let after := DynamicFC.setVisibility parseInt visibleLayers idx val in
  listed_once after = true
  /\ (val = false \/ Num.is_NaN (parseInt idx) = false ->
      DynamicFC.setVisibility parseInt after idx val = after)
  /\ (val = true -> Num.is_NaN (parseInt idx) = true ->
      after = (visibleLayers ++ [parseInt idx])%list
      /\ DynamicFC.getVisibility parseInt after idx = false).
Proof.
  intros Honce after.
  destruct (setVisibility_cases visibleLayers idx val) as (Hadd & Hkeep & Hkeep' & Hdel).
  destruct (setVisibility_cases after idx val) as (_ & Hkeep2 & Hkeep2' & _).
  fold after in Hadd, Hkeep, Hkeep', Hdel.
  assert (Honce' : listed_once after = true).
  { destruct val, (listed visibleLayers (parseInt idx)) eqn:Hl.
    - rewrite (Hkeep eq_refl eq_refl). exact Honce.
    - rewrite (Hadd eq_refl eq_refl). apply (listed_once_app _ _ Honce Hl).
    - destruct (Hdel eq_refl eq_refl) as (i & y & _ & _ & ->).
      apply listed_once_delete, Honce.
    - rewrite (Hkeep' eq_refl eq_refl). exact Honce. }
  split; [exact Honce'|]. split.
  - intros Hcase. destruct val.
    + destruct Hcase as [Hcase|Hnan]; [discriminate|].
      apply (Hkeep2 eq_refl). apply listed_after_show, Hnan.
    + apply (Hkeep2' eq_refl). apply listed_after_hide, Honce.
  - intros -> Hnan.
    assert (Hl : listed visibleLayers (parseInt idx) = false) by apply listed_NaN, Hnan.
    split; [apply (Hadd eq_refl Hl)|].
    rewrite getVisibility_listed. apply listed_NaN, Hnan.
Qed.

End VisibilityFacts.

Lemma setVisibility_keeps_listed_once_witness :
  listed_once (DynamicFC.setVisibility one_digit [Num.of_Z 0; Num.of_Z 2] "2" false) = true
  /\ DynamicFC.setVisibility one_digit
       (DynamicFC.setVisibility one_digit [Num.of_Z 0; Num.of_Z 2] "2" false) "2" false
     = DynamicFC.setVisibility one_digit [Num.of_Z 0; Num.of_Z 2] "2" false.
Proof.
  destruct (setVisibility_keeps_listed_once one_digit [Num.of_Z 0; Num.of_Z 2] "2" false)
    as (Honce & Hagain & _).
  - reflexivity.
  - split; [exact Honce|]. apply Hagain. left. reflexivity.
Defined.

Example visible_children :
  map (DynamicFC.setVisibility one_digit [Num.of_Z 0; Num.of_Z 2] "1") [true; false]
  = [[Num.of_Z 0; Num.of_Z 2; Num.of_Z 1]; [Num.of_Z 0; Num.of_Z 2]]
  /\ map (DynamicFC.setVisibility one_digit [Num.of_Z 0; Num.of_Z 2] "2") [true; false]
     = [[Num.of_Z 0; Num.of_Z 2]; [Num.of_Z 0]]
  /\ DynamicFC.setVisibility one_digit [Num.of_Z 0] "x" true = [Num.of_Z 0; Num.NaN]
  /\ DynamicFC.getVisibility one_digit [Num.of_Z 0; Num.NaN] "x" = false
  /\ DynamicFC.getVisibility one_digit
       (DynamicFC.setVisibility one_digit [Num.of_Z 2; Num.of_Z 2] "2" false) "2"
     = true.
Proof. vm_compute. repeat split. Qed.

(** ** Fields, aliases and the attributes given to the classifier *)

Lemma unAliasAttribs_stuck (attribs : gmap string value) (fields : list Field)
    (u : unaliased) :
  (forall newA, u <> Attributes newA) ->
  foldl (AttribFC.unAlias_field attribs) u fields = u.
Proof.
  intros Hu. induction fields as [|f fields IH]; [reflexivity|].
  cbn [foldl]. destruct u as [newA| |]; [destruct (Hu newA); reflexivity|exact IH..].
Qed.

Lemma last_named_snoc (key : string) (fields : list Field) (f : Field) :
  last_named key (fields ++ [f])
  = if (str (f_name f) =? key)%string then Some f else last_named key fields.
Proof.
  unfold last_named. rewrite List.filter_app. cbn [List.filter].
  destruct (str (f_name f) =? key)%string.
  - apply last_snoc.
  - rewrite app_nil_r. reflexivity.
Qed.

(** The object [unAliasAttribs] builds, property by property. *)
Lemma unAliasAttribs_lookup (attribs : gmap string value) (fields : list Field) :
  attribs !! "hasOwnProperty" = None ->
  "__proto__" ∉ field_names fields ->
  exists newA,
    AttribFC.unAliasAttribs attribs fields = Attributes newA
    /\ forall key, newA !! key = picked attribs <$> last_named key fields.
Proof.
  intros Hown. induction fields as [|f fields IH] using rev_ind; intros Hproto.
  - exists ∅. split; [reflexivity|]. intros key. rewrite lookup_empty. reflexivity.
  - unfold field_names in Hproto. rewrite map_app in Hproto.
    apply not_elem_of_app in Hproto as [Hproto Hf].
    destruct (IH Hproto) as (newA & Hrun & Hlookup).
    unfold AttribFC.unAliasAttribs in *. rewrite foldl_app, Hrun. cbn [foldl].
    unfold AttribFC.unAlias_field, hasOwnProperty. rewrite Hown. cbv zeta.
    fold (picked attribs f). unfold assign.
    destruct (String.eqb_spec (str (f_name f)) "__proto__") as [Heq|Hne].
    { exfalso. apply Hf. cbn. rewrite Heq. apply list_elem_of_here. }
    eexists. split; [reflexivity|]. intros key. rewrite last_named_snoc.
    destruct (String.eqb_spec (str (f_name f)) key) as [->|Hk].
    + rewrite lookup_insert_eq. reflexivity.
    + rewrite lookup_insert_ne by exact Hk. apply Hlookup.
Qed.

(** X26. [unAliasAttribs] throws a TypeError on any field list that is not
    empty when the attributes have a property [hasOwnProperty] of their
    own.  Otherwise, and when no field is named [__proto__], it returns an
    object whose own properties are the field names; under each name it
    holds the value picked for the last field of that name: the attribute
    of that name when the attributes have one, else the attribute under the
    field's alias. *)
Theorem unAliasAttribs_fields (attribs : gmap string value) (fields : list Field) :
  (fields <> [] -> is_Some (attribs !! "hasOwnProperty") ->
   AttribFC.unAliasAttribs attribs fields = Raised TypeError)
  /\ (attribs !! "hasOwnProperty" = None ->
      "__proto__" ∉ field_names fields ->
      exists newA,
        AttribFC.unAliasAttribs attribs fields = Attributes newA
        /\ (forall key, newA !! key = picked attribs <$> last_named key fields)
        /\ (forall key, is_Some (newA !! key) <-> key ∈ field_names fields)).
Proof.
  split.
  - intros Hne [v Hv]. destruct fields as [|f fields]; [contradiction|].
    unfold AttribFC.unAliasAttribs. cbn [foldl].
    unfold AttribFC.unAlias_field at 2, hasOwnProperty. rewrite Hv.
    apply unAliasAttribs_stuck. discriminate.
  - intros Hown Hproto.
    destruct (unAliasAttribs_lookup attribs fields Hown Hproto) as (newA & Hrun & Hlookup).
    exists newA. split; [exact Hrun|]. split; [exact Hlookup|].
    intros key. rewrite Hlookup. unfold last_named, field_names.
    clear. induction fields as [|f fields IH] using rev_ind.
    + cbn. split; [intros [? ?]; discriminate|intros H; apply elem_of_nil in H; contradiction].
    + rewrite List.filter_app, map_app, elem_of_app. cbn [List.filter map].
      destruct (String.eqb_spec (str (f_name f)) key) as [->|Hk].
      * rewrite last_snoc. cbn. split; [intros _; right; apply list_elem_of_here|eauto].
      * rewrite app_nil_r, IH. split; [tauto|]. intros [H|H]; [exact H|].
        apply list_elem_of_singleton in H. congruence.
Qed.

Example unAliasAttribs_samples :
  AttribFC.unAliasAttribs {[ "Kind of place" := VStr "town"; "name" := VStr "Orillia" ]}
                          kind_and_name
  = Attributes {[ "kind" := Scalar (VStr "town"); "name" := Scalar (VStr "Orillia") ]}
  /\ AttribFC.unAliasAttribs {[ "hasOwnProperty" := VBool true ]} kind_and_name
     = Raised TypeError
  /\ AttribFC.unAliasAttribs ∅ [text_field "size" "toString"]
     = Attributes {[ "size" := Member "toString" ]}
  /\ AttribFC.unAliasAttribs {[ "x" := VNull ]} [text_field "__proto__" "x"] = Reparented
  /\ AttribFC.unAliasAttribs {[ "x" := VStr "y" ]} [text_field "__proto__" "x"]
     = Attributes ∅.
Proof. vm_compute. repeat split. Qed.

Lemma NoDup_fmap_eq {A B : Type} (g : A -> B) (l : list A) (x y : A) :
  NoDup (map g l) -> x ∈ l -> y ∈ l -> g x = g y -> x = y.
Proof.
  intros Hnd [i Hi]%list_elem_of_lookup [j Hj]%list_elem_of_lookup Hg.
  assert (i = j) as ->; [|congruence].
  apply (NoDup_lookup (map g l) i j (g x) Hnd).
  - change (map g l) with (g <$> l). rewrite list_lookup_fmap, Hi. reflexivity.
  - change (map g l) with (g <$> l). rewrite list_lookup_fmap, Hj, Hg. reflexivity.
Qed.

Lemma last_named_unique (fields : list Field) (f : Field) :
  NoDup (field_names fields) -> f ∈ fields ->
  last_named (str (f_name f)) fields = Some f.
Proof.
  intros Hnd Hf. unfold last_named.
  induction fields as [|g fields IH]; [apply elem_of_nil in Hf; contradiction|].
  cbn [field_names map] in Hnd. apply NoDup_cons in Hnd as [Hg Hnd].
  cbn [List.filter].
  apply elem_of_cons in Hf as [->|Hf].
  - rewrite String.eqb_refl.
    assert (Hnone : List.filter (fun field => (str (f_name field) =? str (f_name g))%string)
                                fields = []).
    { clear IH Hnd. induction fields as [|h fields IH]; [reflexivity|].
      cbn [List.filter]. cbn [map] in Hg. apply not_elem_of_cons in Hg as [Hh Hg].
      destruct (String.eqb_spec (str (f_name h)) (str (f_name g))) as [Heq|_];
        [congruence|apply IH, Hg]. }
    rewrite Hnone. reflexivity.
  - destruct (String.eqb_spec (str (f_name g)) (str (f_name f))) as [Heq|_].
    + exfalso. apply Hg. rewrite Heq. apply list_elem_of_fmap. eauto.
    + apply (IH Hnd Hf).
Qed.

Lemma last_named_none (fields : list Field) (key : string) :
  key ∉ field_names fields -> last_named key fields = None.
Proof.
  intros Hk. unfold last_named.
  induction fields as [|g fields IH]; [reflexivity|].
  cbn [field_names map] in Hk. apply not_elem_of_cons in Hk as [Hg Hk].
  cbn [List.filter].
  destruct (String.eqb_spec (str (f_name g)) key) as [Heq|_]; [congruence|apply IH, Hk].
Qed.

(** A field is shown by its own name or by its own alias. *)
Lemma shown_name_cases (fields : list Field) (f : Field) :
  NoDup (field_names fields) -> f ∈ fields ->
  shown_name fields f = str (f_name f) \/ shown_name fields f = str (f_alias f).
Proof.
  intros Hnd Hf. unfold shown_name, AttribFC.aliasedFieldNameDirect.
  pose proof (find_spec (fun field (_ : nat) => is_str (f_name field) (str (f_name f)))
                        fields) as Hs.
  destruct (find _ fields) as [g|]; [|left; reflexivity].
  destruct Hs as (i & Hi & Hg & _). apply is_str_true in Hg.
  assert (g = f) as ->.
  { apply (NoDup_fmap_eq (fun field => str (f_name field)) fields); try assumption.
    - apply list_elem_of_lookup. eauto.
    - rewrite Hg. reflexivity. }
  destruct (truthy (f_alias f) && _); [right|left]; reflexivity.
Qed.

Lemma aliased_lookup (attributes : gmap string value) (fields : list Field) :
  NoDup (shown_names fields) ->
  (forall f, f ∈ fields ->
             aliased attributes fields !! shown_name fields f
             = Some (own_value attributes (str (f_name f))))
  /\ (forall key, key ∉ shown_names fields -> aliased attributes fields !! key = None).
Proof.
  intros Hnd. unfold aliased, shown_names in *. split.
  - intros f Hf. apply elem_of_list_to_map.
    + rewrite <- list_fmap_compose. exact Hnd.
    + apply list_elem_of_fmap. exists f. split; [reflexivity|exact Hf].
  - intros key Hk. apply not_elem_of_list_to_map.
    rewrite <- list_fmap_compose. exact Hk.
Qed.

Lemma shown_apart_capture (fields : list Field) (f g : Field) :
  NoDup (field_names fields) ->
  forallb (shown_apart fields) fields = true ->
  f ∈ fields -> g ∈ fields -> shown_name fields f = str (f_name g) -> f = g.
Proof.
  intros Hnd Hall Hf Hg Hshown.
  apply (NoDup_fmap_eq (fun field => str (f_name field)) fields); try assumption.
  rewrite forallb_forall in Hall. specialize (Hall f). unfold shown_apart in Hall.
  rewrite <- Hshown.
  destruct (String.eqb_spec (shown_name fields f) (str (f_name f))) as [Heq|_];
    [symmetry; exact Heq|].
  cbn in Hall. exfalso.
  assert (Hin : shown_name fields f ∈ field_names fields).
  { rewrite Hshown. apply list_elem_of_fmap. eauto. }
  rewrite bool_decide_eq_true_2 in Hall by exact Hin.
  assert (true = false); [|discriminate]. symmetry. apply Hall.
  apply list_elem_of_In. exact Hf.
Qed.

Lemma unAliasAttribs_aliased (attributes : gmap string value) (fields : list Field) :
  NoDup (field_names fields) ->
  NoDup (shown_names fields) ->
  forallb (shown_apart fields) fields = true ->
  "hasOwnProperty" ∉ shown_names fields ->
  "__proto__" ∉ field_names fields ->
  exists newA,
    AttribFC.unAliasAttribs (aliased attributes fields) fields = Attributes newA
    /\ (forall f, f ∈ fields ->
                  newA !! str (f_name f) = Some (Scalar (own_value attributes (str (f_name f)))))
    /\ (forall key, key ∉ field_names fields -> newA !! key = None).
Proof.
  intros Hnames Hshown Hapart Hown Hproto.
  destruct (aliased_lookup attributes fields Hshown) as [Hin Hout].
  destruct (unAliasAttribs_lookup (aliased attributes fields) fields (Hout _ Hown) Hproto)
    as (newA & Hrun & Hlookup).
  exists newA. split; [exact Hrun|]. split.
  - intros f Hf. rewrite Hlookup, (last_named_unique fields f Hnames Hf). cbn. f_equal.
    unfold picked, read.
    destruct (aliased attributes fields !! str (f_name f)) as [v|] eqn:Hv.
    + rewrite bool_decide_eq_true_2 by eauto. f_equal.
      destruct (decide (str (f_name f) ∈ shown_names fields)) as [Hk|Hk];
        [|rewrite (Hout _ Hk) in Hv; discriminate].
      apply list_elem_of_fmap in Hk as (g & Hg & Hgin).
      assert (g = f) as ->
        by (apply (shown_apart_capture fields g f Hnames Hapart Hgin Hf); symmetry; exact Hg).
      rewrite Hg, (Hin f Hf) in Hv. congruence.
    + rewrite bool_decide_eq_false_2 by (intros [? ?]; discriminate).
      destruct (shown_name_cases fields f Hnames Hf) as [Hs|Hs].
      * rewrite <- Hs, (Hin f Hf) in Hv. discriminate.
      * rewrite <- Hs, (Hin f Hf). reflexivity.
  - intros key Hk. rewrite Hlookup, (last_named_none fields key Hk). reflexivity.
Qed.

(** X27. [unAliasAttribs] undoes the renaming of attributes by
    [aliasedFieldNameDirect].  Take fields with pairwise distinct names,
    none of them [__proto__], that are shown by pairwise distinct names,
    none of them [hasOwnProperty], each field by its own name or by a name
    that no field has.  From the attributes of a feature reported under the
    names the fields are shown by, [unAliasAttribs] builds the object that
    holds, under each field's name and under nothing else, the feature's
    attribute of that name. *)
Theorem unAliasAttribs_inverts_aliases (attributes : gmap string value)
    (fields : list Field) :
  NoDup (field_names fields) ->
  NoDup (shown_names fields) ->
  forallb (shown_apart fields) fields = true ->
  "hasOwnProperty" ∉ shown_names fields ->
  "__proto__" ∉ field_names fields ->
  exists newA,
    AttribFC.unAliasAttribs (aliased attributes fields) fields = Attributes newA
    /\ (forall f, f ∈ fields ->
                  newA !! str (f_name f) = Some (Scalar (own_value attributes (str (f_name f)))))
    /\ (forall key, key ∉ field_names fields -> newA !! key = None).
Proof. apply unAliasAttribs_aliased. Qed.

Lemma unAliasAttribs_inverts_aliases_witness :
  exists newA,
    AttribFC.unAliasAttribs (aliased a_town kind_and_name) kind_and_name = Attributes newA
    /\ (forall f, f ∈ kind_and_name ->
                  newA !! str (f_name f) = Some (Scalar (own_value a_town (str (f_name f)))))
    /\ (forall key, key ∉ field_names kind_and_name -> newA !! key = None).
Proof.
  apply (unAliasAttribs_inverts_aliases a_town kind_and_name).
  - apply (bool_decide_unpack _). vm_compute. exact I.
  - apply (bool_decide_unpack _). vm_compute. exact I.
  - vm_compute. reflexivity.
  - apply (bool_decide_unpack _). vm_compute. exact I.
  - apply (bool_decide_unpack _). vm_compute. exact I.
Defined.

(** An alias that is the name of another field: the value of the first
    field is taken for the second. *)
Example alias_captures_a_name :
  let fields := [text_field "kind" "name"; text_field "name" "Name of place"] in
  aliased a_town fields = {[ "name" := VStr "town"; "Name of place" := VStr "Orillia" ]}
  /\ AttribFC.unAliasAttribs (aliased a_town fields) fields
     = Attributes {[ "kind" := Scalar (VStr "town"); "name" := Scalar (VStr "town") ]}
  /\ forallb (shown_apart fields) fields = false.
Proof. vm_compute. repeat split. Qed.

Section Identify.

Variable string_to_number : string -> number.
Variable inherited_text : string -> string.

(** The classifier reads the attributes of the renderer's fields and no
    other. *)
Lemma searchRenderer_reads (a b : gmap string value) (r : Renderer) :
  (forall key, key ∈ fields_read r -> read a key = read b key) ->
  searchRenderer string_to_number inherited_text a r
  = searchRenderer string_to_number inherited_text b r.
Proof.
  unfold fields_read, searchRenderer. intros Hsame.
  destruct (is_str (r_type r) SIMPLE); [reflexivity|].
  destruct (is_str (r_type r) UNIQUE_VALUE).
  { rewrite (Hsame (str (field1 r))) by apply list_elem_of_here.
    destruct (truthy (field2 r)); [|reflexivity].
    rewrite (Hsame (str (field2 r))) by (apply list_elem_of_further, list_elem_of_here).
    destruct (truthy (field3 r)); [|reflexivity].
    rewrite (Hsame (str (field3 r)))
      by (do 2 apply list_elem_of_further; apply list_elem_of_here).
    reflexivity. }
  destruct (is_str (r_type r) CLASS_BREAKS); [|reflexivity].
  rewrite (Hsame (str (field r))) by apply list_elem_of_here. reflexivity.
Qed.

(** X28. The icon of an identified feature.  Take fields as for the
    un-aliasing: with pairwise distinct names, none of them [__proto__],
    shown by pairwise distinct names, none of them [hasOwnProperty], each
    field by its own name or by a name that no field has; and a renderer
    that reads none but attributes that are fields and that the feature
    has.  Then [getGraphicIcon] on the object that [unAliasAttribs] builds
    from the attributes reported under the shown names logs and returns
    what it does on the feature's own attributes. *)
Theorem identify_icon_of_aliased_attributes (attributes : gmap string value)
    (fields : list Field) (r : Renderer) :
  NoDup (field_names fields) ->
  NoDup (shown_names fields) ->
  forallb (shown_apart fields) fields = true ->
  "hasOwnProperty" ∉ shown_names fields ->
  "__proto__" ∉ field_names fields ->
  (forall key, key ∈ fields_read r ->
               key ∈ field_names fields /\ is_Some (attributes !! key)) ->
  exists unAliasAtt,
    AttribFC.unAliasAttribs (aliased attributes fields) fields
    = Attributes (Scalar <$> unAliasAtt)
    /\ getGraphicIcon string_to_number inherited_text unAliasAtt r
       = getGraphicIcon string_to_number inherited_text attributes r.
Proof.
  intros Hnames Hshown Hapart Hown Hproto Hread.
  destruct (unAliasAttribs_aliased attributes fields Hnames Hshown Hapart Hown Hproto)
    as (newA & Hrun & Hin & Hout).
  set (unAliasAtt := list_to_map (map (fun field => (str (f_name field),
                                                     own_value attributes (str (f_name field))))
                                      fields) : gmap string value).
  assert (Hm_in : forall f, f ∈ fields ->
                            unAliasAtt !! str (f_name f)
                            = Some (own_value attributes (str (f_name f)))).
  { intros f Hf. apply elem_of_list_to_map.
    - rewrite <- list_fmap_compose. exact Hnames.
    - apply list_elem_of_fmap. exists f. split; [reflexivity|exact Hf]. }
  assert (Hm_out : forall key, key ∉ field_names fields -> unAliasAtt !! key = None).
  { intros key Hk. apply not_elem_of_list_to_map. rewrite <- list_fmap_compose. exact Hk. }
  exists unAliasAtt. split.
  - rewrite Hrun. f_equal. apply map_eq. intros key. rewrite lookup_fmap.
    destruct (decide (key ∈ field_names fields)) as [Hk|Hk].
    + apply list_elem_of_fmap in Hk as (f & -> & Hf).
      rewrite (Hin f Hf), (Hm_in f Hf). reflexivity.
    + rewrite (Hout key Hk), (Hm_out key Hk). reflexivity.
  - unfold getGraphicIcon. cbv zeta.
    rewrite (searchRenderer_reads unAliasAtt attributes r); [reflexivity|].
    intros key Hk. apply Hread in Hk as [Hk [v Hv]].
    apply list_elem_of_fmap in Hk as (f & -> & Hf).
    unfold read. rewrite (Hm_in f Hf). unfold own_value. rewrite Hv. reflexivity.
Qed.

End Identify.

Lemma identify_icon_of_aliased_attributes_witness :
  exists unAliasAtt,
    AttribFC.unAliasAttribs (aliased a_town kind_and_name) kind_and_name
    = Attributes (Scalar <$> unAliasAtt)
    /\ getGraphicIcon no_numeric_strings some_inherited_text unAliasAtt uv_kind_renderer
       = getGraphicIcon no_numeric_strings some_inherited_text a_town uv_kind_renderer.
Proof.
  apply (identify_icon_of_aliased_attributes no_numeric_strings some_inherited_text
           a_town kind_and_name uv_kind_renderer).
  - apply (bool_decide_unpack _). vm_compute. exact I.
  - apply (bool_decide_unpack _). vm_compute. exact I.
  - vm_compute. reflexivity.
  - apply (bool_decide_unpack _). vm_compute. exact I.
  - apply (bool_decide_unpack _). vm_compute. exact I.
  - intros key Hkey. apply list_elem_of_singleton in Hkey as ->.
    split; [apply list_elem_of_here|].
    exists (VStr "town"). vm_compute. reflexivity.
Defined.
